(** * TeamSync Polyglot: the translation-and-summarization caching workflow

    A shallow embedding of the server side of the repository
    (server/routers.ts, server/db.ts, server/summarization.ts,
    server/translation.ts, server/ocr.ts and drizzle/schema.ts) together
    with the properties of the workflow stated in the specification.

    - The code is TypeScript running on a JavaScript engine: what comes
      out of [JSON.parse] is dynamically typed, so the embedding keeps
      such values as JSON values and spells out truthiness, property
      access and string conversion where the source relies on them.
    - The functions of the JavaScript standard library and of the
      database driver that the server calls are the fields of the class
      [Runtime]; the properties hold for every runtime.  The module
      [Reference] is one executable runtime, on which the example runs
      are evaluated.
    - The remote collaborators (the language model behind [generateText],
      the blob store behind [storagePut]) answer through an oracle indexed
      by the position of the call in the trace of remote calls; every
      awaited call is appended to that trace.
    - The two tables are lists of rows with auto-increment counters.  The
      engine's part is taken from the schema: the translations of a
      meeting are deleted with it ([onDelete: "cascade"]), and a text
      assigned to a column is held as the declared type of the column
      keeps it ([Column_keeps]: an engine refuses or shortens what
      exceeds the width of a [varchar] or of a [text]).  The user of a
      request is [ctx.user], whose row the [users] table holds, and a
      translation is inserted for a meeting that was just read: the
      foreign keys of [meetings.userId] and [translations.meetingId]
      are satisfied at every insert of the router.
    - Handlers run one after the other: a handler is a function from the
      world to an outcome and the world after it.
    - After the workflow come the rest of server/db.ts (the listings and
      the [users] table), [extractTextFromImage] of server/ocr.ts, the
      form of client/src/pages/NewMeeting.tsx that sends the two create
      requests, and the Ollama reference implementation
      (server/translation-ollama.reference.ts), each with its
      properties. *)

From Stdlib Require Import String Ascii List ZArith NArith Bool Lia.
From Stdlib Require Import DecimalString DecimalN DecimalFacts.
From Stdlib Require Import Permutation Sorted.
Import ListNotations.

Set Warnings "-register-all".

Local Open Scope string_scope.
Local Open Scope Z_scope.

(* ================================================================== *)
(** ** JavaScript values *)
(* ================================================================== *)

Module JS.

(** A finite JSON number, [mantissa * 10 ^ exponent]. *)
Inductive number : Type := Dec (mantissa exponent : Z).

Definition number_is_zero (n : number) : bool :=
  match n with Dec m _ => m =? 0 end.

Definition number_positive (n : number) : bool :=
  match n with Dec m _ => 0 <? m end.

(** What [JSON.parse] returns.  [undefined] never occurs inside such a
    value; a JavaScript expression that may be [undefined] is an
    [option json] with [None] for [undefined]. *)
Inductive json : Type :=
| JNull
| JBool (b : bool)
| JNumber (n : number)
| JString (s : string)
| JArray (items : list json)
| JObject (fields : list (string * json)).

(** Exceptions a handler can end with. *)
Inductive exn : Type :=
| Error (message : string)
| TypeError
| SyntaxError
| ZodError.

Inductive outcome (A : Type) : Type :=
| Ok (a : A)
| Throw (e : exn).
Arguments Ok {A} a.
Arguments Throw {A} e.

(** [!!v] *)
Definition truthy (v : option json) : bool :=
  match v with
  | None => false
  | Some JNull => false
  | Some (JBool b) => b
  | Some (JNumber n) => negb (number_is_zero n)
  | Some (JString s) => negb (s =? "")%string
  | Some (JArray _) => true
  | Some (JObject _) => true
  end.

(** [a || b] *)
Definition or_else (a : option json) (b : json) : json :=
  match a with
  | Some v => if truthy a then v else b
  | None => b
  end.

(** Own property of an object built by [JSON.parse]: the last binding of
    the key wins. *)
Fixpoint own_property (fields : list (string * json)) (key : string)
  : option json :=
  match fields with
  | [] => None
  | (k, v) :: rest =>
      match own_property rest key with
      | Some v' => Some v'
      | None => if (k =? key)%string then Some v else None
      end
  end.

(** [v.key] for the keys the code reads ([summary], [actionItems],
    [keyPoints], [participants], [decisions], [text], [language]): none of
    them is inherited from a prototype, so primitives and arrays answer
    [undefined]; reading a property of [null] throws. *)
Definition get (v : json) (key : string) : outcome (option json) :=
  match v with
  | JNull => Throw TypeError
  | JObject fields => Ok (own_property fields key)
  | _ => Ok None
  end.

Definition has_own (fields : list (string * json)) (key : string) : bool :=
  match own_property fields key with
  | Some _ => true
  | None => false
  end.

(** Sequencing of computations that may throw. *)
Definition obind {A B} (c : outcome A) (k : A -> outcome B) : outcome B :=
  match c with
  | Ok a => k a
  | Throw e => Throw e
  end.

Fixpoint join (sep : string) (parts : list string) : string :=
  match parts with
  | [] => ""
  | [p] => p
  | p :: rest => p ++ sep ++ join sep rest
  end.

Fixpoint sequence {A} (l : list (outcome A)) : outcome (list A) :=
  match l with
  | [] => Ok []
  | c :: rest =>
      obind c (fun a => obind (sequence rest) (fun r => Ok (a :: r)))
  end.

Section ToString.

(** [Number.prototype.toString] *)
Variable Number_toString : number -> string.

(** [ToString(v)], as a template literal applies it.  An object read
    from JSON inherits [Object.prototype.toString] unless it has an own
    [toString] property, which is then not callable: the conversion
    falls back to [valueOf], gets no primitive and throws.  An array is
    joined with commas, [null] elements printing as empty. *)
Fixpoint ToString (v : json) : outcome string :=
  match v with
  | JNull => Ok "null"
  | JBool true => Ok "true"
  | JBool false => Ok "false"
  | JNumber n => Ok (Number_toString n)
  | JString s => Ok s
  | JArray items =>
      obind (sequence (map (fun i => match i with
                                     | JNull => Ok ""
                                     | _ => ToString i
                                     end) items))
            (fun parts => Ok (join "," parts))
  | JObject fields =>
      if has_own fields "toString" then Throw TypeError
      else Ok "[object Object]"
  end.

(** The conversion [Array.prototype.join] applies to one element. *)
Definition join_element (v : option json) : outcome string :=
  match v with
  | None => Ok ""
  | Some JNull => Ok ""
  | Some v => ToString v
  end.

End ToString.

(** The declared type of a text column (drizzle/schema.ts). *)
Module Column.
Inductive type : Type :=
| varchar (length : Z)
| text.
End Column.

(** The functions of the JavaScript standard library, of the database
    driver and of the database engine that the server relies on. *)
Class Runtime : Type := {
  JSON_parse : string -> option json;
  JSON_stringify : json -> string;
  Number_toString : number -> string;
  (** [ToNumber] of a string; [None] is [NaN] *)
  String_toNumber : string -> option number;
  String_trim : string -> string;
  String_toLowerCase : string -> string;
  String_toUpperCase : string -> string;
  Date_toLocaleString : Z -> string;
  (** [(fileSize / 1024 / 1024).toFixed(2)] *)
  MiB_toFixed2 : Z -> string;
  Buffer_from_base64 : string -> string;
  (** the text the driver sends for a value that is not a string;
      [None] when the statement is refused *)
  Driver_text : json -> option string;
  (** what a column of the declared type holds after the text is
      assigned to it ([inl]), or the message of the error with which
      the engine refuses the statement ([inr]) *)
  Column_assign : Column.type -> string -> string + string
}.

(** The assignment as the caller of the driver sees it: the text the
    column holds, or the [Error] the driver throws for a refused
    statement. *)
Definition Column_keeps {rt : Runtime} (c : Column.type) (v : string)
  : outcome string :=
  match Column_assign c v with
  | inl held => Ok held
  | inr message => Throw (Error message)
  end.

End JS.
Export JS.

(* ================================================================== *)
(** ** Persistence layer: drizzle/schema.ts and server/db.ts *)
(* ================================================================== *)

(** A row of the [meetings] table. *)
Module Meeting.
Record row : Type := {
  id : Z;
  userId : Z;
  title : string;
  originalContent : string;
  detectedLanguage : option string;
  imageUrl : option string;
  imageKey : option string;
  createdAt : Z;
  updatedAt : Z
}.
End Meeting.

(** A row of the [translations] table. *)
Module Translation.
Record row : Type := {
  id : Z;
  meetingId : Z;
  targetLanguage : string;
  translatedContent : string;
  summary : option string;
  actionItems : option string;
  createdAt : Z
}.
End Translation.

(** [InsertMeeting] as the handlers fill it.  [originalContent] and
    [detectedLanguage] are declared [string] but reach the driver as
    whatever value the OCR reply held. *)
Record InsertMeeting : Type := {
  im_userId : Z;
  im_title : string;
  im_originalContent : json;
  im_detectedLanguage : option json;
  im_imageUrl : option string;
  im_imageKey : option string
}.

(** [InsertTranslation] as [translate] fills it. *)
Record InsertTranslation : Type := {
  it_meetingId : Z;
  it_targetLanguage : string;
  it_translatedContent : string;
  it_summary : json;
  it_actionItems : string
}.

(** The two tables with their auto-increment counters.  A text column
    holds what [Column_keeps] gave for the inserted text. *)
Record Database : Type := {
  meetings : list Meeting.row;
  translations : list Translation.row;
  meetings_auto : Z;
  translations_auto : Z
}.

Definition empty_database : Database :=
  {| meetings := []; translations := [];
     meetings_auto := 1; translations_auto := 1 |}.

(** One remote call, as it leaves the server. *)
Inductive RemoteCall : Type :=
| CallTranslate (prompt : string)
| CallDetect (prompt : string)
| CallSummarize (prompt : string)
| CallOCR (imageUrl : string)
| CallStoragePut (key data mimeType : string).

Inductive reply : Type :=
| Text (text : string)
| Failed (message : string).

(** The remote collaborators: the answer to the [n]-th remote call of a
    run, and the token [nanoid()] draws when [n] calls have been made. *)
Record Env : Type := {
  respond : nat -> RemoteCall -> reply;
  nanoid : nat -> string
}.

(** The state a request runs in: the database the lazily created handle
    points to ([None] when [DATABASE_URL] is unset or the connection
    failed), the remote calls made so far, and the clock.  A connected
    database answers every statement: transport failures are not part of
    the model. *)
Record World : Type := {
  db : option Database;
  trace : list RemoteCall;
  now : Z
}.

(** Handlers are state-passing computations that may throw. *)
Definition M (A : Type) : Type := World -> outcome A * World.

Definition ret {A} (a : A) : M A := fun w => (Ok a, w).
Definition throw {A} (e : exn) : M A := fun w => (Throw e, w).
Definition bind {A B} (c : M A) (k : A -> M B) : M B :=
  fun w => match c w with
           | (Ok a, w') => k a w'
           | (Throw e, w') => (Throw e, w')
           end.
Definition lift {A} (c : outcome A) : M A := fun w => (c, w).
(** [try c catch (error) h] *)
Definition try_catch {A} (c : M A) (h : exn -> M A) : M A :=
  fun w => match c w with
           | (Ok a, w') => (Ok a, w')
           | (Throw e, w') => h e w'
           end.

Declare Scope m_scope.
Delimit Scope m_scope with m.
Notation "x <- c ;; k" := (bind c (fun x => k))
  (at level 61, c at next level, right associativity) : m_scope.
Notation "c ;;; k" := (bind c (fun _ => k))
  (at level 61, right associativity) : m_scope.
Local Open Scope m_scope.

Definition getDb : M (option Database) := fun w => (Ok (db w), w).

Definition putDb (d : Database) : M unit :=
  fun w => (Ok tt, {| db := Some d; trace := trace w; now := now w |}).

Definition clock : M Z := fun w => (Ok (now w), w).

(** An awaited remote call: logged, then answered by the oracle. *)
Definition remote (env : Env) (c : RemoteCall) : M string :=
  fun w =>
    let w' := {| db := db w; trace := trace w ++ [c]; now := now w |} in
    match respond env (length (trace w)) c with
    | Text t => (Ok t, w')
    | Failed msg => (Throw (Error msg), w')
    end.

Section Db.

Context {rt : Runtime}.

(** What the driver stores in a [text] or [varchar] column. *)
Definition column_text (v : json) : option string :=
  match v with
  | JString s => Some s
  | _ => Driver_text v
  end.

Definition nullable_text (v : option json) : option (option string) :=
  match v with
  | None => Some None
  | Some JNull => Some None
  | Some v => option_map Some (column_text v)
  end.

(** The engine's part of an assignment to a nullable text column. *)
Definition keeps_nullable (c : Column.type) (v : option string)
  : outcome (option string) :=
  match v with
  | None => Ok None
  | Some s => obind (Column_keeps c s) (fun held => Ok (Some held))
  end.

(** The row the engine keeps for [db.insert(meetings).values(meeting)]
    at time [t], or the error of the statement.  The driver sends the
    values as texts; each column then holds what its declared type
    (drizzle/schema.ts) keeps of the text. *)
Definition stored_meeting (d : Database) (t : Z) (meeting : InsertMeeting)
  : outcome Meeting.row :=
  match column_text (im_originalContent meeting),
        nullable_text (im_detectedLanguage meeting) with
  | Some content, Some lang =>
      obind (Column_keeps (Column.varchar 255) (im_title meeting))
            (fun title =>
      obind (Column_keeps Column.text content) (fun originalContent =>
      obind (keeps_nullable (Column.varchar 10) lang)
            (fun detectedLanguage =>
      obind (keeps_nullable Column.text (im_imageUrl meeting))
            (fun imageUrl =>
      obind (keeps_nullable Column.text (im_imageKey meeting))
            (fun imageKey =>
      Ok {| Meeting.id := meetings_auto d;
            Meeting.userId := im_userId meeting;
            Meeting.title := title;
            Meeting.originalContent := originalContent;
            Meeting.detectedLanguage := detectedLanguage;
            Meeting.imageUrl := imageUrl;
            Meeting.imageKey := imageKey;
            Meeting.createdAt := t;
            Meeting.updatedAt := t |})))))
  | _, _ => Throw (Error "Failed query")
  end.

(** [db.insert(meetings).values(meeting)]; returns [insertId].  A
    refused statement leaves the table and its counter as they were. *)
Definition createMeeting (meeting : InsertMeeting) : M Z :=
  d <- getDb ;;
  match d with
  | None => throw (Error "Database not available")
  | Some d =>
      t <- clock ;;
      r <- lift (stored_meeting d t meeting) ;;
      putDb {| meetings := meetings d ++ [r];
               translations := translations d;
               meetings_auto := meetings_auto d + 1;
               translations_auto := translations_auto d |} ;;;
      ret (meetings_auto d)
  end.

(** [select().from(meetings).where(eq(meetings.id, id)).limit(1)] *)
Definition getMeetingById (id : Z) : M (option Meeting.row) :=
  d <- getDb ;;
  match d with
  | None => ret None
  | Some d => ret (find (fun r => Meeting.id r =? id) (meetings d))
  end.

(** [db.delete(meetings).where(eq(meetings.id, id))]; the foreign key
    of [translations.meetingId] is declared [onDelete: "cascade"], so
    the engine removes the translations of the meeting with it. *)
Definition deleteMeeting (id : Z) : M unit :=
  d <- getDb ;;
  match d with
  | None => throw (Error "Database not available")
  | Some d =>
      putDb {| meetings :=
                 filter (fun r => negb (Meeting.id r =? id)) (meetings d);
               translations :=
                 filter (fun r => negb (Translation.meetingId r =? id))
                        (translations d);
               meetings_auto := meetings_auto d;
               translations_auto := translations_auto d |}
  end.

(** The row the engine keeps for
    [db.insert(translations).values(translation)] at time [t], or the
    error of the statement. *)
Definition stored_translation (d : Database) (t : Z)
           (translation : InsertTranslation) : outcome Translation.row :=
  match nullable_text (Some (it_summary translation)) with
  | Some summary =>
      obind (Column_keeps (Column.varchar 10) (it_targetLanguage translation))
            (fun targetLanguage =>
      obind (Column_keeps Column.text (it_translatedContent translation))
            (fun translatedContent =>
      obind (keeps_nullable Column.text summary) (fun summary =>
      obind (Column_keeps Column.text (it_actionItems translation))
            (fun actionItems =>
      Ok {| Translation.id := translations_auto d;
            Translation.meetingId := it_meetingId translation;
            Translation.targetLanguage := targetLanguage;
            Translation.translatedContent := translatedContent;
            Translation.summary := summary;
            Translation.actionItems := Some actionItems;
            Translation.createdAt := t |}))))
  | None => Throw (Error "Failed query")
  end.

(** [db.insert(translations).values(translation)]; returns [insertId]. *)
Definition createTranslation (translation : InsertTranslation) : M Z :=
  d <- getDb ;;
  match d with
  | None => throw (Error "Database not available")
  | Some d =>
      t <- clock ;;
      r <- lift (stored_translation d t translation) ;;
      putDb {| meetings := meetings d;
               translations := translations d ++ [r];
               meetings_auto := meetings_auto d;
               translations_auto := translations_auto d + 1 |} ;;;
      ret (translations_auto d)
  end.

(** The [where] clause of [getTranslation]; a stored language code
    equals the requested one when it is the same string (blanks at the
    end count, as under the NO PAD collations that MySQL 8 uses by
    default). *)
Definition translation_matches (meetingId : Z) (targetLanguage : string)
           (r : Translation.row) : bool :=
  (Translation.meetingId r =? meetingId)
  && (Translation.targetLanguage r =? targetLanguage)%string.

(** [select().from(translations)
       .where(and(eq(meetingId), eq(targetLanguage))).limit(1)] *)
Definition getTranslation (meetingId : Z) (targetLanguage : string)
  : M (option Translation.row) :=
  d <- getDb ;;
  match d with
  | None => ret None
  | Some d =>
      ret (find (translation_matches meetingId targetLanguage)
                (translations d))
  end.

End Db.

(* ================================================================== *)
(** ** Small string helpers *)
(* ================================================================== *)

Definition LF : string := String (ascii_of_nat 10) "".

(** The separator between the two language codes in the export header,
    byte for byte as the source file has it. *)
Definition arrow : string :=
  fold_right (fun n s => String (ascii_of_nat n) s) ""
             [195; 162; 226; 128; 160; 226; 128; 153]%nat.

(** [s.split(sep)[1]]: the piece between the first and the second
    separator, [None] when [s] has no separator. *)
Fixpoint until_sep (sep : ascii) (s : string) : string :=
  match s with
  | EmptyString => ""
  | String c r => if Ascii.eqb c sep then "" else String c (until_sep sep r)
  end.

Fixpoint split_second (sep : ascii) (s : string) : option string :=
  match s with
  | EmptyString => None
  | String c r =>
      if Ascii.eqb c sep then Some (until_sep sep r) else split_second sep r
  end.

(** [s.split(sep)[1] || fallback] *)
Definition second_or (sep : ascii) (s fallback : string) : string :=
  match split_second sep s with
  | Some p => if (p =? "")%string then fallback else p
  | None => fallback
  end.

(** Decimal rendering of a list index. *)
Definition string_of_nat (n : nat) : string :=
  NilZero.string_of_uint (Nat.to_uint n).

(* ================================================================== *)
(** ** server/translation.ts *)
(* ================================================================== *)

(** The [TranslationAdapter] interface. *)
Record TranslationAdapter : Type := {
  translate :
    string -> string -> option string -> M string;
  detectLanguage : string -> M string
}.

Section Adapters.

Context {rt : Runtime} (env : Env).

(** The prompt of [translate]; the hint is left out when
    [sourceLanguage] is [undefined] or empty. *)
Definition translate_prompt (content targetLanguage : string)
           (sourceLanguage : option string) : string :=
  let sourceHint :=
    match sourceLanguage with
    | Some l => if (l =? "")%string then "" else " from " ++ l
    | None => ""
    end in
  "Translate the following text" ++ sourceHint ++ " into "
  ++ targetLanguage ++ ":" ++ LF ++ LF ++ content.

Definition detect_prompt (content : string) : string :=
  "Detect the language of this text:" ++ LF ++ LF ++ content.

(** [GeminiTranslationAdapter] *)
Definition GeminiTranslationAdapter : TranslationAdapter :=
  {| translate := fun content targetLanguage sourceLanguage =>
       remote env
         (CallTranslate
            (translate_prompt content targetLanguage sourceLanguage));
     detectLanguage := fun content =>
       text <- remote env (CallDetect (detect_prompt content)) ;;
       ret (String_toLowerCase (String_trim text)) |}.

Definition not_yet_implemented : string :=
  "TranslateGemma 4B adapter not yet implemented. "
  ++ "Use GeminiTranslationAdapter for now.".

(** [TranslateGemmaAdapter], the placeholder for local inference. *)
Definition TranslateGemmaAdapter : TranslationAdapter :=
  {| translate := fun _ _ _ => throw (Error not_yet_implemented);
     detectLanguage := fun _ => throw (Error not_yet_implemented) |}.

Definition getTranslationAdapter : TranslationAdapter :=
  GeminiTranslationAdapter.

Definition translateMeetingNotes (content targetLanguage : string)
           (sourceLanguage : option string) : M string :=
  translate getTranslationAdapter content targetLanguage sourceLanguage.

Definition detectMeetingLanguage (content : string) : M string :=
  detectLanguage getTranslationAdapter content.

End Adapters.

(* ================================================================== *)
(** ** server/summarization.ts *)
(* ================================================================== *)

(** [MeetingSummary].  The interface declares [summary: string] and
    string arrays; at run time the fields hold what the parsed reply
    held. *)
Record MeetingSummary : Type := {
  ms_summary : json;
  ms_actionItems : list json;
  ms_keyPoints : list json;
  ms_participants : option (list json);
  ms_decisions : option (list json)
}.

(** [Array.isArray(v) ? v : []] *)
Definition array_or_empty (v : option json) : list json :=
  match v with
  | Some (JArray l) => l
  | _ => []
  end.

(** [Array.isArray(v) ? v : undefined] *)
Definition array_or_undefined (v : option json) : option (list json) :=
  match v with
  | Some (JArray l) => Some l
  | _ => None
  end.

(** The object literal built from the parsed reply. *)
Definition summary_of_parsed (parsed : json) : outcome MeetingSummary :=
  obind (get parsed "summary") (fun s =>
  obind (get parsed "actionItems") (fun a =>
  obind (get parsed "keyPoints") (fun k =>
  obind (get parsed "participants") (fun p =>
  obind (get parsed "decisions") (fun d =>
  Ok {| ms_summary := or_else s (JString "No summary available");
        ms_actionItems := array_or_empty a;
        ms_keyPoints := array_or_empty k;
        ms_participants := array_or_undefined p;
        ms_decisions := array_or_undefined d |}))))).

(** The fallback of the [catch] block. *)
Definition fallback_summary (text : string) : MeetingSummary :=
  {| ms_summary := JString text;
     ms_actionItems := [];
     ms_keyPoints := [];
     ms_participants := None;
     ms_decisions := None |}.

(** The object [JSON.stringify] sees: a field that is [undefined] is
    left out. *)
Definition json_of_summary (s : MeetingSummary) : json :=
  JObject ([("summary", ms_summary s);
            ("actionItems", JArray (ms_actionItems s));
            ("keyPoints", JArray (ms_keyPoints s))]
           ++ match ms_participants s with
              | Some l => [("participants", JArray l)]
              | None => []
              end
           ++ match ms_decisions s with
              | Some l => [("decisions", JArray l)]
              | None => []
              end).

Section Summarization.

Context {rt : Runtime} (env : Env).

(** The [try] block and its [catch], given the reply text. *)
Definition summary_of_text (text : string) : MeetingSummary :=
  match JSON_parse text with
  | None => fallback_summary text
  | Some parsed =>
      match summary_of_parsed parsed with
      | Ok s => s
      | Throw _ => fallback_summary text
      end
  end.

Definition summarize_prompt (content : string) : string :=
  "Analyze these meeting notes and extract structured information:"
  ++ LF ++ LF ++ content.

Definition summarizeMeetingNotes (content : string) : M MeetingSummary :=
  text <- remote env (CallSummarize (summarize_prompt content)) ;;
  ret (summary_of_text text).

(** [x > 0] for a value [x] read from an object. *)
Definition string_positive (s : string) : bool :=
  match String_toNumber s with
  | Some n => number_positive n
  | None => false
  end.

Definition gt_zero (x : option json) : outcome bool :=
  match x with
  | None => Ok false
  | Some JNull => Ok false
  | Some (JBool b) => Ok b
  | Some (JNumber n) => Ok (number_positive n)
  | Some (JString s) => Ok (string_positive s)
  | Some v => obind (ToString Number_toString v)
                    (fun s => Ok (string_positive s))
  end.

(** [v.length > 0] *)
Definition has_items (v : option json) : outcome bool :=
  match v with
  | None => Throw TypeError
  | Some JNull => Throw TypeError
  | Some (JArray l) => Ok (match l with [] => false | _ => true end)
  | Some (JString s) => Ok (negb (s =? "")%string)
  | Some (JBool _) => Ok false
  | Some (JNumber _) => Ok false
  | Some (JObject fields) => gt_zero (own_property fields "length")
  end.

Fixpoint lines_from (line : nat -> string -> string) (idx : nat)
         (items : list json) : outcome (list string) :=
  match items with
  | [] => Ok []
  | item :: rest =>
      obind (ToString Number_toString item) (fun s =>
      obind (lines_from line (S idx) rest) (fun r =>
      Ok (line idx s :: r)))
  end.

(** [v.forEach((item, idx) => sections.push(line idx item))]: only an
    array has a callable [forEach]. *)
Definition for_each (v : option json) (line : nat -> string -> string)
  : outcome (list string) :=
  match v with
  | Some (JArray l) => lines_from line 0%nat l
  | _ => Throw TypeError
  end.

(** One optional section: heading, one line per item, a blank line. *)
Definition list_section (heading : string) (v : option json)
           (line : nat -> string -> string) : outcome (list string) :=
  obind (has_items v) (fun b =>
  if b then obind (for_each v line) (fun ls => Ok (heading :: ls ++ [""]))
  else Ok []).

Definition bullet (_ : nat) (s : string) : string := "- " ++ s.

Definition numbered (idx : nat) (s : string) : string :=
  string_of_nat (idx + 1) ++ ". " ++ s.

Definition fence : string := "```".

(** [formatSummaryForExport]; [generated] is [new Date()]. *)
Definition formatSummaryForExport
           (originalContent translatedContent : string) (summary : json)
           (sourceLanguage targetLanguage : string) (generated : Z)
  : outcome string :=
  let header :=
    ["# Meeting Summary";
     "";
     "**Languages:** " ++ String_toUpperCase sourceLanguage ++ " " ++ arrow
       ++ " " ++ String_toUpperCase targetLanguage;
     "**Generated:** " ++ Date_toLocaleString generated;
     ""] in
  obind (get summary "summary") (fun overview =>
  obind (get summary "participants") (fun p =>
  obind (if truthy p then list_section "## Participants" p bullet
         else Ok []) (fun participants =>
  obind (get summary "actionItems") (fun a =>
  obind (list_section "## Action Items" a numbered) (fun actionItems =>
  obind (get summary "keyPoints") (fun k =>
  obind (list_section "## Key Points" k bullet) (fun keyPoints =>
  obind (get summary "decisions") (fun d =>
  obind (if truthy d then list_section "## Decisions Made" d bullet
         else Ok []) (fun decisions =>
  obind (join_element Number_toString overview) (fun overview_line =>
  Ok (join LF
        (header
         ++ ["## Overview"; overview_line; ""]
         ++ participants ++ actionItems ++ keyPoints ++ decisions
         ++ ["---"; "";
             "## Original Content"; fence; originalContent; fence; "";
             "## Translated Content"; fence; translatedContent; fence]))
  )))))))))).

End Summarization.

(* ================================================================== *)
(** ** server/ocr.ts *)
(* ================================================================== *)

(** [OCRResult]; [extractedText] is declared [string] and holds what the
    parsed reply held. *)
Record OCRResult : Type := {
  extractedText : json;
  ocr_detectedLanguage : option json;
  confidence : number
}.

(** The result of [validateImageForOCR]. *)
Record Validation : Type := {
  valid : bool;
  error : option string
}.

Definition maxSize : Z := 16 * 1024 * 1024.

Definition supportedFormats : list string :=
  ["image/jpeg"; "image/jpg"; "image/png"; "image/webp"; "image/gif"].

(** [supportedFormats.includes(s)] *)
Definition includes (l : list string) (s : string) : bool :=
  existsb (fun x => (x =? s)%string) l.

Definition exn_message (e : exn) : string :=
  match e with
  | Error m => m
  | TypeError => "TypeError"
  | SyntaxError => "SyntaxError"
  | ZodError => "ZodError"
  end.

Section Ocr.

Context {rt : Runtime} (env : Env).

(** The inner [try] block and its [catch], given the reply text. *)
Definition ocr_of_text (text : string) : OCRResult :=
  let fallback := {| extractedText := JString (String_trim text);
                     ocr_detectedLanguage := None;
                     confidence := Dec 8 (-1) |} in
  match JSON_parse text with
  | None => fallback
  | Some parsed =>
      match get parsed "text", get parsed "language" with
      | Ok t, Ok l =>
          {| extractedText := or_else t (JString "");
             ocr_detectedLanguage := Some (or_else l (JString "unknown"));
             confidence := if truthy t then Dec 1 0 else Dec 0 0 |}
      | _, _ => fallback
      end
  end.

Definition extractAndDetectLanguage (imageUrl : string) : M OCRResult :=
  try_catch
    (text <- remote env (CallOCR imageUrl) ;;
     ret (ocr_of_text text))
    (fun e => throw (Error ("Failed to process image: " ++ exn_message e))).

Definition validateImageForOCR (fileSize : Z) (mimeType : string)
  : Validation :=
  if maxSize <? fileSize then
    {| valid := false;
       error := Some ("Image too large. Maximum size is 16MB, got "
                      ++ MiB_toFixed2 fileSize ++ "MB") |}
  else if negb (includes supportedFormats (String_toLowerCase mimeType)) then
    {| valid := false;
       error := Some ("Unsupported image format: " ++ mimeType
                      ++ ". Supported formats: JPEG, PNG, WebP, GIF") |}
  else {| valid := true; error := None |}.

End Ocr.

(* ================================================================== *)
(** ** server/routers.ts: the [meetings] router *)
(* ================================================================== *)

Record CreateResult : Type := {
  cr_id : Z;
  cr_detectedLanguage : string
}.

Record CreateFromImageResult : Type := {
  ci_id : Z;
  ci_detectedLanguage : option json;
  ci_extractedText : json;
  ci_imageUrl : string
}.

(** What [translate] returns: the stored row on a cache hit, the object
    literal (which has no [createdAt]) after a miss. *)
Record TranslateResult : Type := {
  tr_id : Z;
  tr_meetingId : Z;
  tr_targetLanguage : string;
  tr_translatedContent : string;
  tr_summary : json;
  tr_actionItems : option string;
  tr_createdAt : option Z
}.

Definition json_of_text (s : option string) : json :=
  match s with
  | Some s => JString s
  | None => JNull
  end.

Definition result_of_row (r : Translation.row) : TranslateResult :=
  {| tr_id := Translation.id r;
     tr_meetingId := Translation.meetingId r;
     tr_targetLanguage := Translation.targetLanguage r;
     tr_translatedContent := Translation.translatedContent r;
     tr_summary := json_of_text (Translation.summary r);
     tr_actionItems := Translation.actionItems r;
     tr_createdAt := Some (Translation.createdAt r) |}.

(** [s || fallback] on a nullable string column. *)
Definition text_or (s : option string) (fallback : string) : string :=
  match s with
  | Some s => if (s =? "")%string then fallback else s
  | None => fallback
  end.

(** [s || undefined] *)
Definition text_or_undefined (s : option string) : option string :=
  match s with
  | Some s => if (s =? "")%string then None else Some s
  | None => None
  end.

Module meetings.

Section Routers.

Context {rt : Runtime} (env : Env).

(** [meetings.create]; [user] is [ctx.user.id]. *)
Definition create (user : Z) (title content : string) : M CreateResult :=
  if ((title =? "") || (content =? ""))%string then throw ZodError
  else
    detectedLanguage <- detectMeetingLanguage env content ;;
    meetingId <- createMeeting
                   {| im_userId := user;
                      im_title := title;
                      im_originalContent := JString content;
                      im_detectedLanguage := Some (JString detectedLanguage);
                      im_imageUrl := None;
                      im_imageKey := None |} ;;
    ret {| cr_id := meetingId; cr_detectedLanguage := detectedLanguage |}.

(** [meetings.createFromImage] *)
Definition createFromImage (user : Z) (title imageData mimeType : string)
           (fileSize : Z) : M CreateFromImageResult :=
  if (title =? "")%string then throw ZodError
  else
    let validation := validateImageForOCR fileSize mimeType in
    if negb (valid validation) then
      throw (Error (match error validation with Some m => m | None => "" end))
    else
      let base64Data := second_or ","%char imageData imageData in
      let buffer := Buffer_from_base64 base64Data in
      let fileExtension := second_or "/"%char mimeType "jpg" in
      token <- (fun w => (Ok (nanoid env (length (trace w))), w)) ;;
      let fileKey := "meetings/" ++ Number_toString (Dec user 0) ++ "/"
                     ++ token ++ "." ++ fileExtension in
      imageUrl <- remote env (CallStoragePut fileKey buffer mimeType) ;;
      ocrResult <- extractAndDetectLanguage env imageUrl ;;
      if negb (truthy (Some (extractedText ocrResult))) then
        throw (Error "No text could be extracted from the image")
      else
        meetingId <- createMeeting
                       {| im_userId := user;
                          im_title := title;
                          im_originalContent := extractedText ocrResult;
                          im_detectedLanguage :=
                            ocr_detectedLanguage ocrResult;
                          im_imageUrl := Some imageUrl;
                          im_imageKey := Some fileKey |} ;;
        ret {| ci_id := meetingId;
               ci_detectedLanguage := ocr_detectedLanguage ocrResult;
               ci_extractedText := extractedText ocrResult;
               ci_imageUrl := imageUrl |}.

(** [meetings.translate] *)
Definition translate (meetingId : Z) (targetLanguage : string)
  : M TranslateResult :=
  existingTranslation <- getTranslation meetingId targetLanguage ;;
  match existingTranslation with
  | Some r => ret (result_of_row r)
  | None =>
      meeting <- getMeetingById meetingId ;;
      match meeting with
      | None => throw (Error "Meeting not found")
      | Some meeting =>
          translatedContent <-
            translateMeetingNotes env
              (Meeting.originalContent meeting) targetLanguage
              (text_or_undefined (Meeting.detectedLanguage meeting)) ;;
          summary <- summarizeMeetingNotes env translatedContent ;;
          translationId <-
            createTranslation
              {| it_meetingId := meetingId;
                 it_targetLanguage := targetLanguage;
                 it_translatedContent := translatedContent;
                 it_summary := ms_summary summary;
                 it_actionItems :=
                   JSON_stringify (json_of_summary summary) |} ;;
          ret {| tr_id := translationId;
                 tr_meetingId := meetingId;
                 tr_targetLanguage := targetLanguage;
                 tr_translatedContent := translatedContent;
                 tr_summary := ms_summary summary;
                 tr_actionItems :=
                   Some (JSON_stringify (json_of_summary summary));
                 tr_createdAt := None |}
      end
  end.

(** [meetings.export] *)
Definition export (meetingId : Z) (targetLanguage : string) : M string :=
  meeting <- getMeetingById meetingId ;;
  match meeting with
  | None => throw (Error "Meeting not found")
  | Some meeting =>
      translation <- getTranslation meetingId targetLanguage ;;
      match translation with
      | None => throw (Error "Translation not found")
      | Some translation =>
          match JSON_parse (text_or (Translation.actionItems translation)
                                    "{}") with
          | None => throw SyntaxError
          | Some summary =>
              generated <- clock ;;
              lift (formatSummaryForExport
                      (Meeting.originalContent meeting)
                      (Translation.translatedContent translation)
                      summary
                      (text_or (Meeting.detectedLanguage meeting) "unknown")
                      targetLanguage generated)
          end
      end
  end.

(** [meetings.delete] *)
Definition delete (id : Z) : M bool :=
  deleteMeeting id ;;;
  ret true.

(** The requests of the [meetings] router ([list], which only reads and
    sorts the meetings of a user, is left out). *)
Inductive Request : Type :=
| ReqGet (id : Z)
| ReqCreate (user : Z) (title content : string)
| ReqCreateFromImage (user : Z) (title imageData mimeType : string)
                     (fileSize : Z)
| ReqTranslate (meetingId : Z) (targetLanguage : string)
| ReqGetTranslation (meetingId : Z) (targetLanguage : string)
| ReqExport (meetingId : Z) (targetLanguage : string)
| ReqDelete (id : Z).

Inductive Response : Type :=
| ResMeeting (m : option Meeting.row)
| ResCreated (r : CreateResult)
| ResCreatedFromImage (r : CreateFromImageResult)
| ResTranslation (r : TranslateResult)
| ResStored (r : option Translation.row)
| ResExport (content : string)
| ResDeleted (success : bool).

Definition handle (req : Request) : M Response :=
  match req with
  | ReqGet id => r <- getMeetingById id ;; ret (ResMeeting r)
  | ReqCreate user title content =>
      r <- create user title content ;; ret (ResCreated r)
  | ReqCreateFromImage user title imageData mimeType fileSize =>
      r <- createFromImage user title imageData mimeType fileSize ;;
      ret (ResCreatedFromImage r)
  | ReqTranslate meetingId targetLanguage =>
      r <- translate meetingId targetLanguage ;;
      ret (ResTranslation r)
  | ReqGetTranslation meetingId targetLanguage =>
      r <- getTranslation meetingId targetLanguage ;; ret (ResStored r)
  | ReqExport meetingId targetLanguage =>
      r <- export meetingId targetLanguage ;; ret (ResExport r)
  | ReqDelete id => r <- delete id ;; ret (ResDeleted r)
  end.

(** The server starts on empty tables (or without a database). *)
Definition initial (w : World) : Prop :=
  (db w = None \/ db w = Some empty_database) /\ trace w = [].

(** [later w w']: requests served one after the other lead from [w] to
    [w']; between requests the clock may advance. *)
Inductive later (w : World) : World -> Prop :=
| later_refl : later w w
| later_request w1 req :
    later w w1 -> later w (snd (handle req w1))
| later_tick w1 t :
    later w w1 -> now w1 <= t ->
    later w {| db := db w1; trace := trace w1; now := t |}.

Definition reachable (w : World) : Prop :=
  exists w0, initial w0 /\ later w0 w.

(** A run of [translate] requests, threading the world. *)
Fixpoint translate_all (calls : list (Z * string)) (w : World) : World :=
  match calls with
  | [] => w
  | (meetingId, targetLanguage) :: rest =>
      translate_all rest (snd (translate meetingId targetLanguage w))
  end.

End Routers.

End meetings.
Import meetings.

(* ================================================================== *)
(** ** A reference runtime *)
(* ================================================================== *)

(** An executable instance of [Runtime], used to run the workflow on
    concrete inputs: a JSON reader and writer over byte strings, ASCII
    case mapping and trimming, decimal rendering of integers, and an
    engine that enforces the widths of the columns.  The
    reader follows the JSON grammar (white space, escapes, fractions and
    exponents); a number is kept as the decimal it was written as, and a
    binary payload as its base64 text. *)
Module Reference.

Definition dquote : ascii := ascii_of_nat 34.
Definition backslash : ascii := ascii_of_nat 92.

Definition code (c : ascii) : N := N_of_ascii c.

Definition is_ws (c : ascii) : bool :=
  let n := code c in
  ((n =? 32) || (n =? 9) || (n =? 10) || (n =? 13))%N.

Fixpoint skip_ws (s : string) : string :=
  match s with
  | String c r => if is_ws c then skip_ws r else s
  | EmptyString => s
  end.

Definition is_digit (c : ascii) : bool :=
  let n := code c in ((48 <=? n) && (n <=? 57))%N.

(** The longest prefix of digits, and what follows it. *)
Fixpoint span_digits (s : string) : string * string :=
  match s with
  | String c r =>
      if is_digit c then
        let (d, rest) := span_digits r in (String c d, rest)
      else ("", s)
  | EmptyString => ("", "")
  end.

Definition N_of_digits (d : string) : N :=
  match NilEmpty.uint_of_string d with
  | Some u => N.of_uint u
  | None => 0%N
  end.

Definition digits_of_N (n : N) : string :=
  NilEmpty.string_of_uint (N.to_uint n).

Definition digits_of_Z (z : Z) : string :=
  (if z <? 0 then "-" else "") ++ digits_of_N (Z.abs_N z).

Definition signed (negative : bool) (n : N) : Z :=
  if negative then - Z.of_N n else Z.of_N n.

(** An optional [-] (and, in an exponent, [+]). *)
Definition read_sign (plus : bool) (s : string) : bool * string :=
  match s with
  | String c r =>
      if (code c =? 45)%N then (true, r)
      else if plus && (code c =? 43)%N then (false, r)
      else (false, s)
  | EmptyString => (false, s)
  end.

(** One digit or more. *)
Definition read_digits (s : string) : option (string * string) :=
  let (d, rest) := span_digits s in
  if (d =? "")%string then None else Some (d, rest).

(** [e] or [E], an optional sign, digits. *)
Definition parse_exponent (s : string) : option (Z * string) :=
  match s with
  | String c r =>
      if ((code c =? 101) || (code c =? 69))%N then
        let (negative, r1) := read_sign true r in
        match read_digits r1 with
        | Some (d, rest) => Some (signed negative (N_of_digits d), rest)
        | None => None
        end
      else Some (0, s)
  | EmptyString => Some (0, s)
  end.

(** [.] and digits. *)
Definition parse_fraction (s : string) : option (string * string) :=
  match s with
  | String c r =>
      if (code c =? 46)%N then read_digits r else Some ("", s)
  | EmptyString => Some ("", s)
  end.

Definition leading_zero (d : string) : bool :=
  match d with
  | String c (String _ _) => (code c =? 48)%N
  | _ => false
  end.

Definition parse_number (s : string) : option (number * string) :=
  let (negative, s1) := read_sign false s in
  match read_digits s1 with
  | None => None
  | Some (int_part, s2) =>
      if leading_zero int_part then None
      else
        match parse_fraction s2 with
        | None => None
        | Some (frac, s3) =>
            match parse_exponent s3 with
            | None => None
            | Some (e, s4) =>
                Some (Dec (signed negative (N_of_digits (int_part ++ frac)))
                          (e - Z.of_nat (String.length frac)),
                      s4)
            end
        end
  end.

Definition print_number (n : number) : string :=
  match n with
  | Dec m e =>
      digits_of_Z m ++ (if e =? 0 then "" else "e" ++ digits_of_Z e)
  end.

Definition hex_digit (c : ascii) : option N :=
  let n := code c in
  (if (48 <=? n) && (n <=? 57) then Some (n - 48)
   else if (97 <=? n) && (n <=? 102) then Some (n - 87)
   else if (65 <=? n) && (n <=? 70) then Some (n - 55)
   else None)%N.

Definition hex4 (a b c d : ascii) : option N :=
  match hex_digit a, hex_digit b, hex_digit c, hex_digit d with
  | Some x, Some y, Some z, Some w => Some (((x * 16 + y) * 16 + z) * 16 + w)%N
  | _, _, _, _ => None
  end.

Definition byte (n : N) : ascii := ascii_of_N n.

(** UTF-8 bytes of a code unit given by a [\u] escape. *)
Definition utf8 (u : N) : string :=
  (if u <? 128 then String (byte u) ""
   else if u <? 2048 then
     String (byte (192 + u / 64)) (String (byte (128 + u mod 64)) "")
   else
     String (byte (224 + u / 4096))
       (String (byte (128 + (u / 64) mod 64))
          (String (byte (128 + u mod 64)) "")))%N.

Definition prepend (p : string) (r : option (string * string))
  : option (string * string) :=
  match r with
  | Some (s, rest) => Some (p ++ s, rest)
  | None => None
  end.

Definition char (n : N) : string := String (byte n) "".

(** The characters of a string literal after its opening quote, up to
    the closing quote. *)
Fixpoint parse_chars (s : string) : option (string * string) :=
  match s with
  | EmptyString => None
  | String c r =>
      if Ascii.eqb c dquote then Some ("", r)
      else if Ascii.eqb c backslash then
        match r with
        | EmptyString => None
        | String e r1 =>
            if Ascii.eqb e dquote then prepend (char 34) (parse_chars r1)
            else if Ascii.eqb e backslash then
              prepend (char 92) (parse_chars r1)
            else if (code e =? 47)%N then prepend (char 47) (parse_chars r1)
            else if (code e =? 98)%N then prepend (char 8) (parse_chars r1)
            else if (code e =? 102)%N then prepend (char 12) (parse_chars r1)
            else if (code e =? 110)%N then prepend (char 10) (parse_chars r1)
            else if (code e =? 114)%N then prepend (char 13) (parse_chars r1)
            else if (code e =? 116)%N then prepend (char 9) (parse_chars r1)
            else if (code e =? 117)%N then
              match r1 with
              | String h1 (String h2 (String h3 (String h4 r2))) =>
                  match hex4 h1 h2 h3 h4 with
                  | Some u => prepend (utf8 u) (parse_chars r2)
                  | None => None
                  end
              | _ => None
              end
            else None
        end
      else if (code c <? 32)%N then None
      else prepend (String c "") (parse_chars r)
  end.

Definition hex_char (n : N) : ascii :=
  (if n <? 10 then byte (48 + n) else byte (87 + n))%N.

Definition escape_char (c : ascii) : string :=
  let n := code c in
  (if n =? 34 then String backslash (char 34)
   else if n =? 92 then String backslash (char 92)
   else if n =? 8 then String backslash "b"
   else if n =? 12 then String backslash "f"
   else if n =? 10 then String backslash "n"
   else if n =? 13 then String backslash "r"
   else if n =? 9 then String backslash "t"
   else if n <? 32 then
     String backslash
       (String "u" (String "0" (String "0"
          (String (hex_char (n / 16)) (String (hex_char (n mod 16)) "")))))
   else String c "")%N.

Fixpoint escape (s : string) : string :=
  match s with
  | EmptyString => ""
  | String c r => escape_char c ++ escape r
  end.

Definition quote (s : string) : string :=
  String dquote (escape s ++ String dquote "").

Definition expect (n : N) (s : string) : option string :=
  match s with
  | String c r => if (code c =? n)%N then Some r else None
  | EmptyString => None
  end.

Fixpoint strip_prefix (word s : string) : option string :=
  match word with
  | EmptyString => Some s
  | String a w =>
      match s with
      | String b r => if Ascii.eqb a b then strip_prefix w r else None
      | EmptyString => None
      end
  end.

Definition literal (word : string) (v : json) (s : string)
  : option (json * string) :=
  match strip_prefix word s with
  | Some rest => Some (v, rest)
  | None => None
  end.

(** Recursive descent; [fuel] bounds the number of nested calls. *)
Fixpoint parse_value (fuel : nat) (s : string) : option (json * string) :=
  match fuel with
  | O => None
  | S fuel =>
      match skip_ws s with
      | EmptyString => None
      | String c r as t =>
          if (code c =? 110)%N then literal "null" JNull t
          else if (code c =? 116)%N then literal "true" (JBool true) t
          else if (code c =? 102)%N then literal "false" (JBool false) t
          else if (code c =? 34)%N then
            match parse_chars r with
            | Some (str, rest) => Some (JString str, rest)
            | None => None
            end
          else if (code c =? 91)%N then
            match expect 93 (skip_ws r) with
            | Some rest => Some (JArray [], rest)
            | None =>
                match parse_elements fuel r with
                | Some (items, rest) => Some (JArray items, rest)
                | None => None
                end
            end
          else if (code c =? 123)%N then
            match expect 125 (skip_ws r) with
            | Some rest => Some (JObject [], rest)
            | None =>
                match parse_members fuel r with
                | Some (fields, rest) => Some (JObject fields, rest)
                | None => None
                end
            end
          else
            match parse_number t with
            | Some (n, rest) => Some (JNumber n, rest)
            | None => None
            end
      end
  end

with parse_elements (fuel : nat) (s : string)
  : option (list json * string) :=
  match fuel with
  | O => None
  | S fuel =>
      match parse_value fuel s with
      | None => None
      | Some (v, rest) =>
          match skip_ws rest with
          | String c r =>
              if (code c =? 93)%N then Some ([v], r)
              else if (code c =? 44)%N then
                match parse_elements fuel r with
                | Some (vs, rest') => Some (v :: vs, rest')
                | None => None
                end
              else None
          | EmptyString => None
          end
      end
  end

with parse_members (fuel : nat) (s : string)
  : option (list (string * json) * string) :=
  match fuel with
  | O => None
  | S fuel =>
      match expect 34 (skip_ws s) with
      | None => None
      | Some r0 =>
          match parse_chars r0 with
          | None => None
          | Some (key, r1) =>
              match expect 58 (skip_ws r1) with
              | None => None
              | Some r2 =>
                  match parse_value fuel r2 with
                  | None => None
                  | Some (v, rest) =>
                      match skip_ws rest with
                      | String c r =>
                          if (code c =? 125)%N then Some ([(key, v)], r)
                          else if (code c =? 44)%N then
                            match parse_members fuel r with
                            | Some (fs, rest') =>
                                Some ((key, v) :: fs, rest')
                            | None => None
                            end
                          else None
                      | EmptyString => None
                      end
                  end
              end
          end
      end
  end.

(** [JSON.parse]: one value, then only white space. *)
Definition parse (text : string) : option json :=
  match parse_value (2 * String.length text + 2) text with
  | Some (v, rest) =>
      match skip_ws rest with
      | EmptyString => Some v
      | _ => None
      end
  | None => None
  end.

(** [JSON.stringify] *)
Fixpoint stringify (v : json) : string :=
  match v with
  | JNull => "null"
  | JBool true => "true"
  | JBool false => "false"
  | JNumber n => print_number n
  | JString s => quote s
  | JArray items =>
      "[" ++ (fix elements (l : list json) : string :=
                match l with
                | [] => "]"
                | [x] => stringify x ++ "]"
                | x :: rest => stringify x ++ "," ++ elements rest
                end) items
  | JObject fields =>
      "{" ++ (fix members (l : list (string * json)) : string :=
                match l with
                | [] => "}"
                | [(k, x)] => quote k ++ ":" ++ stringify x ++ "}"
                | (k, x) :: rest =>
                    quote k ++ ":" ++ stringify x ++ "," ++ members rest
                end) fields
  end.

Definition lower (c : ascii) : ascii :=
  let n := code c in
  if ((65 <=? n) && (n <=? 90))%N then byte (n + 32) else c.

Definition upper (c : ascii) : ascii :=
  let n := code c in
  if ((97 <=? n) && (n <=? 122))%N then byte (n - 32) else c.

Fixpoint map_chars (f : ascii -> ascii) (s : string) : string :=
  match s with
  | EmptyString => ""
  | String c r => String (f c) (map_chars f r)
  end.

Definition is_space (c : ascii) : bool :=
  let n := code c in (((9 <=? n) && (n <=? 13)) || (n =? 32))%N.

Fixpoint trim_start (s : string) : string :=
  match s with
  | String c r => if is_space c then trim_start r else s
  | EmptyString => s
  end.

(** Drops trailing spaces: a space is kept only when something that is
    not a space follows it. *)
Fixpoint trim_end (s : string) : string :=
  match s with
  | EmptyString => ""
  | String c r =>
      match trim_end r with
      | EmptyString => if is_space c then "" else String c ""
      | r' => String c r'
      end
  end.

Definition trim (s : string) : string := trim_end (trim_start s).

(** [ToNumber] of a string, for decimal literals. *)
Definition toNumber (s : string) : option number :=
  match parse_number (trim s) with
  | Some (n, EmptyString) => Some n
  | _ => None
  end.

Definition two_digits (n : Z) : string :=
  (if n <? 10 then "0" else "") ++ digits_of_Z n.

(** [(fileSize / 1024 / 1024).toFixed(2)] for a size in bytes: the
    nearest multiple of 0.01, the larger one on a tie. *)
Definition toFixed2 (fileSize : Z) : string :=
  let hundredths := (200 * fileSize + 1048576) / 2097152 in
  digits_of_Z (hundredths / 100) ++ "." ++ two_digits (hundredths mod 100).

(** Numbers and booleans are sent as their text; arrays and objects are
    refused. *)
Definition driver_text (v : json) : option string :=
  match v with
  | JNumber n => Some (print_number n)
  | JBool true => Some "1"
  | JBool false => Some "0"
  | _ => None
  end.

(** A byte that continues a multi-byte character of UTF-8. *)
Definition is_continuation (c : ascii) : bool :=
  let n := code c in ((128 <=? n) && (n <? 192))%N.

(** The number of characters of a text. *)
Fixpoint characters (s : string) : Z :=
  match s with
  | String c r => (if is_continuation c then 0 else 1) + characters r
  | EmptyString => 0
  end.

(** By how much a text exceeds a column: a [varchar] counts characters,
    a [text] holds 65535 bytes. *)
Definition excess (c : Column.type) (v : string) : Z :=
  match c with
  | Column.varchar n => Z.max 0 (characters v - n)
  | Column.text => Z.max 0 (Z.of_nat (String.length v) - 65535)
  end.

Fixpoint all_blank (s : string) : bool :=
  match s with
  | String c r => (code c =? 32)%N && all_blank r
  | EmptyString => true
  end.

(** The engine, as MySQL in strict mode (the default [sql_mode]): a text
    that fits is kept; blanks beyond the width of the column are cut
    off; any other excess is refused. *)
Definition column_assign (c : Column.type) (v : string) : string + string :=
  let over := Z.to_nat (excess c v) in
  let fits := (String.length v - over)%nat in
  if (over =? 0)%nat then inl v
  else if all_blank (String.substring fits over v)
       then inl (String.substring 0 fits v)
       else inr "Data too long for column".

Definition runtime : Runtime := {|
  JSON_parse := parse;
  JSON_stringify := stringify;
  Number_toString := print_number;
  String_toNumber := toNumber;
  String_trim := trim;
  String_toLowerCase := map_chars lower;
  String_toUpperCase := map_chars upper;
  Date_toLocaleString := digits_of_Z;
  MiB_toFixed2 := toFixed2;
  Buffer_from_base64 := fun s => s;
  Driver_text := driver_text;
  Column_assign := column_assign
|}.

(** *** Vocabulary of the round trip *)

(** What may follow a value inside a document: nothing, a comma or a
    closing bracket. *)
Definition delimited (rest : string) : Prop :=
  match rest with
  | EmptyString => True
  | String c _ => code c = 44%N \/ code c = 93%N \/ code c = 125%N
  end.

(** The text does not go on with a digit. *)
Definition no_digit_ahead (rest : string) : Prop :=
  match rest with
  | EmptyString => True
  | String c _ => is_digit c = false
  end.

(** The items of an array as [stringify] writes them, closing bracket
    included. *)
Definition elements : list json -> string :=
  fix elements (l : list json) : string :=
    match l with
    | [] => "]"
    | [x] => stringify x ++ "]"
    | x :: rest => stringify x ++ "," ++ elements rest
    end.

(** The fields of an object as [stringify] writes them, closing brace
    included. *)
Definition members : list (string * json) -> string :=
  fix members (l : list (string * json)) : string :=
    match l with
    | [] => "}"
    | [(k, x)] => quote k ++ ":" ++ stringify x ++ "}"
    | (k, x) :: rest => quote k ++ ":" ++ stringify x ++ "," ++ members rest
    end.

(** The fuel [parse_value] needs to read a value back. *)
Fixpoint size (j : json) : nat :=
  match j with
  | JArray l =>
      S ((fix sizes (l : list json) : nat :=
            match l with
            | [] => O
            | x :: r => S (size x + sizes r)
            end) l)
  | JObject fs =>
      S ((fix sizes (l : list (string * json)) : nat :=
            match l with
            | [] => O
            | (_, x) :: r => S (size x + sizes r)
            end) fs)
  | _ => 1%nat
  end.

Definition sizes : list json -> nat :=
  fix sizes (l : list json) : nat :=
    match l with
    | [] => O
    | x :: r => S (size x + sizes r)
    end.

Definition field_sizes : list (string * json) -> nat :=
  fix sizes (l : list (string * json)) : nat :=
    match l with
    | [] => O
    | (_, x) :: r => S (size x + sizes r)
    end.

(** The characters a serialized value can start with. *)
Definition value_start (c : ascii) : bool :=
  is_digit c
  || (code c =? 45)%N || (code c =? 110)%N || (code c =? 116)%N
  || (code c =? 102)%N || (code c =? 34)%N || (code c =? 91)%N
  || (code c =? 123)%N.

(** With [fuel], the reader reads back every value, item list and field
    list that fits. *)
Definition reads_value (fuel : nat) : Prop :=
  forall j rest,
    (size j <= fuel)%nat -> delimited rest ->
    parse_value fuel (stringify j ++ rest) = Some (j, rest).

Definition reads_elements (fuel : nat) : Prop :=
  forall l rest,
    l <> [] -> (sizes l <= fuel)%nat ->
    parse_elements fuel (elements l ++ rest) = Some (l, rest).

Definition reads_members (fuel : nat) : Prop :=
  forall fs rest,
    fs <> [] -> (field_sizes fs <= fuel)%nat ->
    parse_members fuel (members fs ++ rest) = Some (fs, rest).

End Reference.

(* ================================================================== *)
(** ** Example runs *)
(* ================================================================== *)

(** Concrete collaborators and worlds, run on the reference runtime. *)
Module Example.

(** A JSON string literal. *)
Definition str (s : string) : string := Reference.quote s.

(** A well-formed structured summary. *)
Definition summary_reply : string :=
  "{" ++ str "summary" ++ ":" ++ str "Weekly sync" ++ ","
  ++ str "actionItems" ++ ":[" ++ str "Ana to send notes" ++ "],"
  ++ str "keyPoints" ++ ":[" ++ str "Budget approved" ++ "]}".

(** Prose instead of JSON. *)
Definition prose_reply : string := "Here is the summary you asked for.".

(** JSON whose [summary] is a number. *)
Definition number_reply : string := "{" ++ str "summary" ++ ":42}".

(** JSON whose action item is an object with its own [toString]. *)
Definition object_item_reply : string :=
  "{" ++ str "summary" ++ ":" ++ str "ok" ++ ","
  ++ str "actionItems" ++ ":[{" ++ str "toString" ++ ":1}]}".

(** The OCR reply for an image without text. *)
Definition empty_ocr_reply : string :=
  "{" ++ str "text" ++ ":" ++ str "" ++ ","
  ++ str "language" ++ ":" ++ str "unknown" ++ "}".

Definition answers (summary : string) (detect : reply) : Env :=
  {| respond := fun _ call =>
       match call with
       | CallDetect _ => detect
       | CallTranslate _ => Text "Hola equipo"
       | CallSummarize _ => Text summary
       | CallOCR _ => Text empty_ocr_reply
       | CallStoragePut key _ _ => Text ("https://blob.example/" ++ key)
       end;
     nanoid := fun _ => "V1StGXR8" |}.

Definition env : Env := answers summary_reply (Text " EN ").
Definition env_prose : Env := answers prose_reply (Text "en").
Definition env_detect_down : Env :=
  answers summary_reply (Failed "quota exceeded").
Definition env_number : Env := answers number_reply (Text "en").
Definition env_object_item : Env := answers object_item_reply (Text "en").

Definition fresh : World :=
  {| db := Some empty_database; trace := []; now := 1700000000 |}.

(** After user 7 created a meeting. *)
Definition created : World :=
  snd (handle (rt := Reference.runtime) env
              (ReqCreate 7 "Standup" "Hello team") fresh).

(** After that meeting was translated to Spanish. *)
Definition translated : World :=
  snd (handle (rt := Reference.runtime) env (ReqTranslate 1 "es") created).

(** A target language wider than the [targetLanguage] column, and one
    that is wider by a blank only. *)
Definition wide : string := "Portuguese (Brazil)".
Definition padded : string := "Portuguese ".

(** After the example meeting was translated twice for the padded
    language. *)
Definition duplicated : World :=
  snd (handle (rt := Reference.runtime) env (ReqTranslate 1 padded)
         (snd (handle (rt := Reference.runtime) env
                      (ReqTranslate 1 padded) created))).

(** Detection that answers with a sentence instead of a code. *)
Definition env_sentence : Env :=
  answers summary_reply (Text "The language is English.").

Fixpoint repeated (n : nat) (s : string) : string :=
  match n with
  | O => ""
  | S n => s ++ repeated n s
  end.

(** Prose of 66000 bytes, more than a [text] column holds. *)
Definition long_prose : string := repeated (60 * 100) "All is well".
Definition env_long_prose : Env := answers long_prose (Text "en").

End Example.

(* ================================================================== *)
(** ** Vocabulary of the properties *)
(* ================================================================== *)

(** The world after further remote calls. *)
Definition logged (w : World) (calls : list RemoteCall) : World :=
  {| db := db w; trace := trace w ++ calls; now := now w |}.

(** The world with the database replaced. *)
Definition stored (w : World) (d : Database) : World :=
  {| db := Some d; trace := trace w; now := now w |}.

(** The column holds the text as it was given. *)
Definition kept {rt : Runtime} (c : Column.type) (v : string) : Prop :=
  Column_keeps c v = Ok v.

Definition kept_nullable {rt : Runtime} (c : Column.type)
           (v : option string) : Prop :=
  forall s, v = Some s -> kept c s.

(** The column does not alter the text: it holds the text as given, or
    the engine refuses the statement. *)
Definition unaltered {rt : Runtime} (c : Column.type) (v : string) : Prop :=
  forall held, Column_keeps c v = Ok held -> held = v.

(** The cache key of a stored translation. *)
Definition translation_key (r : Translation.row) : Z * string :=
  (Translation.meetingId r, Translation.targetLanguage r).

Definition unique_keys (d : Database) : Prop :=
  NoDup (map translation_key (translations d)).

(** Every translation belongs to a stored meeting. *)
Definition owned (d : Database) : Prop :=
  forall r, In r (translations d) ->
            exists m, In m (meetings d)
                      /\ Meeting.id m = Translation.meetingId r.

(** Identifiers handed out so far lie below the counters. *)
Definition ids_below_auto (d : Database) : Prop :=
  (forall m, In m (meetings d) -> Meeting.id m < meetings_auto d)
  /\ (forall r, In r (translations d) ->
                Translation.id r < translations_auto d).

(** What holds of the tables whatever the engine does to the texts. *)
Definition table_invariant (d : Database) : Prop :=
  owned d /\ ids_below_auto d.

(** Meeting [id] is gone for good: no row refers to it and its
    identifier will not be handed out again. *)
Definition gone (id : Z) (d : Database) : Prop :=
  id < meetings_auto d
  /\ (forall m, In m (meetings d) -> Meeting.id m <> id)
  /\ (forall r, In r (translations d) -> Translation.meetingId r <> id).

(** The row [createMeeting] appends when the columns hold the values as
    given. *)
Definition meeting_row (d : Database) (t : Z) (user : Z) (title : string)
           (content : string) (lang image key : option string)
  : Meeting.row :=
  {| Meeting.id := meetings_auto d;
     Meeting.userId := user;
     Meeting.title := title;
     Meeting.originalContent := content;
     Meeting.detectedLanguage := lang;
     Meeting.imageUrl := image;
     Meeting.imageKey := key;
     Meeting.createdAt := t;
     Meeting.updatedAt := t |}.

(** The values [meetings.create] inserts. *)
Definition create_values (user : Z) (title content lang : string)
  : InsertMeeting :=
  {| im_userId := user;
     im_title := title;
     im_originalContent := JString content;
     im_detectedLanguage := Some (JString lang);
     im_imageUrl := None;
     im_imageKey := None |}.

Definition with_meeting (d : Database) (r : Meeting.row) : Database :=
  {| meetings := meetings d ++ [r];
     translations := translations d;
     meetings_auto := meetings_auto d + 1;
     translations_auto := translations_auto d |}.

Definition with_translation (d : Database) (r : Translation.row)
  : Database :=
  {| meetings := meetings d;
     translations := translations d ++ [r];
     meetings_auto := meetings_auto d;
     translations_auto := translations_auto d + 1 |}.

Definition without_meeting (d : Database) (id : Z) : Database :=
  {| meetings := filter (fun r => negb (Meeting.id r =? id)) (meetings d);
     translations :=
       filter (fun r => negb (Translation.meetingId r =? id))
              (translations d);
     meetings_auto := meetings_auto d;
     translations_auto := translations_auto d |}.

(** How one request can change the database.  With [fresh] set, an
    inserted translation has a key that no stored translation had. *)
Inductive db_step (fresh : bool)
  : option Database -> option Database -> Prop :=
| step_none o : db_step fresh o o
| step_meeting d r :
    Meeting.id r = meetings_auto d ->
    db_step fresh (Some d) (Some (with_meeting d r))
| step_translation d r m :
    In m (meetings d) ->
    Meeting.id m = Translation.meetingId r ->
    Translation.id r = translations_auto d ->
    (fresh = true ->
     find (translation_matches (Translation.meetingId r)
                               (Translation.targetLanguage r))
          (translations d) = None) ->
    db_step fresh (Some d) (Some (with_translation d r))
| step_delete d id :
    db_step fresh (Some d) (Some (without_meeting d id)).

(** A [translate] request whose target language the [targetLanguage]
    column ([varchar(10)]) does not alter; any other request. *)
Definition language_unaltered {rt : Runtime} (req : Request) : Prop :=
  match req with
  | ReqTranslate _ L => unaltered (Column.varchar 10) L
  | _ => True
  end.

(** [served env allowed w w']: requests that are all [allowed], served
    one after the other, lead from [w] to [w']. *)
Inductive served {rt : Runtime} (env : Env) (allowed : Request -> Prop)
          (w : World) : World -> Prop :=
| served_refl : served env allowed w w
| served_request w1 req :
    served env allowed w w1 -> allowed req ->
    served env allowed w (snd (handle env req w1))
| served_tick w1 t :
    served env allowed w w1 -> now w1 <= t ->
    served env allowed w {| db := db w1; trace := trace w1; now := t |}.

Definition reachable_by {rt : Runtime} (env : Env)
           (allowed : Request -> Prop) (w : World) : Prop :=
  exists w0, initial w0 /\ served env allowed w0 w.

Definition is_string (v : json) : bool :=
  match v with
  | JString _ => true
  | _ => false
  end.

(** The columns of [translations] do not alter the fields of a result of
    [translate]. *)
Definition unaltered_translation {rt : Runtime} (t : TranslateResult)
  : Prop :=
  unaltered (Column.varchar 10) (tr_targetLanguage t)
  /\ unaltered Column.text (tr_translatedContent t)
  /\ (forall s, tr_summary t = JString s -> unaltered Column.text s)
  /\ (forall a, tr_actionItems t = Some a -> unaltered Column.text a).

(** The same identity and content.  [createdAt] is left aside: the
    object [translate] returns after a miss has none. *)
Definition same_translation (a b : TranslateResult) : Prop :=
  tr_id a = tr_id b
  /\ tr_meetingId a = tr_meetingId b
  /\ tr_targetLanguage a = tr_targetLanguage b
  /\ tr_translatedContent a = tr_translatedContent b
  /\ tr_summary a = tr_summary b
  /\ tr_actionItems a = tr_actionItems b.

Definition lookup_translation (o : option Database) (M : Z) (L : string)
  : option Translation.row :=
  match o with
  | Some d => find (translation_matches M L) (translations d)
  | None => None
  end.

Definition lookup_meeting (o : option Database) (M : Z)
  : option Meeting.row :=
  match o with
  | Some d => find (fun r => Meeting.id r =? M) (meetings d)
  | None => None
  end.

(** The two messages of [validateImageForOCR]. *)
Definition too_large {rt : Runtime} (fileSize : Z) : string :=
  "Image too large. Maximum size is 16MB, got "
  ++ MiB_toFixed2 fileSize ++ "MB".

Definition unsupported (mimeType : string) : string :=
  "Unsupported image format: " ++ mimeType
  ++ ". Supported formats: JPEG, PNG, WebP, GIF".

(** The storage key and the upload of [createFromImage], for a request
    that arrives in world [w]. *)
Definition image_key {rt : Runtime} (env : Env) (user : Z)
           (mimeType : string) (w : World) : string :=
  "meetings/" ++ Number_toString (Dec user 0) ++ "/"
  ++ nanoid env (length (trace w)) ++ "." ++ second_or "/"%char mimeType "jpg".

Definition image_put {rt : Runtime} (env : Env) (user : Z)
           (imageData mimeType : string) (w : World) : RemoteCall :=
  CallStoragePut (image_key env user mimeType w)
                 (Buffer_from_base64 (second_or ","%char imageData imageData))
                 mimeType.

(** The two remote calls of a cache miss. *)
Definition translate_call (m : Meeting.row) (L : string) : RemoteCall :=
  CallTranslate
    (translate_prompt (Meeting.originalContent m) L
       (text_or_undefined (Meeting.detectedLanguage m))).

Definition summarize_call (content : string) : RemoteCall :=
  CallSummarize (summarize_prompt content).

(** The values [translate] inserts after a miss, for the translated
    content and the summary of the two replies. *)
Definition translation_values {rt : Runtime} (M : Z) (L content : string)
           (summary : MeetingSummary) : InsertTranslation :=
  {| it_meetingId := M;
     it_targetLanguage := L;
     it_translatedContent := content;
     it_summary := ms_summary summary;
     it_actionItems := JSON_stringify (json_of_summary summary) |}.

(** The object [translate] returns after a miss. *)
Definition translation_result {rt : Runtime} (id M : Z) (L content : string)
           (summary : MeetingSummary) : TranslateResult :=
  {| tr_id := id;
     tr_meetingId := M;
     tr_targetLanguage := L;
     tr_translatedContent := content;
     tr_summary := ms_summary summary;
     tr_actionItems := Some (JSON_stringify (json_of_summary summary));
     tr_createdAt := None |}.

(** The cases of one run of [translate]. *)
Inductive translate_case {rt : Runtime} (env : Env)
          (M : Z) (L : string) (w : World)
  : outcome TranslateResult * World -> Prop :=
| translate_hit d row :
    db w = Some d ->
    find (translation_matches M L) (translations d) = Some row ->
    translate_case env M L w (Ok (result_of_row row), w)
| translate_no_database :
    db w = None ->
    translate_case env M L w (Throw (Error "Meeting not found"), w)
| translate_no_meeting d :
    db w = Some d ->
    find (translation_matches M L) (translations d) = None ->
    find (fun r => Meeting.id r =? M) (meetings d) = None ->
    translate_case env M L w (Throw (Error "Meeting not found"), w)
| translate_remote_failed d m msg :
    db w = Some d ->
    find (translation_matches M L) (translations d) = None ->
    find (fun r => Meeting.id r =? M) (meetings d) = Some m ->
    respond env (length (trace w)) (translate_call m L) = Failed msg ->
    translate_case env M L w
      (Throw (Error msg),
       logged w [translate_call m L])
| translate_summarize_failed d m content msg :
    db w = Some d ->
    find (translation_matches M L) (translations d) = None ->
    find (fun r => Meeting.id r =? M) (meetings d) = Some m ->
    respond env (length (trace w)) (translate_call m L) = Text content ->
    respond env (S (length (trace w))) (summarize_call content)
    = Failed msg ->
    translate_case env M L w
      (Throw (Error msg),
       logged w [translate_call m L; summarize_call content])
| translate_insert_failed d m content text e :
    db w = Some d ->
    find (translation_matches M L) (translations d) = None ->
    find (fun r => Meeting.id r =? M) (meetings d) = Some m ->
    respond env (length (trace w)) (translate_call m L) = Text content ->
    respond env (S (length (trace w))) (summarize_call content)
    = Text text ->
    stored_translation d (now w)
      (translation_values M L content (summary_of_text text)) = Throw e ->
    translate_case env M L w
      (Throw e,
       logged w [translate_call m L; summarize_call content])
| translate_miss d m content text row :
    db w = Some d ->
    find (translation_matches M L) (translations d) = None ->
    find (fun r => Meeting.id r =? M) (meetings d) = Some m ->
    respond env (length (trace w)) (translate_call m L) = Text content ->
    respond env (S (length (trace w))) (summarize_call content)
    = Text text ->
    stored_translation d (now w)
      (translation_values M L content (summary_of_text text)) = Ok row ->
    translate_case env M L w
      (Ok (translation_result (translations_auto d) M L content
                              (summary_of_text text)),
       stored
         (logged w [translate_call m L; summarize_call content])
         (with_translation d row)).

Definition gone_in (id : Z) (o : option Database) : Prop :=
  forall d, o = Some d -> gone id d.


(** [ToString] of the value does not throw. *)
Definition printable {rt : Runtime} (v : json) : Prop :=
  exists s, ToString Number_toString v = Ok s.

(** The property holds a list of values that convert to text. *)
Definition texts {rt : Runtime} (v : option json) : Prop :=
  exists l, v = Some (JArray l) /\ Forall printable l.


(* ================================================================== *)
(** ** The rest of server/db.ts: listings *)
(* ================================================================== *)

(** [orderBy(desc(key))] as an insertion into rows already in descending
    order.  Rows with equal keys stay in table order; the engine is free
    to order them otherwise, and no property below depends on it. *)
Fixpoint insert_desc {A} (key : A -> Z) (x : A) (l : list A) : list A :=
  match l with
  | [] => [x]
  | y :: r => if key y <=? key x then x :: y :: r
              else y :: insert_desc key x r
  end.

Definition order_desc {A} (key : A -> Z) (l : list A) : list A :=
  fold_right (insert_desc key) [] l.

(** [select().from(meetings).where(eq(meetings.userId, userId))
       .orderBy(desc(meetings.createdAt))] *)
Definition getUserMeetings (userId : Z) : M (list Meeting.row) :=
  d <- getDb ;;
  match d with
  | None => ret []
  | Some d =>
      ret (order_desc Meeting.createdAt
             (filter (fun r => Meeting.userId r =? userId) (meetings d)))
  end.

(** [select().from(translations)
       .where(eq(translations.meetingId, meetingId))
       .orderBy(desc(translations.createdAt))] *)
Definition getMeetingTranslations (meetingId : Z)
  : M (list Translation.row) :=
  d <- getDb ;;
  match d with
  | None => ret []
  | Some d =>
      ret (order_desc Translation.createdAt
             (filter (fun r => Translation.meetingId r =? meetingId)
                     (translations d)))
  end.

(** The procedure of the [meetings] router that [handle] does not
    dispatch. *)
Module meetings_queries.

(** [meetings.list]; [user] is [ctx.user.id]. *)
Definition list (user : Z) : M (list Meeting.row) := getUserMeetings user.

End meetings_queries.

(** Rows in descending order of [key]. *)
Definition newest_first {A} (key : A -> Z) : list A -> Prop :=
  StronglySorted (fun a b => key b <= key a).

(** The meetings of a user, in table order. *)
Definition meetings_of (o : option Database) (user : Z) : list Meeting.row :=
  match o with
  | Some d => filter (fun r => Meeting.userId r =? user) (meetings d)
  | None => []
  end.

(** The row holds in [actionItems] what the column kept of the text
    [translate] serialized: the summary of a reply of the summarization
    provider. *)
Definition written_by_translate {rt : Runtime} (row : Translation.row)
  : Prop :=
  exists text a,
    Translation.actionItems row = Some a
    /\ Column_keeps Column.text
         (JSON_stringify (json_of_summary (summary_of_text text))) = Ok a.

(** The translations of a meeting, in table order. *)
Definition translations_of (o : option Database) (meetingId : Z)
  : list Translation.row :=
  match o with
  | Some d => filter (fun r => Translation.meetingId r =? meetingId)
                     (translations d)
  | None => []
  end.

(** Identifiers are pairwise distinct within each table. *)
Definition distinct_ids (d : Database) : Prop :=
  NoDup (map Meeting.id (meetings d))
  /\ NoDup (map Translation.id (translations d)).

(* ================================================================== *)
(** ** The rest of server/db.ts: the [users] table *)
(* ================================================================== *)

(** The [role] column, [mysqlEnum("role", ["user", "admin"])]. *)
Inductive Role : Type :=
| role_user
| role_admin.

(** A row of the [users] table. *)
Module User.
Record row : Type := {
  id : Z;
  openId : string;
  name : option string;
  email : option string;
  loginMethod : option string;
  role : Role;
  createdAt : Z;
  updatedAt : Z;
  lastSignedIn : Z
}.
End User.







Section Users.

Context {rt : Runtime}.

(** [ENV.ownerOpenId], from server/_core/env. *)
Variable ownerOpenId : string.

(** Whether the engine advances the auto-increment counter when
    [INSERT ... ON DUPLICATE KEY UPDATE] takes the update path. *)
Variable update_advances_counter : bool.

















End Users.




(* ================================================================== *)
(** ** The rest of server/ocr.ts *)
(* ================================================================== *)

Section ExtractText.

Context {rt : Runtime}.

(** The awaited [generateText] call of [extractTextFromImage], given the
    image URL: the prompt is fixed, the collaborator is any. *)
Variable generateText : string -> M string.

(** What the [try] block returns for the reply text. *)
Definition text_result (text : string) : OCRResult :=
  if ((String_trim text =? "NO_TEXT_FOUND")
      || (String_trim text =? ""))%string
  then {| extractedText := JString "";
          ocr_detectedLanguage := None;
          confidence := Dec 0 0 |}
  else {| extractedText := JString (String_trim text);
          ocr_detectedLanguage := None;
          confidence := Dec 1 0 |}.

(** [extractTextFromImage] *)
Definition extractTextFromImage (imageUrl : string) : M OCRResult :=
  try_catch
    (text <- generateText imageUrl ;;
     ret (text_result text))
    (fun e =>
       throw (Error ("Failed to extract text from image: "
                     ++ exn_message e))).

End ExtractText.

(* ================================================================== *)
(** ** The form that sends the two create requests
       (client/src/pages/NewMeeting.tsx) *)
(* ================================================================== *)

Module NewMeeting.

(** The [File] the browser hands to the page. *)
Record File : Type := {
  size : Z;
  type : string
}.

(** What a handler of the form ends with: an error toast, or the
    mutation it sends. *)
Inductive Submission : Type :=
| Toast (message : string)
| Mutate (request : Request).

Definition validTypes : list string :=
  ["image/jpeg"; "image/jpg"; "image/png"; "image/webp"; "image/gif"].

(** [handleImageChange] for a chosen file: the error toast, or [None]
    when the file is kept ([setImageFile(file)]). *)
Definition handleImageChange (file : File) : option string :=
  let maxSize := 16 * 1024 * 1024 in
  if maxSize <? size file then
    Some "Image too large. Maximum size is 16MB"
  else if negb (includes validTypes (type file)) then
    Some "Invalid file type. Supported formats: JPEG, PNG, WebP, GIF"
  else None.

Section Forms.

Context {rt : Runtime}.

(** The signed-in user, whom the server reads from the session. *)
Variable user : Z.

(** [handleTextSubmit] *)
Definition handleTextSubmit (title content : string) : Submission :=
  if ((String_trim title =? "") || (String_trim content =? ""))%string
  then Toast "Please fill in all fields"
  else Mutate (ReqCreate user title content).

(** [handleImageSubmit]; [imageFile] is the file kept by
    [handleImageChange] and [base64Data] what [readAsDataURL] gives for
    it. *)
Definition handleImageSubmit (title : string) (imageFile : option File)
           (base64Data : string) : Submission :=
  match imageFile with
  | Some file =>
      if (String_trim title =? "")%string
      then Toast "Please provide a title and select an image"
      else Mutate (ReqCreateFromImage user title base64Data
                                      (type file) (size file))
  | None => Toast "Please provide a title and select an image"
  end.

End Forms.

End NewMeeting.

(** No character of [s] is [c]. *)
Fixpoint free_of (c : ascii) (s : string) : bool :=
  match s with
  | EmptyString => true
  | String x r => negb (Ascii.eqb x c) && free_of c r
  end.

(** The lines of an optional section of the export, for texts. *)
Definition section_lines (heading : string) (lines : list string)
  : list string :=
  match lines with
  | [] => []
  | _ => (heading :: lines ++ [""])%list
  end.

(** The items of a list, each with the index [forEach] passes. *)
Definition indexed (line : nat -> string -> string) (items : list string)
  : list string :=
  map (fun p => line (fst p) (snd p))
      (combine (seq 0 (length items)) items).

(** A summary as the interface [MeetingSummary] declares it. *)
Definition typed_summary (summary : string)
           (actionItems keyPoints : list string)
           (participants decisions : option (list string))
  : MeetingSummary :=
  {| ms_summary := JString summary;
     ms_actionItems := map JString actionItems;
     ms_keyPoints := map JString keyPoints;
     ms_participants := option_map (map JString) participants;
     ms_decisions := option_map (map JString) decisions |}.

Definition texts_or_none (o : option (list string)) : list string :=
  match o with
  | Some l => l
  | None => []
  end.

(* ================================================================== *)
(** ** server/translation-ollama.reference.ts *)
(* ================================================================== *)

(** The replacement for server/translation.ts that routes between a
    local model served by Ollama and the Gemini API.  Its calls to
    [console.log] and [console.error] are left out. *)
Module OllamaReference.

(** One call to a provider: [client.generate] of the Ollama client with
    the options of the call site, or [generateText] on the Gemini model
    with its [system] and [prompt]. *)
Inductive Call : Type :=
| OllamaTranslate (model prompt : string)
| OllamaDetect (model prompt : string)
| GeminiTranslate (system prompt : string)
| GeminiDetect (system prompt : string).

(** The providers: the answer to the [n]-th call of a run. *)
Record Providers : Type := {
  answer : nat -> Call -> reply
}.

(** A computation that may throw, threading the calls made so far. *)
Definition R (A : Type) : Type := list Call -> outcome A * list Call.

Definition pure {A} (a : A) : R A := fun calls => (Ok a, calls).

Definition raise {A} (e : exn) : R A := fun calls => (Throw e, calls).

Definition and_then {A B} (c : R A) (k : A -> R B) : R B :=
  fun calls => match c calls with
               | (Ok a, calls') => k a calls'
               | (Throw e, calls') => (Throw e, calls')
               end.

(** [try c catch (error) h] *)
Definition catch {A} (c : R A) (h : exn -> R A) : R A :=
  fun calls => match c calls with
               | (Ok a, calls') => (Ok a, calls')
               | (Throw e, calls') => h e calls'
               end.

(** An awaited call to a provider. *)
Definition await (providers : Providers) (c : Call) : R string :=
  fun calls =>
    match answer providers (length calls) c with
    | Text t => (Ok t, (calls ++ [c])%list)
    | Failed msg => (Throw (Error msg), (calls ++ [c])%list)
    end.

Definition quoted (s : string) : string :=
  String (ascii_of_nat 34) (s ++ String (ascii_of_nat 34) "").

Definition LANGUAGE_NAMES : list (string * string) :=
  [("en", "English"); ("zh", "Chinese"); ("ja", "Japanese");
   ("ko", "Korean"); ("es", "Spanish"); ("fr", "French");
   ("de", "German"); ("pt", "Portuguese"); ("ru", "Russian");
   ("ar", "Arabic"); ("hi", "Hindi"); ("it", "Italian");
   ("nl", "Dutch"); ("pl", "Polish"); ("tr", "Turkish");
   ("vi", "Vietnamese"); ("th", "Thai"); ("id", "Indonesian");
   ("he", "Hebrew"); ("el", "Greek")].

(** What [getLanguageName] returns.  [LANGUAGE_NAMES] is an object
    literal, so the keys "constructor" and "__proto__" (the two property
    names of [Object.prototype] that a lower-cased key can equal) answer
    with the inherited value, which is truthy and not a string. *)
Inductive LanguageName : Type :=
| Named (name : string)
| ObjectConstructor
| ObjectPrototype.

(** The text a template literal gives for the value. *)
Definition shown (n : LanguageName) : string :=
  match n with
  | Named name => name
  | ObjectConstructor => "function Object() { [native code] }"
  | ObjectPrototype => "[object Object]"
  end.

(** [LANGUAGE_NAMES[key]] for an own key. *)
Fixpoint own_name (table : list (string * string)) (key : string)
  : option string :=
  match table with
  | [] => None
  | (k, v) :: rest => if (k =? key)%string then Some v else own_name rest key
  end.

(** [/^[a-z]{2}$/.test(s)] *)
Definition lower_letter (c : ascii) : bool :=
  ((97 <=? N_of_ascii c) && (N_of_ascii c <=? 122))%N.

Definition is_language_code (s : string) : bool :=
  match s with
  | String a (String b EmptyString) => lower_letter a && lower_letter b
  | _ => false
  end.

(** One request of [batchTranslate]. *)
Record Item : Type := {
  content : string;
  targetLanguage : string;
  sourceLanguage : option string
}.

Section Reference.

Context {rt : Runtime}.

(** [String.prototype.substring(start, end)] *)
Variable String_substring : string -> nat -> nat -> string.

(** The constants read from the environment when the module loads. *)
Variable TRANSLATION_MODE : string.
Variable ENABLE_CLOUD_FALLBACK : bool.
Variable OLLAMA_MODEL : string.

Variable providers : Providers.

(** Whether the module variable [ollamaClient] holds a client when the
    function is called. *)
Variable ollamaClient : bool.

(** What [new Ollama({ host: OLLAMA_HOST })] ends with.  [Ollama] is the
    default export of the package: where that export is not a class,
    the expression throws. *)
Variable new_Ollama : outcome unit.

(** [getOllamaClient]: the client of the module variable, made first
    when there is none.  Each function below calls it once, so the
    assignment to the module variable is not followed further. *)
Definition getOllamaClient : R unit :=
  fun calls => (if ollamaClient then Ok tt else new_Ollama, calls).

(** [getLanguageName] *)
Definition getLanguageName (code : string) : LanguageName :=
  let key := String_toLowerCase code in
  match own_name LANGUAGE_NAMES key with
  | Some name => Named name
  | None =>
      if (key =? "constructor")%string then ObjectConstructor
      else if (key =? "__proto__")%string then ObjectPrototype
      else Named (String_toUpperCase code)
  end.

(** [sourceLanguage ? getLanguageName(sourceLanguage) : fallback] *)
Definition source_name (sourceLanguage : option string) (fallback : string)
  : string :=
  match sourceLanguage with
  | Some l => if (l =? "")%string then fallback else shown (getLanguageName l)
  | None => fallback
  end.

Definition ollama_translate_prompt (content targetLanguage : string)
           (sourceLanguage : option string) : string :=
  "Translate the following text from "
  ++ source_name sourceLanguage "the source language" ++ " to "
  ++ shown (getLanguageName targetLanguage) ++ "." ++ LF
  ++ LF
  ++ "Instructions:" ++ LF
  ++ "- Maintain the original formatting (line breaks, bullet points, "
  ++ "numbering)" ++ LF
  ++ "- Preserve technical terms and proper nouns when appropriate" ++ LF
  ++ "- Keep the tone and style consistent with the source text" ++ LF
  ++ "- Do not add explanations or notes, only provide the translation"
  ++ LF
  ++ LF
  ++ "Text to translate:" ++ LF
  ++ LF
  ++ content ++ LF
  ++ LF
  ++ "Translation:".

(** [translateWithOllama]; the client is made before the [try]
    block. *)
Definition translateWithOllama (content targetLanguage : string)
           (sourceLanguage : option string) : R string :=
  and_then getOllamaClient (fun _ =>
  let prompt :=
    ollama_translate_prompt content targetLanguage sourceLanguage in
  catch
    (and_then (await providers (OllamaTranslate OLLAMA_MODEL prompt))
       (fun response =>
          let translatedText := String_trim response in
          if (translatedText =? "")%string then
            raise (Error "TranslateGemma returned empty translation")
          else pure translatedText))
    (fun error =>
       raise (Error ("Ollama translation failed: " ++ exn_message error)))).

Definition gemini_translate_system (targetLanguage : string)
           (sourceLanguage : option string) : string :=
  "You are a professional translator. Translate the provided text from "
  ++ source_name sourceLanguage "the detected language" ++ " to "
  ++ shown (getLanguageName targetLanguage)
  ++ ". Maintain the original formatting, tone, and structure. "
  ++ "Do not add explanations.".

(** [translateWithGemini] *)
Definition translateWithGemini (content targetLanguage : string)
           (sourceLanguage : option string) : R string :=
  catch
    (await providers
       (GeminiTranslate
          (gemini_translate_system targetLanguage sourceLanguage) content))
    (fun error =>
       raise (Error ("Cloud translation failed: " ++ exn_message error))).

(** [!s || s.trim().length === 0] *)
Definition blank (s : string) : bool :=
  ((s =? "") || (String_trim s =? ""))%string.

(** [translateMeetingNotes] *)
Definition translateMeetingNotes (content targetLanguage : string)
           (sourceLanguage : option string) : R string :=
  if blank content then
    raise (Error "Translation content cannot be empty")
  else if blank targetLanguage then
    raise (Error "Target language must be specified")
  else if (TRANSLATION_MODE =? "local")%string then
    catch
      (translateWithOllama content targetLanguage sourceLanguage)
      (fun error =>
         if ENABLE_CLOUD_FALLBACK then
           translateWithGemini content targetLanguage sourceLanguage
         else
           raise (Error ("Local translation failed: "
                         ++ exn_message error)))
  else translateWithGemini content targetLanguage sourceLanguage.

Definition ollama_detect_prompt (sample : string) : string :=
  "Identify the language of the following text and respond with ONLY "
  ++ "the ISO 639-1 language code (e.g., " ++ quoted "en"
  ++ " for English, " ++ quoted "zh" ++ " for Chinese, " ++ quoted "ja"
  ++ " for Japanese)." ++ LF
  ++ LF
  ++ "Do not provide any explanation, only the two-letter code." ++ LF
  ++ LF
  ++ "Text:" ++ LF
  ++ sample ++ LF
  ++ LF
  ++ "Language code:".

(** [text.trim().toLowerCase().substring(0, 2)] *)
Definition code_of_reply (text : string) : string :=
  String_substring (String_toLowerCase (String_trim text)) 0 2.

(** [detectLanguageWithOllama]; the client is made before the [try]
    block. *)
Definition detectLanguageWithOllama (sample : string) : R string :=
  and_then getOllamaClient (fun _ =>
  catch
    (and_then
       (await providers
          (OllamaDetect OLLAMA_MODEL (ollama_detect_prompt sample)))
       (fun response =>
          let languageCode := code_of_reply response in
          if negb (is_language_code languageCode) then
            raise (Error ("Invalid language code detected: "
                          ++ languageCode))
          else pure languageCode))
    (fun error =>
       raise (Error ("Language detection failed: " ++ exn_message error)))).

Definition gemini_detect_system : string :=
  "Detect the language of the provided text and respond with ONLY the "
  ++ "ISO 639-1 language code (e.g., " ++ quoted "en" ++ ", "
  ++ quoted "zh" ++ ", " ++ quoted "ja" ++ "). No explanation.".

(** [detectLanguageWithGemini] *)
Definition detectLanguageWithGemini (sample : string) : R string :=
  catch
    (and_then
       (await providers (GeminiDetect gemini_detect_system sample))
       (fun text =>
          let languageCode := code_of_reply text in
          if negb (is_language_code languageCode) then
            raise (Error ("Invalid language code from Gemini: "
                          ++ languageCode))
          else pure languageCode))
    (fun error =>
       raise (Error ("Language detection failed: " ++ exn_message error))).

(** [detectMeetingLanguage] *)
Definition detectMeetingLanguage (content : string) : R string :=
  if blank content then
    raise (Error "Cannot detect language of empty content")
  else
    let sample := String_substring content 0 500 in
    if (TRANSLATION_MODE =? "local")%string then
      catch
        (detectLanguageWithOllama sample)
        (fun error =>
           if ENABLE_CLOUD_FALLBACK then detectLanguageWithGemini sample
           else raise error)
    else detectLanguageWithGemini sample.

End Reference.

Section Batch.

(** What the promise [translateMeetingNotes] returns for an item settles
    with.  The order in which the calls of one batch reach the providers
    is not part of the model. *)
Variable settled : Item -> outcome string.

(** Of the rejections of one batch, the one that comes first in time. *)
Variable first_rejection : exn -> list exn -> exn.

(** [Promise.all] of one batch. *)
Fixpoint Promise_all (batch : list (outcome string))
  : list string * list exn :=
  match batch with
  | [] => ([], [])
  | Ok text :: rest =>
      let (texts, errors) := Promise_all rest in (text :: texts, errors)
  | Throw e :: rest =>
      let (texts, errors) := Promise_all rest in (texts, e :: errors)
  end.

(** [queue.splice(0, concurrency)] for an integer [concurrency]: the
    number of elements removed. *)
Definition spliced (concurrency : Z) (queue : list Item) : nat :=
  Z.to_nat (Z.min (Z.max concurrency 0) (Z.of_nat (length queue))).

(** The loop of [batchTranslate], with [results] and [queue] as they are
    at the loop test; [None] when the loop has not ended after [fuel]
    rounds. *)
Fixpoint batch_loop (fuel : nat) (concurrency : Z)
         (results : list string) (queue : list Item)
  : option (outcome (list string)) :=
  match queue with
  | [] => Some (Ok results)
  | _ :: _ =>
      match fuel with
      | O => None
      | S fuel =>
          let n := spliced concurrency queue in
          match Promise_all (map settled (firstn n queue)) with
          | (texts, []) =>
              batch_loop fuel concurrency (results ++ texts)%list
                         (skipn n queue)
          | (_, e :: errors) => Some (Throw (first_rejection e errors))
          end
      end
  end.

(** [batchTranslate], called with a [concurrency] (the default of the
    parameter is 3). *)
Definition batchTranslate (fuel : nat) (items : list Item)
           (concurrency : Z) : option (outcome (list string)) :=
  batch_loop fuel concurrency [] items.

End Batch.

End OllamaReference.

(* ================================================================== *)
(** ** Further example runs *)
(* ================================================================== *)

(** More collaborators, worlds and tables, run on the reference
    runtime. *)
Module Cases.
Import Example.

(** The OCR reply for a photographed agenda. *)
Definition whiteboard_reply : string :=
  "{" ++ str "text" ++ ":" ++ str "Agenda: budget" ++ ","
  ++ str "language" ++ ":" ++ str "en" ++ "}".

(** Collaborators that read the agenda off every image. *)
Definition env_whiteboard : Env :=
  {| respond := fun n call =>
       match call with
       | CallOCR _ => Text whiteboard_reply
       | _ => respond env n call
       end;
     nanoid := nanoid env |}.

(** Collaborators whose OCR is out of quota. *)
Definition env_ocr_down : Env :=
  {| respond := fun n call =>
       match call with
       | CallOCR _ => Failed "vision quota exceeded"
       | _ => respond env n call
       end;
     nanoid := nanoid env |}.

(** Collaborators whose OCR answers in prose. *)
Definition env_prose_ocr : Env :=
  {| respond := fun n call =>
       match call with
       | CallOCR _ => Text " Agenda: budget "
       | _ => respond env n call
       end;
     nanoid := nanoid env |}.

(** Collaborators whose summarization reply is the JSON number 42. *)
Definition env_bare_number : Env := answers "42" (Text "en").

(** A server without [DATABASE_URL]. *)
Definition offline : World :=
  {| db := None; trace := []; now := 1700000000 |}.

(** After user 8 created a second meeting. *)
Definition two_meetings : World :=
  snd (handle (rt := Reference.runtime) env
              (ReqCreate 8 "Retro" "Bonjour") translated).

(** A table holding a translation whose [actionItems] column is
    [NULL]: a row that came from elsewhere than [translate]. *)
Definition imported : World :=
  {| db := Some
       {| meetings :=
            [{| Meeting.id := 1;
                Meeting.userId := 7;
                Meeting.title := "Standup";
                Meeting.originalContent := "Hello team";
                Meeting.detectedLanguage := Some "en";
                Meeting.imageUrl := None;
                Meeting.imageKey := None;
                Meeting.createdAt := 1700000000;
                Meeting.updatedAt := 1700000000 |}];
          translations :=
            [{| Translation.id := 1;
                Translation.meetingId := 1;
                Translation.targetLanguage := "es";
                Translation.translatedContent := "Hola equipo";
                Translation.summary := None;
                Translation.actionItems := None;
                Translation.createdAt := 1700000000 |}];
          meetings_auto := 2;
          translations_auto := 2 |};
     trace := [];
     now := 1700000100 |}.

(** The values [translate] would insert for the example meeting. *)
Definition spanish : InsertTranslation :=
  {| it_meetingId := 1;
     it_targetLanguage := "es";
     it_translatedContent := "Hola equipo";
     it_summary := JString "Weekly sync";
     it_actionItems := "{}" |}.





(** [substring] on texts without characters outside ASCII. *)
Definition substring (s : string) (start stop : nat) : string :=
  String.substring start (stop - start) s.

(** Providers whose local model is unreachable. *)
Definition local_down : OllamaReference.Providers :=
  {| OllamaReference.answer := fun _ call =>
       match call with
       | OllamaReference.OllamaTranslate _ _ => Failed "connection refused"
       | OllamaReference.OllamaDetect _ _ => Failed "connection refused"
       | OllamaReference.GeminiTranslate _ _ => Text "Bonjour"
       | OllamaReference.GeminiDetect _ _ => Text " EN "
       end |}.

(** Providers whose local model answers. *)
Definition local_up : OllamaReference.Providers :=
  {| OllamaReference.answer := fun _ call =>
       match call with
       | OllamaReference.OllamaTranslate _ _ => Text " Bonjour "
       | OllamaReference.OllamaDetect _ _ => Text "en"
       | OllamaReference.GeminiTranslate _ _ => Text "Salut"
       | OllamaReference.GeminiDetect _ _ => Text "en"
       end |}.

Definition greetings : list OllamaReference.Item :=
  [{| OllamaReference.content := "Hello";
      OllamaReference.targetLanguage := "fr";
      OllamaReference.sourceLanguage := None |};
   {| OllamaReference.content := "World";
      OllamaReference.targetLanguage := "fr";
      OllamaReference.sourceLanguage := Some "en" |}].

(** Every translation settles with the content in brackets. *)
Definition bracketed (i : OllamaReference.Item) : outcome string :=
  Ok ("[" ++ OllamaReference.content i ++ "]").

(** The second item is rejected. *)
Definition second_fails (i : OllamaReference.Item) : outcome string :=
  if (OllamaReference.content i =? "World")%string
  then Throw (Error "Cloud translation failed: quota")
  else Ok ("[" ++ OllamaReference.content i ++ "]").

Definition earliest (e : exn) (_ : list exn) : exn := e.

(** The error of [new Ollama(...)] when the default export of the
    package is an instance and not a class (a [TypeError]; its message
    is what the callers read). *)
Definition not_a_constructor : exn := Error "Ollama is not a constructor".


End Cases.

(* ================================================================== *)
(** ** Properties of the workflow *)
(* ================================================================== *)

Ltac unfold_m :=
  unfold bind, ret, throw, lift, getDb, putDb, clock, try_catch in *.

Lemma logged_logged (w : World) (a b : list RemoteCall) :
  logged (logged w a) b = logged w (a ++ b).
Proof. unfold logged; simpl. now rewrite List.app_assoc. Qed.

Lemma find_snoc_new {A} (f : A -> bool) (l : list A) (x : A) :
  find f l = None -> f x = true -> find f (l ++ [x]) = Some x.
Proof.
  induction l as [|a l IH]; simpl; intros Hn Hx.
  - now rewrite Hx.
  - destruct (f a); [discriminate | auto].
Qed.

Lemma find_none_iff {A} (f : A -> bool) (l : list A) :
  find f l = None <-> forall x, In x l -> f x = false.
Proof.
  split.
  - apply find_none.
  - induction l as [|a l IH]; simpl; intros H; [reflexivity|].
    rewrite (H a (or_introl eq_refl)). apply IH. intros; apply H; auto.
Qed.

Lemma translation_matches_key (M : Z) (L : string) (r : Translation.row) :
  translation_matches M L r = true <-> translation_key r = (M, L).
Proof.
  unfold translation_matches, translation_key.
  rewrite andb_true_iff, Z.eqb_eq, String.eqb_eq.
  split; [intros [-> ->]; reflexivity | intros [= -> ->]; auto].
Qed.

Lemma found_has_key (M : Z) (L : string) (rows : list Translation.row)
      (row : Translation.row) :
  find (translation_matches M L) rows = Some row ->
  In row rows /\ translation_key row = (M, L).
Proof.
  intros H. apply find_some in H. destruct H as [Hin Hm].
  split; [exact Hin | now apply translation_matches_key].
Qed.

Section Properties.

Context {rt : Runtime} (env : Env).

Lemma remote_text (c : RemoteCall) (w : World) (t : string) :
  respond env (length (trace w)) c = Text t ->
  remote env c w = (Ok t, logged w [c]).
Proof. unfold remote; intros ->; reflexivity. Qed.

Lemma remote_failed (c : RemoteCall) (w : World) (msg : string) :
  respond env (length (trace w)) c = Failed msg ->
  remote env c w = (Throw (Error msg), logged w [c]).
Proof. unfold remote; intros ->; reflexivity. Qed.

Lemma bind_ok {A B} (c : M A) (k : A -> M B) (w w' : World) (a : A) :
  c w = (Ok a, w') -> bind c k w = k a w'.
Proof. unfold bind; intros ->; reflexivity. Qed.

Lemma bind_throw {A B} (c : M A) (k : A -> M B) (w w' : World) (e : exn) :
  c w = (Throw e, w') -> bind c k w = (Throw e, w').
Proof. unfold bind; intros ->; reflexivity. Qed.

(** *** What the engine keeps *)

Lemma kept_unaltered (c : Column.type) (v : string) :
  kept c v -> unaltered c v.
Proof. unfold kept, unaltered. intros H held Hh. congruence. Qed.

Lemma unaltered_held (c : Column.type) (v held : string) :
  unaltered c v -> Column_keeps c v = Ok held -> Column_keeps c v = Ok v.
Proof. intros Hu Hk. now rewrite <- (Hu held Hk) at 2. Qed.

Lemma keeps_nullable_kept (c : Column.type) (v : option string) :
  kept_nullable c v -> keeps_nullable c v = Ok v.
Proof.
  destruct v as [s|]; [|reflexivity].
  intros H. specialize (H s eq_refl). unfold kept in H.
  simpl. now rewrite H.
Qed.

Lemma keeps_nullable_some (c : Column.type) (s : string)
      (held : option string) :
  keeps_nullable c (Some s) = Ok held ->
  exists h, held = Some h /\ Column_keeps c s = Ok h.
Proof.
  simpl. destruct (Column_keeps c s) as [h|e]; simpl; [|discriminate].
  intros [= <-]. eauto.
Qed.

(** A refused statement throws an [Error] of the driver. *)
Lemma Column_keeps_error (c : Column.type) (v : string) (e : exn) :
  Column_keeps c v = Throw e -> exists message, e = Error message.
Proof.
  unfold Column_keeps. destruct (Column_assign c v) as [held|message];
    [discriminate|].
  intros [= <-]. now exists message.
Qed.

Lemma keeps_nullable_error (c : Column.type) (v : option string) (e : exn) :
  keeps_nullable c v = Throw e -> exists message, e = Error message.
Proof.
  destruct v as [s|]; simpl; [|discriminate].
  destruct (Column_keeps c s) as [h|x] eqn:H; simpl; [discriminate|].
  intros [= <-]. exact (Column_keeps_error c s x H).
Qed.

Lemma stored_meeting_error (d : Database) (t : Z) (m : InsertMeeting)
      (e : exn) :
  stored_meeting d t m = Throw e -> exists message, e = Error message.
Proof.
  unfold stored_meeting.
  destruct (column_text _) as [content|];
    [|intros [= <-]; eexists; reflexivity].
  destruct (nullable_text _) as [lang|];
    [|intros [= <-]; eexists; reflexivity].
  destruct (Column_keeps (Column.varchar 255) _) as [a|x] eqn:Ha;
    [|intros [= <-]; exact (Column_keeps_error _ _ _ Ha)].
  cbn [obind].
  destruct (Column_keeps Column.text content) as [b|x] eqn:Hb;
    [|intros [= <-]; exact (Column_keeps_error _ _ _ Hb)].
  cbn [obind].
  destruct (keeps_nullable (Column.varchar 10) lang) as [c|x] eqn:Hc;
    [|intros [= <-]; exact (keeps_nullable_error _ _ _ Hc)].
  cbn [obind].
  destruct (keeps_nullable Column.text (im_imageUrl m)) as [u|x] eqn:Hu;
    [|intros [= <-]; exact (keeps_nullable_error _ _ _ Hu)].
  cbn [obind].
  destruct (keeps_nullable Column.text (im_imageKey m)) as [k|x] eqn:Hk;
    [|intros [= <-]; exact (keeps_nullable_error _ _ _ Hk)].
  discriminate.
Qed.

Lemma stored_translation_error (d : Database) (t : Z)
      (v : InsertTranslation) (e : exn) :
  stored_translation d t v = Throw e -> exists message, e = Error message.
Proof.
  unfold stored_translation.
  destruct (nullable_text _) as [sent|];
    [|intros [= <-]; eexists; reflexivity].
  destruct (Column_keeps (Column.varchar 10) _) as [a|x] eqn:Ha;
    [|intros [= <-]; exact (Column_keeps_error _ _ _ Ha)].
  cbn [obind].
  destruct (Column_keeps Column.text (it_translatedContent v)) as [b|x] eqn:Hb;
    [|intros [= <-]; exact (Column_keeps_error _ _ _ Hb)].
  cbn [obind].
  destruct (keeps_nullable Column.text sent) as [c|x] eqn:Hc;
    [|intros [= <-]; exact (keeps_nullable_error _ _ _ Hc)].
  cbn [obind].
  destruct (Column_keeps Column.text (it_actionItems v)) as [y|x] eqn:Hx;
    [|intros [= <-]; exact (Column_keeps_error _ _ _ Hx)].
  discriminate.
Qed.

Lemma stored_meeting_kept (d : Database) (t : Z) (m : InsertMeeting)
      (content : string) (lang : option string) :
  column_text (im_originalContent m) = Some content ->
  nullable_text (im_detectedLanguage m) = Some lang ->
  kept (Column.varchar 255) (im_title m) ->
  kept Column.text content ->
  kept_nullable (Column.varchar 10) lang ->
  kept_nullable Column.text (im_imageUrl m) ->
  kept_nullable Column.text (im_imageKey m) ->
  stored_meeting d t m
  = Ok (meeting_row d t (im_userId m) (im_title m) content lang
                    (im_imageUrl m) (im_imageKey m)).
Proof.
  intros Hc Hl Ht Hk Hlang Hu Hkey.
  unfold stored_meeting. rewrite Hc, Hl.
  unfold kept in Ht, Hk. rewrite Ht. cbn [obind]. rewrite Hk. cbn [obind].
  rewrite (keeps_nullable_kept _ _ Hlang). cbn [obind].
  rewrite (keeps_nullable_kept _ _ Hu). cbn [obind].
  rewrite (keeps_nullable_kept _ _ Hkey). reflexivity.
Qed.

(** The row of an accepted insert: identifier, owner and time are those
    of the statement, and each text is what its column keeps. *)
Lemma stored_meeting_row (d : Database) (t : Z) (m : InsertMeeting)
      (r : Meeting.row) :
  stored_meeting d t m = Ok r ->
  Meeting.id r = meetings_auto d
  /\ Meeting.userId r = im_userId m
  /\ Meeting.createdAt r = t
  /\ Meeting.updatedAt r = t
  /\ Column_keeps (Column.varchar 255) (im_title m) = Ok (Meeting.title r)
  /\ (exists content,
         column_text (im_originalContent m) = Some content
         /\ Column_keeps Column.text content
            = Ok (Meeting.originalContent r))
  /\ (exists lang,
         nullable_text (im_detectedLanguage m) = Some lang
         /\ keeps_nullable (Column.varchar 10) lang
            = Ok (Meeting.detectedLanguage r))
  /\ keeps_nullable Column.text (im_imageUrl m) = Ok (Meeting.imageUrl r)
  /\ keeps_nullable Column.text (im_imageKey m) = Ok (Meeting.imageKey r).
Proof.
  unfold stored_meeting.
  destruct (column_text _) as [content|]; [|discriminate].
  destruct (nullable_text _) as [lang|]; [|discriminate].
  destruct (Column_keeps (Column.varchar 255) _) as [a|]; [|discriminate].
  cbn [obind].
  destruct (Column_keeps Column.text content) as [b|] eqn:Hb; [|discriminate].
  cbn [obind].
  destruct (keeps_nullable (Column.varchar 10) lang) as [c|] eqn:Hc;
    [|discriminate].
  cbn [obind].
  destruct (keeps_nullable Column.text (im_imageUrl m)) as [u|];
    [|discriminate].
  cbn [obind].
  destruct (keeps_nullable Column.text (im_imageKey m)) as [k|];
    [|discriminate].
  cbn [obind]. intros [= <-]. simpl.
  repeat (split; [reflexivity|]).
  split; [exists content; auto|].
  split; [exists lang; auto|].
  split; reflexivity.
Qed.

Lemma stored_translation_row (d : Database) (t : Z) (v : InsertTranslation)
      (r : Translation.row) :
  stored_translation d t v = Ok r ->
  Translation.id r = translations_auto d
  /\ Translation.meetingId r = it_meetingId v
  /\ Translation.createdAt r = t
  /\ Column_keeps (Column.varchar 10) (it_targetLanguage v)
     = Ok (Translation.targetLanguage r)
  /\ Column_keeps Column.text (it_translatedContent v)
     = Ok (Translation.translatedContent r)
  /\ (exists sent,
         nullable_text (Some (it_summary v)) = Some sent
         /\ keeps_nullable Column.text sent = Ok (Translation.summary r))
  /\ (exists a,
         Translation.actionItems r = Some a
         /\ Column_keeps Column.text (it_actionItems v) = Ok a).
Proof.
  unfold stored_translation.
  destruct (nullable_text _) as [sent|]; [|discriminate].
  destruct (Column_keeps (Column.varchar 10) _) as [a|]; [|discriminate].
  cbn [obind].
  destruct (Column_keeps Column.text (it_translatedContent v)) as [b|];
    [|discriminate].
  cbn [obind].
  destruct (keeps_nullable Column.text sent) as [c|] eqn:Hc; [|discriminate].
  cbn [obind].
  destruct (Column_keeps Column.text (it_actionItems v)) as [x|] eqn:Hx;
    [|discriminate].
  cbn [obind]. intros [= <-]. simpl.
  repeat (split; [reflexivity|]).
  split; [exists sent; auto | exists x; auto].
Qed.

Lemma stored_translation_kept (d : Database) (t : Z) (v : InsertTranslation)
      (summary : option string) :
  nullable_text (Some (it_summary v)) = Some summary ->
  kept (Column.varchar 10) (it_targetLanguage v) ->
  kept Column.text (it_translatedContent v) ->
  kept_nullable Column.text summary ->
  kept Column.text (it_actionItems v) ->
  stored_translation d t v
  = Ok {| Translation.id := translations_auto d;
          Translation.meetingId := it_meetingId v;
          Translation.targetLanguage := it_targetLanguage v;
          Translation.translatedContent := it_translatedContent v;
          Translation.summary := summary;
          Translation.actionItems := Some (it_actionItems v);
          Translation.createdAt := t |}.
Proof.
  intros Hs Hl Hc Hsum Ha.
  unfold stored_translation. rewrite Hs.
  unfold kept in Hl, Hc, Ha. rewrite Hl. cbn [obind]. rewrite Hc.
  cbn [obind]. rewrite (keeps_nullable_kept _ _ Hsum). cbn [obind].
  rewrite Ha. reflexivity.
Qed.

(** *** What each function of the persistence layer does to the world *)

Lemma getTranslation_eval (M : Z) (L : string) (w : World) :
  getTranslation M L w = (Ok (lookup_translation (db w) M L), w).
Proof.
  unfold getTranslation; unfold_m. destruct (db w); reflexivity.
Qed.

Lemma getMeetingById_eval (M : Z) (w : World) :
  getMeetingById M w = (Ok (lookup_meeting (db w) M), w).
Proof.
  unfold getMeetingById; unfold_m. destruct (db w); reflexivity.
Qed.

Lemma createTranslation_eval (t : InsertTranslation) (w : World) :
  createTranslation t w =
  match db w with
  | None => (Throw (Error "Database not available"), w)
  | Some d =>
      match stored_translation d (now w) t with
      | Ok r => (Ok (translations_auto d), stored w (with_translation d r))
      | Throw e => (Throw e, w)
      end
  end.
Proof.
  unfold createTranslation; unfold_m.
  destruct (db w); [|reflexivity].
  destruct (stored_translation _ _ _); reflexivity.
Qed.

Lemma createMeeting_eval (m : InsertMeeting) (w : World) :
  createMeeting m w =
  match db w with
  | None => (Throw (Error "Database not available"), w)
  | Some d =>
      match stored_meeting d (now w) m with
      | Ok r => (Ok (meetings_auto d), stored w (with_meeting d r))
      | Throw e => (Throw e, w)
      end
  end.
Proof.
  unfold createMeeting; unfold_m.
  destruct (db w); [|reflexivity].
  destruct (stored_meeting _ _ _); reflexivity.
Qed.

Lemma deleteMeeting_eval (id : Z) (w : World) :
  deleteMeeting id w =
  match db w with
  | None => (Throw (Error "Database not available"), w)
  | Some d => (Ok tt, stored w (without_meeting d id))
  end.
Proof.
  unfold deleteMeeting; unfold_m. destruct (db w); reflexivity.
Qed.

Lemma translate_meeting_cases (M : Z) (L : string) (w : World) :
  translate_case env M L w (meetings.translate env M L w).
Proof.
  unfold meetings.translate.
  rewrite (bind_ok _ _ _ _ _ (getTranslation_eval M L w)).
  destruct (db w) as [d|] eqn:Hdb; simpl.
  2:{ rewrite (bind_ok _ _ _ _ _ (getMeetingById_eval M w)), Hdb; simpl.
      now apply translate_no_database. }
  destruct (find (translation_matches M L) (translations d)) as [row|] eqn:Hf.
  { eapply translate_hit; eauto. }
  rewrite (bind_ok _ _ _ _ _ (getMeetingById_eval M w)), Hdb; simpl.
  destruct (find (fun r => Meeting.id r =? M) (meetings d)) as [m|] eqn:Hm.
  2:{ eapply translate_no_meeting; eauto. }
  unfold translateMeetingNotes, getTranslationAdapter; simpl.
  destruct (respond env (length (trace w)) (translate_call m L))
    as [content|msg] eqn:Hr1.
  2:{ rewrite (bind_throw _ _ _ _ _ (remote_failed _ _ _ Hr1)).
      eapply translate_remote_failed; eauto. }
  rewrite (bind_ok _ _ _ _ _ (remote_text _ _ _ Hr1)).
  unfold summarizeMeetingNotes.
  set (w1 := logged w _).
  assert (Hlen : length (trace w1) = S (length (trace w))).
  { unfold w1; simpl. rewrite List.length_app; simpl; lia. }
  destruct (respond env (S (length (trace w))) (summarize_call content))
    as [text|msg] eqn:Hr2.
  2:{ pose proof Hr2 as Hr2f. rewrite <- Hlen in Hr2f.
      rewrite (bind_throw _ _ _ _ _
                 (bind_throw _ _ _ _ _ (remote_failed _ _ _ Hr2f))).
      unfold w1; rewrite logged_logged; simpl.
      eapply translate_summarize_failed; eauto. }
  pose proof Hr2 as Hr2'. rewrite <- Hlen in Hr2'.
  rewrite (bind_ok _ _ _ _ _
             (bind_ok _ _ _ _ _ (remote_text _ _ _ Hr2'))).
  unfold bind. rewrite createTranslation_eval.
  unfold w1; rewrite logged_logged.
  cbn [db logged now app].
  rewrite Hdb.
  fold (translation_values M L content (summary_of_text text)).
  destruct (stored_translation d (now w) _) as [row|e] eqn:Hs.
  - unfold ret. eapply translate_miss; eauto.
  - eapply translate_insert_failed; eauto.
Qed.

Lemma translate_meeting_hit (M : Z) (L : string) (w : World)
      (row : Translation.row) :
  lookup_translation (db w) M L = Some row ->
  meetings.translate env M L w = (Ok (result_of_row row), w).
Proof.
  intros H. unfold meetings.translate.
  rewrite (bind_ok _ _ _ _ _ (getTranslation_eval M L w)), H.
  reflexivity.
Qed.

(** After a miss whose values the columns did not alter, the stored row
    carries the values as they were submitted. *)
Lemma unaltered_row (d : Database) (t M : Z) (L content : string)
      (summary : MeetingSummary) (row : Translation.row) :
  stored_translation d t (translation_values M L content summary) = Ok row ->
  unaltered_translation (translation_result (translations_auto d) M L
                                            content summary) ->
  is_string (ms_summary summary) = true ->
  translation_key row = (M, L)
  /\ same_translation
       (result_of_row row)
       (translation_result (translations_auto d) M L content summary).
Proof.
  intros Hs [HL [Hc [Hsum Ha]]] Hstr.
  apply stored_translation_row in Hs.
  destruct Hs as [Hid [HM [_ [Hl [Hct [[sent [Hsent Hks]] [a [Hai Hka]]]]]]]].
  cbn [translation_values it_meetingId it_targetLanguage
       it_translatedContent it_summary it_actionItems] in *.
  cbn [translation_result tr_targetLanguage tr_translatedContent
       tr_summary tr_actionItems] in HL, Hc, Hsum, Ha.
  apply HL in Hl. apply Hc in Hct.
  apply (Ha _ eq_refl) in Hka.
  destruct (ms_summary summary) as [| | |s| |] eqn:Es; try discriminate.
  simpl in Hsent. injection Hsent as <-.
  apply keeps_nullable_some in Hks. destruct Hks as [h [Hh Hk]].
  apply (Hsum s eq_refl) in Hk. subst h.
  unfold translation_key, same_translation, result_of_row,
    translation_result; simpl.
  rewrite Hid, HM, Hl, Hct, Hh, Hai, Hka, Es. simpl.
  repeat split; reflexivity.
Qed.

(** C1 (as amended).  Cache idempotence.  When [translate] has returned
    a Translation for meeting [M] and language [L], the columns of the
    table did not alter its target language, translated content, summary
    and serialized summary, and its summary is a string, then the table
    holds a row for the pair ([M], [L]) and calling [translate] again
    returns that row: it has the identity and the content of the first
    result, and the world is left as it was, so no remote call is logged
    and nothing is written. *)
Theorem translate_twice_is_cache_hit
        (M : Z) (L : string) (w w1 : World) (t : TranslateResult) :
  meetings.translate env M L w = (Ok t, w1) ->
  unaltered_translation t ->
  is_string (tr_summary t) = true ->
  exists row,
    lookup_translation (db w1) M L = Some row
    /\ translation_key row = (M, L)
    /\ meetings.translate env M L w1 = (Ok (result_of_row row), w1)
    /\ same_translation (result_of_row row) t.
Proof.
  intros H Hu Hstr.
  pose proof (translate_meeting_cases M L w) as C.
  rewrite H in C. inversion C; subst; clear C.
  - (* hit: the same row is found again *)
    match goal with
    | Hf : find _ _ = Some ?r |- _ =>
        exists r; destruct (found_has_key _ _ _ _ Hf) as [_ Hk]
    end.
    match goal with Hdb : db _ = Some _ |- _ => rewrite Hdb end.
    simpl. split; [assumption|]. split; [exact Hk|].
    split.
    + apply translate_meeting_hit.
      match goal with Hdb : db _ = Some _ |- _ => rewrite Hdb end.
      assumption.
    + repeat split.
  - (* miss: the row just written is found *)
    match goal with
    | Hs : stored_translation _ _ _ = Ok ?r |- _ =>
        exists r; destruct (unaltered_row _ _ _ _ _ _ _ Hs Hu Hstr)
          as [Hk Hsame]
    end.
    assert (Hl : lookup_translation
                   (db (stored (logged w [translate_call m L;
                                          summarize_call content])
                               (with_translation d row))) M L
                 = Some row).
    { simpl. apply find_snoc_new; [assumption|].
      now apply translation_matches_key. }
    split; [exact Hl|]. split; [exact Hk|].
    split; [now apply translate_meeting_hit | exact Hsame].
Qed.

(** *** What each handler does to the world *)

Lemma create_eval (user : Z) (title content : string) (w : World) :
  meetings.create env user title content w =
  if ((title =? "") || (content =? ""))%string then (Throw ZodError, w)
  else
    let call := CallDetect (detect_prompt content) in
    match respond env (length (trace w)) call with
    | Failed msg => (Throw (Error msg), logged w [call])
    | Text text =>
        let lang := String_toLowerCase (String_trim text) in
        match db w with
        | None => (Throw (Error "Database not available"), logged w [call])
        | Some d =>
            match stored_meeting d (now w)
                    (create_values user title content lang) with
            | Ok r =>
                (Ok {| cr_id := meetings_auto d;
                       cr_detectedLanguage := lang |},
                 stored (logged w [call]) (with_meeting d r))
            | Throw e => (Throw e, logged w [call])
            end
        end
    end.
Proof.
  unfold meetings.create.
  destruct ((title =? "") || (content =? ""))%string; [reflexivity|].
  unfold detectMeetingLanguage, getTranslationAdapter; simpl.
  destruct (respond env (length (trace w)) (CallDetect (detect_prompt content)))
    as [text|msg] eqn:Hr.
  - rewrite (bind_ok _ _ _ _ _
               (bind_ok _ _ _ _ _ (remote_text _ _ _ Hr))).
    unfold ret at 1. unfold bind. rewrite createMeeting_eval.
    cbn [db logged now].
    destruct (db w); [|reflexivity].
    fold (create_values user title content
                        (String_toLowerCase (String_trim text))).
    destruct (stored_meeting _ _ _); reflexivity.
  - rewrite (bind_throw _ _ _ _ _
               (bind_throw _ _ _ _ _ (remote_failed _ _ _ Hr))).
    reflexivity.
Qed.

Lemma extractAndDetectLanguage_eval (url : string) (w : World) :
  extractAndDetectLanguage env url w =
  match respond env (length (trace w)) (CallOCR url) with
  | Text text => (Ok (ocr_of_text text), logged w [CallOCR url])
  | Failed msg =>
      (Throw (Error ("Failed to process image: " ++ msg)),
       logged w [CallOCR url])
  end.
Proof.
  unfold extractAndDetectLanguage, try_catch.
  destruct (respond env (length (trace w)) (CallOCR url)) as [text|msg] eqn:Hr.
  - rewrite (bind_ok _ _ _ _ _ (remote_text _ _ _ Hr)). reflexivity.
  - rewrite (bind_throw _ _ _ _ _ (remote_failed _ _ _ Hr)). reflexivity.
Qed.

Lemma createFromImage_eval (user : Z) (title imageData mimeType : string)
      (fileSize : Z) (w : World) :
  meetings.createFromImage env user title imageData mimeType fileSize w =
  if (title =? "")%string then (Throw ZodError, w)
  else
    let validation := validateImageForOCR fileSize mimeType in
    if negb (valid validation) then
      (Throw (Error (match error validation with
                     | Some m => m
                     | None => ""
                     end)), w)
    else
      let put := image_put env user imageData mimeType w in
      match respond env (length (trace w)) put with
      | Failed msg => (Throw (Error msg), logged w [put])
      | Text url =>
          let w2 := logged w [put; CallOCR url] in
          match respond env (S (length (trace w))) (CallOCR url) with
          | Failed msg =>
              (Throw (Error ("Failed to process image: " ++ msg)), w2)
          | Text text =>
              let ocr := ocr_of_text text in
              if negb (truthy (Some (extractedText ocr))) then
                (Throw (Error "No text could be extracted from the image"),
                 w2)
              else
                match createMeeting
                        {| im_userId := user;
                           im_title := title;
                           im_originalContent := extractedText ocr;
                           im_detectedLanguage := ocr_detectedLanguage ocr;
                           im_imageUrl := Some url;
                           im_imageKey :=
                             Some (image_key env user mimeType w) |} w2 with
                | (Ok id, w3) =>
                    (Ok {| ci_id := id;
                           ci_detectedLanguage := ocr_detectedLanguage ocr;
                           ci_extractedText := extractedText ocr;
                           ci_imageUrl := url |}, w3)
                | (Throw e, w3) => (Throw e, w3)
                end
          end
      end.
Proof.
  unfold meetings.createFromImage.
  destruct (title =? "")%string; [reflexivity|].
  destruct (negb (valid (validateImageForOCR fileSize mimeType)));
    [reflexivity|].
  unfold bind at 1. fold (image_key env user mimeType w).
  fold (image_put env user imageData mimeType w).
  destruct (respond env (length (trace w))
              (image_put env user imageData mimeType w))
    as [url|msg] eqn:Hr.
  2:{ rewrite (bind_throw _ _ _ _ _ (remote_failed _ _ _ Hr)). reflexivity. }
  rewrite (bind_ok _ _ _ _ _ (remote_text _ _ _ Hr)).
  unfold bind at 1. rewrite extractAndDetectLanguage_eval.
  cbn [trace logged]. rewrite List.length_app; cbn [length].
  replace (length (trace w) + 1)%nat with (S (length (trace w))) by lia.
  rewrite logged_logged; cbn [app].
  destruct (respond env (S (length (trace w))) (CallOCR url))
    as [text|msg]; [|reflexivity].
  destruct (negb (truthy (Some (extractedText (ocr_of_text text)))));
    [reflexivity|].
  unfold bind, ret.
  destruct (createMeeting _ _) as [[id|e] w3]; reflexivity.
Qed.

Lemma export_eval (M : Z) (L : string) (w : World) :
  meetings.export M L w =
  (match lookup_meeting (db w) M with
   | None => Throw (Error "Meeting not found")
   | Some meeting =>
       match lookup_translation (db w) M L with
       | None => Throw (Error "Translation not found")
       | Some translation =>
           match JSON_parse (text_or (Translation.actionItems translation)
                                     "{}") with
           | None => Throw SyntaxError
           | Some summary =>
               formatSummaryForExport
                 (Meeting.originalContent meeting)
                 (Translation.translatedContent translation)
                 summary
                 (text_or (Meeting.detectedLanguage meeting) "unknown")
                 L (now w)
           end
       end
   end, w).
Proof.
  unfold meetings.export.
  rewrite (bind_ok _ _ _ _ _ (getMeetingById_eval M w)).
  destruct (lookup_meeting (db w) M); [|reflexivity].
  rewrite (bind_ok _ _ _ _ _ (getTranslation_eval M L w)).
  destruct (lookup_translation (db w) M L); [|reflexivity].
  destruct (JSON_parse _); reflexivity.
Qed.

Lemma delete_eval (id : Z) (w : World) :
  meetings.delete id w =
  match db w with
  | None => (Throw (Error "Database not available"), w)
  | Some d => (Ok true, stored w (without_meeting d id))
  end.
Proof.
  unfold meetings.delete, bind. rewrite deleteMeeting_eval.
  destruct (db w); reflexivity.
Qed.

Lemma createMeeting_db_step (fresh : bool) (m : InsertMeeting) (w : World) :
  db_step fresh (db w) (db (snd (createMeeting m w))).
Proof.
  rewrite createMeeting_eval.
  destruct (db w) as [d|] eqn:Hdb; simpl; [|rewrite Hdb; constructor].
  destruct (stored_meeting d (now w) m) as [r|e] eqn:Hs; simpl;
    [|rewrite Hdb; constructor].
  apply stored_meeting_row in Hs. now constructor.
Qed.

Lemma translate_db_step (fresh : bool) (M : Z) (L : string) (w : World) :
  (fresh = true -> unaltered (Column.varchar 10) L) ->
  db_step fresh (db w) (db (snd (meetings.translate env M L w))).
Proof.
  intros Hu.
  destruct (translate_meeting_cases M L w); simpl; try constructor.
  match goal with Hdb : db w = Some _ |- _ => rewrite Hdb end.
  match goal with
  | Hm : find (fun r => Meeting.id r =? M) _ = Some _ |- _ =>
      apply find_some in Hm; destruct Hm as [Hin Hid]
  end.
  apply Z.eqb_eq in Hid.
  match goal with
  | Hs : stored_translation _ _ _ = Ok _ |- _ =>
      apply stored_translation_row in Hs;
      destruct Hs as [Hrid [HrM [_ [Hl _]]]]
  end.
  simpl in HrM, Hl.
  eapply step_translation; eauto; [congruence|].
  intros Hf. rewrite HrM, (Hu Hf _ Hl). assumption.
Qed.

(** Every request changes the database by one [db_step]; the key of an
    inserted translation is fresh when the column did not alter the
    requested language. *)
Lemma handle_step (fresh : bool) (req : Request) (w : World) :
  (fresh = true -> language_unaltered req) ->
  db_step fresh (db w) (db (snd (handle env req w))).
Proof.
  intros Hu.
  destruct req; simpl; unfold bind at 1.
  - rewrite getMeetingById_eval. constructor.
  - rewrite create_eval.
    destruct ((_ =? "") || _)%string; [constructor|].
    cbv zeta. destruct (respond _ _ _); [|constructor].
    destruct (db w) as [d|] eqn:Hdb; simpl; rewrite ?Hdb; [|constructor].
    destruct (stored_meeting _ _ _) as [r|e] eqn:Hs; simpl;
      rewrite ?Hdb; [|constructor].
    apply stored_meeting_row in Hs. now constructor.
  - rewrite createFromImage_eval.
    destruct (_ =? "")%string; [constructor|].
    cbv zeta.
    destruct (negb (valid _)); [constructor|].
    destruct (respond _ _ _); [|constructor].
    destruct (respond _ _ _); [|constructor].
    destruct (negb (truthy _)); [constructor|].
    match goal with
    | |- context [createMeeting ?m ?w2] =>
        pose proof (createMeeting_db_step fresh m w2) as Hs;
        destruct (createMeeting m w2) as [[id|e] w3]
    end; exact Hs.
  - pose proof (translate_db_step fresh meetingId targetLanguage w Hu) as Hs.
    destruct (meetings.translate env meetingId targetLanguage w) as [[r|e] w'];
      exact Hs.
  - rewrite getTranslation_eval. constructor.
  - rewrite export_eval.
    match goal with
    | |- context [match ?o with Ok _ => _ | Throw _ => _ end] => destruct o
    end; constructor.
  - rewrite delete_eval.
    destruct (db w) eqn:Hdb; simpl; rewrite ?Hdb; constructor.
Qed.

Lemma handle_db_step (req : Request) (w : World) :
  db_step false (db w) (db (snd (handle env req w))).
Proof. apply handle_step. discriminate. Qed.

(** *** Invariants of the stored tables *)

Lemma NoDup_snoc {A} (l : list A) (x : A) :
  NoDup l -> ~ In x l -> NoDup (l ++ [x]).
Proof.
  induction l as [|a l IH]; simpl; intros Hnd Hx.
  - constructor; [intros []| constructor].
  - inversion Hnd; subst. constructor.
    + intros Hin. apply in_app_iff in Hin.
      destruct Hin as [Hin|[Hin|[]]]; [auto|].
      apply Hx; left; congruence.
    + apply IH; auto.
Qed.

Lemma filter_keeps_keys_distinct {Row Key} (key : Row -> Key)
      (keep : Row -> bool) (rows : list Row) :
  NoDup (map key rows) -> NoDup (map key (filter keep rows)).
Proof.
  intros Hnd. induction rows as [|r rows IH]; simpl; [constructor|].
  simpl in Hnd. apply NoDup_cons_iff in Hnd. destruct Hnd as [Hfresh Hnd].
  destruct (keep r); simpl; [|now apply IH].
  constructor; [|now apply IH].
  intros Hin. apply Hfresh.
  apply in_map_iff in Hin. destruct Hin as [x [Hx Hin]].
  apply filter_In in Hin. rewrite <- Hx. apply in_map, Hin.
Qed.

Lemma db_step_invariant (fresh : bool) (o o' : option Database) :
  db_step fresh o o' ->
  (forall d, o = Some d -> table_invariant d) ->
  forall d', o' = Some d' -> table_invariant d'.
Proof.
  intros Hs Hinv d' Hd'.
  destruct Hs as [o | d r Hid | d r m Hm Hmid Hrid Hnew | d id];
    auto;
    injection Hd' as <-;
    destruct (Hinv d eq_refl) as [Ho [Hmi Ht]];
    unfold table_invariant, owned, ids_below_auto in *;
    simpl.
  - repeat split.
    + intros x Hx. destruct (Ho x Hx) as [m [Hin Heq]].
      exists m. rewrite in_app_iff. auto.
    + intros m Hin. apply in_app_iff in Hin.
      destruct Hin as [Hin|[<-|[]]]; [apply Hmi in Hin|]; lia.
    + exact Ht.
  - repeat split.
    + intros x Hx. apply in_app_iff in Hx.
      destruct Hx as [Hx|[<-|[]]]; [auto|].
      exists m; auto.
    + exact Hmi.
    + intros x Hx. apply in_app_iff in Hx.
      destruct Hx as [Hx|[<-|[]]]; [apply Ht in Hx|]; lia.
  - repeat split.
    + intros x Hx. apply filter_In in Hx. destruct Hx as [Hx Hne].
      destruct (Ho x Hx) as [m [Hin Heq]].
      exists m. split; [|exact Heq].
      apply filter_In. split; [exact Hin|]. now rewrite Heq.
    + intros m Hin. apply filter_In in Hin. now apply Hmi.
    + intros x Hx. apply filter_In in Hx. now apply Ht.
Qed.

(** A step that inserts fresh keys only keeps the keys distinct. *)
Lemma db_step_unique_keys (o o' : option Database) :
  db_step true o o' ->
  (forall d, o = Some d -> unique_keys d) ->
  forall d', o' = Some d' -> unique_keys d'.
Proof.
  intros Hs Hinv d' Hd'.
  destruct Hs as [o | d r Hid | d r m Hm Hmid Hrid Hnew | d id];
    auto;
    injection Hd' as <-;
    pose proof (Hinv d eq_refl) as Hu;
    unfold unique_keys in *; simpl.
  - exact Hu.
  - rewrite map_app; simpl.
    apply NoDup_snoc; [exact Hu|].
    intros Hin. apply in_map_iff in Hin. destruct Hin as [x [Hk Hx]].
    pose proof (find_none _ _ (Hnew eq_refl) x Hx) as Hf.
    assert (translation_matches (Translation.meetingId r)
                                (Translation.targetLanguage r) x = true)
      by (apply translation_matches_key; exact Hk).
    congruence.
  - now apply filter_keeps_keys_distinct.
Qed.

Lemma later_invariant (w0 w : World) :
  later env w0 w ->
  (forall d, db w0 = Some d -> table_invariant d) ->
  forall d, db w = Some d -> table_invariant d.
Proof.
  induction 1 as [|w1 req Hl IH|w1 t Hl IH Ht]; intros H0; auto.
  eapply db_step_invariant; [apply handle_db_step|]. now apply IH.
Qed.

Lemma reachable_invariant (w : World) :
  reachable env w -> forall d, db w = Some d -> table_invariant d.
Proof.
  intros [w0 [[Hdb _] Hl]].
  apply (later_invariant w0 w Hl).
  intros d Hd.
  destruct Hdb as [Hdb|Hdb]; rewrite Hdb in Hd; [discriminate|].
  injection Hd as <-.
  repeat split; simpl; intros ? [].
Qed.

Lemma served_later (allowed : Request -> Prop) (w0 w : World) :
  served env allowed w0 w -> later env w0 w.
Proof.
  induction 1 as [|w1 req Hs IH Ha|w1 t Hs IH Ht].
  - apply later_refl.
  - now apply later_request.
  - now apply later_tick.
Qed.

Lemma reachable_by_reachable (allowed : Request -> Prop) (w : World) :
  reachable_by env allowed w -> reachable env w.
Proof.
  intros [w0 [Hi Hs]]. exists w0. split; [exact Hi|].
  eapply served_later; eauto.
Qed.

Lemma served_unique_keys (w0 w : World) :
  served env language_unaltered w0 w ->
  (forall d, db w0 = Some d -> unique_keys d) ->
  forall d, db w = Some d -> unique_keys d.
Proof.
  induction 1 as [|w1 req Hs IH Ha|w1 t Hs IH Ht]; intros H0; auto.
  eapply db_step_unique_keys; [apply handle_step; intros _; exact Ha|].
  now apply IH.
Qed.

Lemma reachable_unique_keys (w : World) :
  reachable_by env language_unaltered w ->
  forall d, db w = Some d -> unique_keys d.
Proof.
  intros [w0 [[Hdb _] Hs]].
  apply (served_unique_keys w0 w Hs).
  intros d Hd.
  destruct Hdb as [Hdb|Hdb]; rewrite Hdb in Hd; [discriminate|].
  injection Hd as <-. constructor.
Qed.


(** C2 (as amended).  Cache key uniqueness.  In every state reached
    through requests whose target language the [targetLanguage] column
    did not alter, no two stored translations share a (meetingId,
    targetLanguage) pair, and a run of [translate] for such a language
    does one of three things: it returns the existing row for the pair
    and leaves the world as it was; it fails and leaves the tables as
    they were; or, the pair having no row, it appends exactly one row for
    the pair, keeping every existing row and the uniqueness of keys, and
    that row is the one found for the pair afterwards. *)
Theorem translation_keys_unique (w : World) :
  reachable_by env language_unaltered w ->
  (forall d, db w = Some d -> unique_keys d)
  /\ forall M L,
      unaltered (Column.varchar 10) L ->
      (exists row,
          lookup_translation (db w) M L = Some row
          /\ translation_key row = (M, L)
          /\ meetings.translate env M L w = (Ok (result_of_row row), w))
      \/ (lookup_translation (db w) M L = None
          /\ exists e w',
              meetings.translate env M L w = (Throw e, w')
              /\ db w' = db w)
      \/ (lookup_translation (db w) M L = None
          /\ exists d row t w',
              db w = Some d
              /\ meetings.translate env M L w = (Ok t, w')
              /\ db w' = Some (with_translation d row)
              /\ translation_key row = (M, L)
              /\ Translation.id row = tr_id t
              /\ lookup_translation (db w') M L = Some row
              /\ unique_keys (with_translation d row)).
Proof.
  intros Hr. split.
  { now apply reachable_unique_keys. }
  intros M L HL.
  pose proof (translate_db_step true M L w (fun _ => HL)) as Hstep.
  pose proof (translate_meeting_cases M L w) as C.
  inversion C as [d row Hdb Hf Heq | Hdb Heq | d Hdb Hf Hm Heq
                  | d m msg Hdb Hf Hm Hr1 Heq
                  | d m c msg Hdb Hf Hm Hr1 Hr2 Heq
                  | d m c text e Hdb Hf Hm Hr1 Hr2 Hs Heq
                  | d m c text row Hdb Hf Hm Hr1 Hr2 Hs Heq].
  - left. exists row. rewrite Hdb.
    destruct (found_has_key _ _ _ _ Hf) as [_ Hk]. auto.
  - right; left. rewrite Hdb. split; [reflexivity|].
    eexists; eexists; split; [reflexivity|]. now rewrite Hdb.
  - right; left. rewrite Hdb. split; [exact Hf|].
    eexists; eexists; split; [reflexivity|]. now rewrite Hdb.
  - right; left. rewrite Hdb. split; [exact Hf|].
    eexists; eexists; split; [reflexivity|]. simpl. now rewrite Hdb.
  - right; left. rewrite Hdb. split; [exact Hf|].
    eexists; eexists; split; [reflexivity|]. simpl. now rewrite Hdb.
  - right; left. rewrite Hdb. split; [exact Hf|].
    eexists; eexists; split; [reflexivity|]. simpl. now rewrite Hdb.
  - right; right. rewrite Hdb. split; [exact Hf|].
    pose proof (stored_translation_row _ _ _ _ Hs)
      as [Hid [HM [_ [Hl _]]]].
    simpl in HM, Hl. apply HL in Hl.
    assert (Hk : translation_key row = (M, L)).
    { unfold translation_key. now rewrite HM, Hl. }
    exists d, row. eexists; eexists.
    split; [reflexivity|]. split; [reflexivity|].
    split; [reflexivity|]. split; [exact Hk|].
    split; [exact Hid|].
    split.
    { simpl. apply find_snoc_new; [exact Hf|].
      now apply translation_matches_key. }
    rewrite <- Heq in Hstep. simpl in Hstep.
    eapply db_step_unique_keys; [exact Hstep| |reflexivity].
    now apply reachable_unique_keys.
Qed.

(** C3.  Content immutability.  Whatever sequence of [translate] calls is
    run (any meetings, any target languages, hits, misses or failures),
    the [meetings] table is afterwards exactly what it was: every field
    of every Meeting, [originalContent] included, is unchanged, and every
    lookup of a meeting answers as before. *)
Theorem translate_never_changes_meetings
        (calls : list (Z * string)) (w : World) :
  option_map meetings (db (translate_all env calls w))
  = option_map meetings (db w)
  /\ forall id,
      lookup_meeting (db (translate_all env calls w)) id
      = lookup_meeting (db w) id.
Proof.
  assert (H : option_map meetings (db (translate_all env calls w))
              = option_map meetings (db w)).
  { revert w. induction calls as [|[M L] calls IH]; intros w; simpl.
    - reflexivity.
    - rewrite IH.
      destruct (translate_meeting_cases M L w); simpl; try reflexivity.
      match goal with Hdb : db w = Some _ |- _ => now rewrite Hdb end. }
  split; [exact H|].
  intros id.
  destruct (db (translate_all env calls w)) as [d'|],
           (db w) as [d|]; simpl in *; congruence.
Qed.

(** C4 (as amended).  Create-from-text, given a non-empty title and
    non-empty content, makes one remote call, the detect-language request
    on the content.  When detection answers, the Meeting with the
    submitted title and content and the answer, trimmed and lower-cased,
    as [detectedLanguage] is inserted: the request returns the new
    identifier and that language, and the row persisted is the one the
    database keeps for these values, which is the submitted values
    themselves whenever the columns hold them as given.  When the
    database refuses the insert, or there is no database, the request
    ends with that error and no Meeting is persisted.  When detection
    fails, the failure ends the request: nothing is persisted. *)
Theorem create_detects_then_persists
        (user : Z) (title content : string) (w : World) :
  title <> "" -> content <> "" ->
  let call := CallDetect (detect_prompt content) in
  match respond env (length (trace w)) call with
  | Text text =>
      let lang := String_toLowerCase (String_trim text) in
      match db w with
      | Some d =>
          match stored_meeting d (now w)
                  (create_values user title content lang) with
          | Ok row =>
              meetings.create env user title content w =
              (Ok {| cr_id := meetings_auto d; cr_detectedLanguage := lang |},
               stored (logged w [call]) (with_meeting d row))
          | Throw e =>
              meetings.create env user title content w =
              (Throw e, logged w [call])
          end
          /\ (kept (Column.varchar 255) title ->
              kept Column.text content ->
              kept (Column.varchar 10) lang ->
              stored_meeting d (now w)
                (create_values user title content lang)
              = Ok (meeting_row d (now w) user title content (Some lang)
                                None None))
      | None =>
          meetings.create env user title content w =
          (Throw (Error "Database not available"), logged w [call])
      end
  | Failed msg =>
      meetings.create env user title content w =
      (Throw (Error msg), logged w [call])
      /\ db (snd (meetings.create env user title content w)) = db w
  end.
Proof.
  intros Ht Hc call.
  rewrite create_eval.
  apply String.eqb_neq in Ht, Hc. rewrite Ht, Hc. simpl orb. cbv iota zeta.
  fold call.
  destruct (respond env (length (trace w)) call); [|split; reflexivity].
  destruct (db w) as [d|]; [|reflexivity].
  split.
  - destruct (stored_meeting _ _ _); reflexivity.
  - intros Hk1 Hk2 Hk3.
    apply (stored_meeting_kept d (now w)
             (create_values user title content _) content (Some _));
      try reflexivity; try assumption.
    + intros s [= <-]. exact Hk3.
    + intros s [=].
    + intros s [=].
Qed.

(** C6.  Image validation boundary.  [maxSize] is 16 MiB.  A declared
    size of exactly [maxSize] passes the size check: validation then
    depends on the MIME type alone.  Any larger size, one byte over
    included, is rejected with the size error, and a MIME type whose
    lower-cased form is not in the allow-list is rejected with the format
    error; in both cases [createFromImage] throws that error and leaves
    the world as it was, so no Blob Store or OCR call is made and nothing
    is written. *)
Theorem image_validation_boundary
        (user : Z) (title imageData mimeType : string) (fileSize : Z)
        (w : World) :
  let run :=
    meetings.createFromImage env user title imageData mimeType fileSize w in
  maxSize = 16777216
  /\ valid (validateImageForOCR maxSize mimeType)
     = includes supportedFormats (String_toLowerCase mimeType)
  /\ (maxSize < fileSize ->
      validateImageForOCR fileSize mimeType
      = {| valid := false; error := Some (too_large fileSize) |}
      /\ snd run = w
      /\ (title <> "" -> run = (Throw (Error (too_large fileSize)), w)))
  /\ (fileSize <= maxSize ->
      includes supportedFormats (String_toLowerCase mimeType) = false ->
      validateImageForOCR fileSize mimeType
      = {| valid := false; error := Some (unsupported mimeType) |}
      /\ snd run = w
      /\ (title <> "" -> run = (Throw (Error (unsupported mimeType)), w))).
Proof.
  intros run.
  split; [reflexivity|].
  split.
  { unfold validateImageForOCR. rewrite Z.ltb_irrefl.
    destruct (includes _ _); reflexivity. }
  split.
  - intros Hlt.
    assert (Hv : validateImageForOCR fileSize mimeType
                 = {| valid := false; error := Some (too_large fileSize) |}).
    { unfold validateImageForOCR.
      apply Z.ltb_lt in Hlt. now rewrite Hlt. }
    split; [exact Hv|].
    unfold run. rewrite createFromImage_eval. cbv zeta. rewrite Hv. simpl.
    split.
    + destruct (title =? "")%string; reflexivity.
    + intros Ht. apply String.eqb_neq in Ht. now rewrite Ht.
  - intros Hle Hmime.
    assert (Hv : validateImageForOCR fileSize mimeType
                 = {| valid := false;
                      error := Some (unsupported mimeType) |}).
    { unfold validateImageForOCR.
      apply Z.ltb_ge in Hle. rewrite Hle, Hmime. reflexivity. }
    split; [exact Hv|].
    unfold run. rewrite createFromImage_eval. cbv zeta. rewrite Hv. simpl.
    split.
    + destruct (title =? "")%string; reflexivity.
    + intros Ht. apply String.eqb_neq in Ht. now rewrite Ht.
Qed.

(** C7.  Empty-OCR rejection.  When an image submission passes
    validation, the upload answers with a URL and the OCR reply yields an
    empty extracted text, [createFromImage] throws "No text could be
    extracted from the image"; the world afterwards differs only by the
    two logged remote calls, so the tables, and with them the set of
    Meetings, are unchanged. *)
Theorem empty_ocr_creates_no_meeting
        (user : Z) (title imageData mimeType : string) (fileSize : Z)
        (w : World) (url text : string) :
  title <> "" ->
  valid (validateImageForOCR fileSize mimeType) = true ->
  respond env (length (trace w))
          (image_put env user imageData mimeType w) = Text url ->
  respond env (S (length (trace w))) (CallOCR url) = Text text ->
  extractedText (ocr_of_text text) = JString "" ->
  let run :=
    meetings.createFromImage env user title imageData mimeType fileSize w in
  run = (Throw (Error "No text could be extracted from the image"),
         logged w [image_put env user imageData mimeType w; CallOCR url])
  /\ db (snd run) = db w.
Proof.
  intros Ht Hv Hput Hocr Hempty run. unfold run.
  rewrite createFromImage_eval. cbv zeta.
  apply String.eqb_neq in Ht. rewrite Ht, Hv, Hput, Hocr, Hempty.
  split; reflexivity.
Qed.

(** C8 (as amended).  Graceful degradation of summarization.  When the
    reply of the summarization provider is not parseable as JSON,
    [summarizeMeetingNotes] does not fail: it returns the raw reply as
    [summary] with empty [actionItems] and [keyPoints] (and no
    participants or decisions).  A [translate] that misses the cache,
    finds its meeting and gets a translation then goes on to the insert
    with these values: when the database refuses the insert, that error
    is the error of the request; otherwise the request succeeds with the
    raw reply as summary and the row the database kept is stored; and
    when the columns hold the values as given, the request succeeds and
    the row found for the pair afterwards carries the translated content
    and the raw reply. *)
Theorem unparseable_summary_falls_back (text : string) :
  JSON_parse text = None ->
  (forall content w,
      respond env (length (trace w)) (summarize_call content) = Text text ->
      summarizeMeetingNotes env content w
      = (Ok {| ms_summary := JString text;
               ms_actionItems := [];
               ms_keyPoints := [];
               ms_participants := None;
               ms_decisions := None |},
         logged w [summarize_call content]))
  /\ (forall M L w d m content,
         db w = Some d ->
         lookup_translation (db w) M L = None ->
         lookup_meeting (db w) M = Some m ->
         respond env (length (trace w)) (translate_call m L) = Text content ->
         respond env (S (length (trace w))) (summarize_call content)
         = Text text ->
         let values :=
           translation_values M L content (fallback_summary text) in
         let calls := [translate_call m L; summarize_call content] in
         match stored_translation d (now w) values with
         | Throw e =>
             meetings.translate env M L w = (Throw e, logged w calls)
         | Ok row =>
             exists t,
               meetings.translate env M L w
               = (Ok t, stored (logged w calls) (with_translation d row))
               /\ tr_id t = Translation.id row
               /\ tr_translatedContent t = content
               /\ tr_summary t = JString text
         end
         /\ (kept (Column.varchar 10) L ->
             kept Column.text content ->
             kept Column.text text ->
             kept Column.text (it_actionItems values) ->
             exists t w',
               meetings.translate env M L w = (Ok t, w')
               /\ tr_translatedContent t = content
               /\ tr_summary t = JString text
               /\ lookup_translation (db w') M L
                  = Some {| Translation.id := tr_id t;
                            Translation.meetingId := M;
                            Translation.targetLanguage := L;
                            Translation.translatedContent := content;
                            Translation.summary := Some text;
                            Translation.actionItems := tr_actionItems t;
                            Translation.createdAt := now w |})).
Proof.
  intros Hp.
  assert (Hs : summary_of_text text = fallback_summary text).
  { unfold summary_of_text. now rewrite Hp. }
  split.
  - intros content w Hr. unfold summarizeMeetingNotes.
    rewrite (bind_ok _ _ _ _ _ (remote_text _ _ _ Hr)).
    unfold ret. now rewrite Hs.
  - intros M L w d m content Hdb Hf Hm Hr1 Hr2 values calls.
    rewrite Hdb in Hf, Hm. simpl in Hf, Hm.
    assert (Hrun :
              meetings.translate env M L w =
              match stored_translation d (now w) values with
              | Ok row =>
                  (Ok (translation_result (translations_auto d) M L content
                                          (fallback_summary text)),
                   stored (logged w calls) (with_translation d row))
              | Throw e => (Throw e, logged w calls)
              end).
    { pose proof (translate_meeting_cases M L w) as C.
      inversion C as [d0 row Hdb0 Hf0 Heq | Hdb0 Heq | d0 Hdb0 Hf0 Hm0 Heq
                      | d0 m0 msg Hdb0 Hf0 Hm0 Hr1' Heq
                      | d0 m0 c msg Hdb0 Hf0 Hm0 Hr1' Hr2' Heq
                      | d0 m0 c text0 e Hdb0 Hf0 Hm0 Hr1' Hr2' Hs0 Heq
                      | d0 m0 c text0 row Hdb0 Hf0 Hm0 Hr1' Hr2' Hs0 Heq];
        try congruence;
        assert (d0 = d) by congruence; subst d0;
        try congruence;
        assert (m0 = m) by congruence; subst m0;
        try congruence;
        assert (c = content) by congruence; subst c;
        try congruence;
        assert (text0 = text) by congruence; subst text0;
        rewrite Hs in Hs0; fold values in Hs0; rewrite Hs0, ?Hs;
        reflexivity. }
    split.
    + rewrite Hrun.
      destruct (stored_translation d (now w) values) as [row|e] eqn:Hst;
        [|reflexivity].
      eexists. split; [reflexivity|].
      apply stored_translation_row in Hst. destruct Hst as [Hid _].
      simpl. auto.
    + intros HL Hc Ht Ha.
      assert (Hst : stored_translation d (now w) values
                    = Ok {| Translation.id := translations_auto d;
                            Translation.meetingId := M;
                            Translation.targetLanguage := L;
                            Translation.translatedContent := content;
                            Translation.summary := Some text;
                            Translation.actionItems :=
                              Some (it_actionItems values);
                            Translation.createdAt := now w |}).
      { apply (stored_translation_kept d (now w) values (Some text));
          try assumption; try reflexivity.
        intros s [= <-]. exact Ht. }
      rewrite Hrun, Hst.
      eexists; eexists. split; [reflexivity|].
      split; [reflexivity|]. split; [reflexivity|].
      simpl. apply find_snoc_new; [exact Hf|].
      apply translation_matches_key. reflexivity.
Qed.

(** *** Deletion *)

Lemma db_step_gone (fresh : bool) (id : Z) (o o' : option Database) :
  db_step fresh o o' -> gone_in id o -> gone_in id o'.
Proof.
  intros Hs Hg d' Hd'.
  destruct Hs as [o | d r Hid | d r m Hm Hmid Hrid Hnew | d id'];
    auto;
    injection Hd' as <-;
    destruct (Hg d eq_refl) as [Hlt [Hmg Htg]];
    unfold gone; simpl.
  - repeat split.
    + lia.
    + intros m Hin. apply in_app_iff in Hin.
      destruct Hin as [Hin|[<-|[]]]; [auto|lia].
    + exact Htg.
  - repeat split.
    + exact Hlt.
    + exact Hmg.
    + intros x Hx. apply in_app_iff in Hx.
      destruct Hx as [Hx|[<-|[]]]; [auto|].
      rewrite <- Hmid. auto.
  - repeat split.
    + exact Hlt.
    + intros m Hin. apply filter_In in Hin. now apply Hmg.
    + intros x Hx. apply filter_In in Hx. now apply Htg.
Qed.

Lemma later_gone (id : Z) (w w' : World) :
  later env w w' -> gone_in id (db w) -> gone_in id (db w').
Proof.
  induction 1 as [|w1 req Hl IH|w1 t Hl IH Ht]; intros Hg; auto.
  eapply db_step_gone; [apply handle_db_step|]. now apply IH.
Qed.

Lemma gone_lookup (id : Z) (L : string) (o : option Database) :
  gone_in id o -> lookup_translation o id L = None.
Proof.
  intros Hg. destruct o as [d|]; [|reflexivity]. simpl.
  destruct (Hg d eq_refl) as [_ [_ Ht]].
  apply find_none_iff. intros x Hx.
  unfold translation_matches.
  destruct (Z.eqb_spec (Translation.meetingId x) id) as [He|]; [|reflexivity].
  now apply Ht in Hx.
Qed.

(** C9.  Cascade deletion.  A successful delete of meeting [id] removes
    the meeting and, through the cascading foreign key, exactly the
    translations whose [meetingId] is [id]; [getTranslation] for [id] and
    any target language then answers absent.  When the meeting existed in
    a reachable state this stays so after every later request: its
    identifier is never handed out again. *)
Theorem delete_cascades_to_translations
        (id : Z) (w w' : World) (b : bool) :
  meetings.delete id w = (Ok b, w') ->
  (exists d,
      db w = Some d /\ db w' = Some (without_meeting d id)
      /\ forall r, In r (translations (without_meeting d id))
                   <-> In r (translations d)
                       /\ Translation.meetingId r <> id)
  /\ (forall L, getTranslation id L w' = (Ok None, w'))
  /\ (reachable env w -> lookup_meeting (db w) id <> None ->
      forall w'' L, later env w' w'' ->
                    getTranslation id L w'' = (Ok None, w'')).
Proof.
  intros H. rewrite delete_eval in H.
  destruct (db w) as [d|] eqn:Hdb; [|discriminate].
  injection H as <- <-.
  assert (Hrows : forall r, In r (translations (without_meeting d id))
                            <-> In r (translations d)
                                /\ Translation.meetingId r <> id).
  { intros r. simpl. rewrite filter_In, negb_true_iff, Z.eqb_neq.
    reflexivity. }
  split; [exists d; auto|].
  split.
  - intros L. rewrite getTranslation_eval. simpl.
    replace (find _ _) with (@None Translation.row); [reflexivity|].
    symmetry. apply find_none_iff. intros x Hx.
    apply Hrows in Hx. destruct Hx as [_ Hne].
    unfold translation_matches.
    apply Z.eqb_neq in Hne. now rewrite Hne.
  - intros Hr Hm w'' L Hl.
    rewrite getTranslation_eval. f_equal. f_equal.
    apply gone_lookup. apply (later_gone id _ _ Hl).
    intros d' Hd'. simpl in Hd'. injection Hd' as <-.
    destruct (reachable_invariant w Hr d Hdb) as [_ [Hmi _]].
    unfold gone; simpl. repeat split.
    + simpl in Hm.
      destruct (find (fun r => Meeting.id r =? id) (meetings d))
        as [m|] eqn:Hf; [|congruence].
      apply find_some in Hf. destruct Hf as [Hin Hid].
      apply Z.eqb_eq in Hid. apply Hmi in Hin. lia.
    + intros m Hin. apply filter_In in Hin. destruct Hin as [_ Hne].
      now apply negb_true_iff, Z.eqb_neq in Hne.
    + intros r Hin. now apply Hrows in Hin.
Qed.

(** *** Export *)

Lemma string_app_assoc (a b c : string) : (a ++ b) ++ c = a ++ b ++ c.
Proof. induction a as [|x a IH]; simpl; [reflexivity | now rewrite IH]. Qed.



Lemma Ok_inj {A} (a b : A) : Ok a = Ok b -> a = b.
Proof. now intros [= ->]. Qed.

Lemma Some_inj {A} (a b : A) : Some a = Some b -> a = b.
Proof. now intros [= ->]. Qed.


Lemma get_summary_fields (s : MeetingSummary) :
  get (json_of_summary s) "summary" = Ok (Some (ms_summary s))
  /\ get (json_of_summary s) "actionItems"
     = Ok (Some (JArray (ms_actionItems s)))
  /\ get (json_of_summary s) "keyPoints"
     = Ok (Some (JArray (ms_keyPoints s)))
  /\ get (json_of_summary s) "participants"
     = Ok (option_map JArray (ms_participants s))
  /\ get (json_of_summary s) "decisions"
     = Ok (option_map JArray (ms_decisions s)).
Proof.
  unfold json_of_summary.
  destruct (ms_participants s), (ms_decisions s); repeat split; reflexivity.
Qed.








End Properties.

(* ================================================================== *)
(** ** The reference runtime reads back what it writes *)
(* ================================================================== *)

Module ReferenceFacts.
Import Reference.

Lemma delimited_no_digit (rest : string) :
  delimited rest -> no_digit_ahead rest.
Proof.
  destruct rest as [|c r]; simpl; [auto|].
  unfold is_digit. intros [-> | [-> | ->]]; reflexivity.
Qed.

Lemma span_digits_uint (d : Decimal.uint) (rest : string) :
  no_digit_ahead rest ->
  span_digits (NilEmpty.string_of_uint d ++ rest)
  = (NilEmpty.string_of_uint d, rest).
Proof.
  intros H. induction d; simpl; try (rewrite IHd; reflexivity).
  destruct rest as [|c r]; simpl in *; [reflexivity | now rewrite H].
Qed.

Lemma nzhead_not_D0 (d x : Decimal.uint) : Decimal.nzhead d <> Decimal.D0 x.
Proof. induction d; simpl; auto; discriminate. Qed.

Lemma to_uint_normal (n : N) :
  N.to_uint n = Decimal.unorm (N.to_uint n).
Proof.
  rewrite <- (DecimalN.Unsigned.to_of (N.to_uint n)).
  now rewrite DecimalN.Unsigned.of_to.
Qed.

Lemma digits_of_N_head (n : N) :
  exists c r, digits_of_N n = String c r
              /\ is_digit c = true
              /\ leading_zero (digits_of_N n) = false.
Proof.
  unfold digits_of_N. rewrite to_uint_normal. unfold Decimal.unorm.
  destruct (Decimal.nzhead (N.to_uint n)) as [|u|u|u|u|u|u|u|u|u|u] eqn:E;
    try (exfalso; eapply nzhead_not_D0; eassumption);
    simpl; eexists; eexists; (split; [reflexivity|]); (split; [reflexivity|]);
    try reflexivity;
    destruct (NilEmpty.string_of_uint u); reflexivity.
Qed.

Lemma N_of_digits_of_N (n : N) : N_of_digits (digits_of_N n) = n.
Proof.
  unfold N_of_digits, digits_of_N. rewrite NilEmpty.usu.
  apply DecimalN.Unsigned.of_to.
Qed.

Lemma signed_abs (z : Z) : signed (z <? 0) (Z.abs_N z) = z.
Proof.
  unfold signed. rewrite N2Z.inj_abs_N.
  destruct (Z.ltb_spec z 0); lia.
Qed.

Lemma string_app_nil_r (s : string) : s ++ "" = s.
Proof. induction s; simpl; congruence. Qed.

Lemma read_digits_of_N (n : N) (rest : string) :
  no_digit_ahead rest ->
  read_digits (digits_of_N n ++ rest) = Some (digits_of_N n, rest).
Proof.
  intros H. unfold read_digits, digits_of_N.
  rewrite span_digits_uint by exact H.
  destruct (digits_of_N_head n) as [c [r [Hs _]]].
  unfold digits_of_N in Hs. now rewrite Hs.
Qed.

Lemma digit_not_sign (c : ascii) :
  is_digit c = true -> (code c =? 45)%N = false /\ (code c =? 43)%N = false.
Proof.
  unfold is_digit. intros H. apply andb_true_iff in H.
  destruct H as [H _]. apply N.leb_le in H.
  split; apply N.eqb_neq; lia.
Qed.

Lemma read_sign_digits_of_Z (plus : bool) (z : Z) (rest : string) :
  read_sign plus (digits_of_Z z ++ rest)
  = (z <? 0, digits_of_N (Z.abs_N z) ++ rest).
Proof.
  unfold digits_of_Z. rewrite string_app_assoc.
  destruct (z <? 0); [reflexivity|].
  cbn [append].
  destruct (digits_of_N_head (Z.abs_N z)) as [c [r [Hs [Hc _]]]].
  rewrite Hs. cbn [append read_sign].
  destruct (digit_not_sign c Hc) as [-> ->].
  now rewrite andb_false_r.
Qed.

Lemma parse_exponent_print (e : Z) (rest : string) :
  delimited rest ->
  parse_exponent ((if e =? 0 then "" else "e" ++ digits_of_Z e) ++ rest)
  = Some (e, rest).
Proof.
  intros Hd. destruct (Z.eqb_spec e 0) as [->|He].
  - simpl. destruct rest as [|c r]; [reflexivity|].
    simpl in Hd. unfold parse_exponent.
    destruct Hd as [H | [H | H]]; rewrite H; reflexivity.
  - rewrite string_app_assoc. cbn [append parse_exponent].
    replace (((code "e" =? 101) || (code "e" =? 69))%N) with true
      by reflexivity.
    rewrite read_sign_digits_of_Z.
    rewrite read_digits_of_N by now apply delimited_no_digit.
    now rewrite N_of_digits_of_N, signed_abs.
Qed.

Lemma parse_fraction_none (rest : string) :
  match rest with
  | EmptyString => True
  | String c _ => (code c =? 46)%N = false
  end ->
  parse_fraction rest = Some ("", rest).
Proof.
  destruct rest as [|c r]; [reflexivity|].
  simpl. now intros ->.
Qed.

Lemma parse_number_print (n : number) (rest : string) :
  delimited rest ->
  parse_number (print_number n ++ rest) = Some (n, rest).
Proof.
  intros Hd. destruct n as [m e]. unfold print_number, parse_number.
  rewrite string_app_assoc.
  rewrite read_sign_digits_of_Z.
  set (tail := (if e =? 0 then "" else "e" ++ digits_of_Z e) ++ rest).
  assert (Htail : no_digit_ahead tail /\
                  match tail with
                  | EmptyString => True
                  | String c _ => (code c =? 46)%N = false
                  end).
  { unfold tail. destruct (e =? 0).
    - cbn [append]. split; [now apply delimited_no_digit|].
      destruct rest as [|c r]; [exact I|].
      simpl in Hd. destruct Hd as [H | [H | H]]; rewrite H; reflexivity.
    - split; reflexivity. }
  destruct Htail as [Hnd Hfrac].
  rewrite read_digits_of_N by exact Hnd.
  destruct (digits_of_N_head (Z.abs_N m)) as [c [r [_ [_ ->]]]].
  rewrite parse_fraction_none by exact Hfrac.
  unfold tail. rewrite parse_exponent_print by exact Hd.
  rewrite string_app_nil_r, N_of_digits_of_N, signed_abs.
  simpl String.length. now rewrite Z.sub_0_r.
Qed.

Lemma print_number_head (n : number) :
  exists c r, print_number n = String c r
              /\ (is_digit c = true \/ code c = 45%N).
Proof.
  destruct n as [m e]. unfold print_number, digits_of_Z.
  destruct (m <? 0).
  - eexists; eexists; split; [reflexivity | right; reflexivity].
  - destruct (digits_of_N_head (Z.abs_N m)) as [c [r [Hs [Hc _]]]].
    rewrite Hs. eexists; eexists; split; [reflexivity | left; exact Hc].
Qed.

Lemma parse_chars_escape_char (c : ascii) (r : string) :
  parse_chars (escape_char c ++ r) = prepend (String c "") (parse_chars r).
Proof.
  destruct c as [[] [] [] [] [] [] [] []]; reflexivity.
Qed.

Lemma parse_chars_escape (s rest : string) :
  parse_chars (escape s ++ String dquote rest) = Some (s, rest).
Proof.
  induction s as [|c s IH].
  - reflexivity.
  - cbn [escape]. rewrite string_app_assoc, parse_chars_escape_char, IH.
    reflexivity.
Qed.

Lemma quote_app (s rest : string) :
  quote s ++ rest = String dquote (escape s ++ String dquote rest).
Proof.
  unfold quote. cbn [append]. now rewrite string_app_assoc.
Qed.

Lemma elements_cons (x : json) (l : list json) :
  elements (x :: l)
  = stringify x ++ match l with
                   | [] => "]"
                   | _ => "," ++ elements l
                   end.
Proof. destruct l; reflexivity. Qed.

Lemma members_cons (k : string) (x : json) (fs : list (string * json)) :
  members ((k, x) :: fs)
  = quote k ++ ":" ++ stringify x ++ match fs with
                                     | [] => "}"
                                     | _ => "," ++ members fs
                                     end.
Proof. destruct fs; reflexivity. Qed.

Lemma stringify_array (l : list json) :
  stringify (JArray l) = String "[" (elements l).
Proof. reflexivity. Qed.

Lemma stringify_object (fs : list (string * json)) :
  stringify (JObject fs) = String "{" (members fs).
Proof. reflexivity. Qed.

Lemma size_array (l : list json) : size (JArray l) = S (sizes l).
Proof. reflexivity. Qed.

Lemma size_object (fs : list (string * json)) :
  size (JObject fs) = S (field_sizes fs).
Proof. reflexivity. Qed.

Lemma sizes_cons (x : json) (l : list json) :
  sizes (x :: l) = S (size x + sizes l).
Proof. reflexivity. Qed.

Lemma field_sizes_cons (k : string) (x : json) (fs : list (string * json)) :
  field_sizes ((k, x) :: fs) = S (size x + field_sizes fs).
Proof. reflexivity. Qed.

Lemma stringify_head (j : json) :
  exists c r, stringify j = String c r /\ value_start c = true.
Proof.
  destruct j as [|[]|n|s|l|fs];
    try (eexists; eexists; split; [reflexivity|reflexivity]).
  destruct (print_number_head n) as [c [r [Hs Hc]]].
  exists c, r. split; [exact Hs|].
  unfold value_start, is_digit.
  destruct Hc as [Hc | ->]; [unfold is_digit in Hc; rewrite Hc|];
    reflexivity.
Qed.

Lemma parse_value_number (fuel : nat) (c : ascii) (r : string) :
  is_digit c = true \/ code c = 45%N ->
  parse_value (S fuel) (String c r)
  = match parse_number (String c r) with
    | Some (n, rest) => Some (JNumber n, rest)
    | None => None
    end.
Proof.
  destruct c as [[] [] [] [] [] [] [] []];
    intros [H|H]; try discriminate H; reflexivity.
Qed.

Lemma parse_value_string (fuel : nat) (r : string) :
  parse_value (S fuel) (String dquote r)
  = match parse_chars r with
    | Some (str, rest) => Some (JString str, rest)
    | None => None
    end.
Proof. reflexivity. Qed.

Lemma parse_value_array (fuel : nat) (r : string) :
  expect 93 (skip_ws r) = None ->
  parse_value (S fuel) (String "[" r)
  = match parse_elements fuel r with
    | Some (items, rest) => Some (JArray items, rest)
    | None => None
    end.
Proof. intros H. cbn. now rewrite H. Qed.

Lemma parse_value_object (fuel : nat) (r : string) :
  expect 125 (skip_ws r) = None ->
  parse_value (S fuel) (String "{" r)
  = match parse_members fuel r with
    | Some (fields, rest) => Some (JObject fields, rest)
    | None => None
    end.
Proof. intros H. cbn. now rewrite H. Qed.

Lemma value_start_skip (c : ascii) (r : string) :
  value_start c = true ->
  skip_ws (String c r) = String c r
  /\ expect 93 (String c r) = None
  /\ expect 125 (String c r) = None.
Proof.
  destruct c as [[] [] [] [] [] [] [] []];
    intros H; try discriminate H; repeat split; reflexivity.
Qed.

Lemma delimiter_skip (c : ascii) (r : string) :
  code c = 44%N \/ code c = 93%N \/ code c = 125%N ->
  skip_ws (String c r) = String c r.
Proof.
  unfold skip_ws, is_ws. intros [-> | [-> | ->]]; reflexivity.
Qed.

Lemma parse_elements_S (fuel : nat) (s : string) :
  parse_elements (S fuel) s
  = match parse_value fuel s with
    | None => None
    | Some (v, rest) =>
        match skip_ws rest with
        | String c r =>
            if (code c =? 93)%N then Some ([v], r)
            else if (code c =? 44)%N then
              match parse_elements fuel r with
              | Some (vs, rest') => Some (v :: vs, rest')
              | None => None
              end
            else None
        | EmptyString => None
        end
    end.
Proof. reflexivity. Qed.

Lemma parse_members_S (fuel : nat) (s : string) :
  parse_members (S fuel) s
  = match expect 34 (skip_ws s) with
    | None => None
    | Some r0 =>
        match parse_chars r0 with
        | None => None
        | Some (key, r1) =>
            match expect 58 (skip_ws r1) with
            | None => None
            | Some r2 =>
                match parse_value fuel r2 with
                | None => None
                | Some (v, rest) =>
                    match skip_ws rest with
                    | String c r =>
                        if (code c =? 125)%N then Some ([(key, v)], r)
                        else if (code c =? 44)%N then
                          match parse_members fuel r with
                          | Some (fs, rest') => Some ((key, v) :: fs, rest')
                          | None => None
                          end
                        else None
                    | EmptyString => None
                    end
                end
            end
        end
    end.
Proof. reflexivity. Qed.

Lemma reads_value_step (fuel : nat) :
  reads_elements fuel -> reads_members fuel -> reads_value (S fuel).
Proof.
  intros He Hm j rest Hsize Hd.
  destruct j as [|[]|n|s|l|fs]; try reflexivity.
  - change (stringify (JNumber n)) with (print_number n).
    destruct (print_number_head n) as [c [r [Hs Hc]]].
    rewrite Hs. cbn [append]. rewrite parse_value_number by exact Hc.
    change (String c (r ++ rest)) with (String c r ++ rest).
    rewrite <- Hs. now rewrite parse_number_print.
  - change (stringify (JString s)) with (quote s).
    rewrite quote_app, parse_value_string, parse_chars_escape. reflexivity.
  - rewrite stringify_array. cbn [append].
    destruct l as [|x l]; [reflexivity|].
    assert (Hx : expect 93 (skip_ws (elements (x :: l) ++ rest)) = None).
    { destruct (stringify_head x) as [c [r [Hs Hc]]].
      assert (E : exists r', elements (x :: l) ++ rest = String c r').
      { rewrite elements_cons, Hs. cbn [append]. eauto. }
      destruct E as [r' ->].
      destruct (value_start_skip c r' Hc) as [-> [-> _]]. reflexivity. }
    rewrite parse_value_array by exact Hx.
    rewrite He; [reflexivity | discriminate |].
    rewrite size_array in Hsize. lia.
  - rewrite stringify_object. cbn [append].
    destruct fs as [|[k x] fs]; [reflexivity|].
    assert (Hx : expect 125 (skip_ws (members ((k, x) :: fs) ++ rest)) = None).
    { assert (E : exists r', members ((k, x) :: fs) ++ rest
                             = String dquote r').
      { rewrite members_cons, !string_app_assoc, quote_app. eauto. }
      destruct E as [r' ->]. reflexivity. }
    rewrite parse_value_object by exact Hx.
    rewrite Hm; [reflexivity | discriminate |].
    rewrite size_object in Hsize. lia.
Qed.

Lemma read_key (k tail : string) :
  expect 34 (skip_ws (quote k ++ tail))
  = Some (escape k ++ String dquote tail).
Proof. rewrite quote_app. reflexivity. Qed.

Lemma expect_colon (r : string) :
  expect 58 (skip_ws (String ":" r)) = Some r.
Proof. reflexivity. Qed.

Lemma reads_elements_step (fuel : nat) :
  reads_value fuel -> reads_elements fuel -> reads_elements (S fuel).
Proof.
  intros Hv He l rest Hne Hsize.
  destruct l as [|x l]; [congruence|].
  rewrite sizes_cons in Hsize.
  rewrite parse_elements_S, elements_cons.
  destruct l as [|y l].
  - rewrite string_app_assoc.
    rewrite Hv; [| lia | simpl; auto].
    reflexivity.
  - rewrite !string_app_assoc.
    rewrite Hv; [| lia | simpl; auto].
    cbn [append].
    change (skip_ws (String "," ?r)) with (String "," r).
    change ((code "," =? 93)%N) with false.
    change ((code "," =? 44)%N) with true. cbv iota.
    rewrite He; [reflexivity | discriminate | lia].
Qed.

Lemma reads_members_step (fuel : nat) :
  reads_value fuel -> reads_members fuel -> reads_members (S fuel).
Proof.
  intros Hv Hm fs rest Hne Hsize.
  destruct fs as [|[k x] fs]; [congruence|].
  rewrite field_sizes_cons in Hsize.
  rewrite parse_members_S, members_cons.
  rewrite !string_app_assoc, read_key, parse_chars_escape.
  cbn [append]. rewrite expect_colon.
  destruct fs as [|[k' y] fs].
  - rewrite Hv; [| lia | simpl; auto].
    reflexivity.
  - cbn [append].
    rewrite Hv; [| lia | simpl; auto].
    change (skip_ws (String "," ?r)) with (String "," r).
    change ((code "," =? 125)%N) with false.
    change ((code "," =? 44)%N) with true. cbv iota.
    rewrite Hm; [reflexivity | discriminate | lia].
Qed.

Lemma reads_all (fuel : nat) :
  reads_value fuel /\ reads_elements fuel /\ reads_members fuel.
Proof.
  induction fuel as [|fuel [Hv [He Hm]]].
  - repeat split.
    + intros j rest Hs. destruct j; simpl in Hs; lia.
    + intros [|x l] rest Hne Hs; [congruence | simpl in Hs; lia].
    + intros [|[k x] l] rest Hne Hs; [congruence | simpl in Hs; lia].
  - repeat split.
    + now apply reads_value_step.
    + now apply reads_elements_step.
    + now apply reads_members_step.
Qed.

Lemma json_nested_ind (P : json -> Prop) :
  P JNull ->
  (forall b, P (JBool b)) ->
  (forall n, P (JNumber n)) ->
  (forall s, P (JString s)) ->
  (forall l, Forall P l -> P (JArray l)) ->
  (forall fs, Forall (fun kv => P (snd kv)) fs -> P (JObject fs)) ->
  forall j, P j.
Proof.
  intros Hnull Hbool Hnum Hstr Harr Hobj.
  fix IH 1. intros [|b|n|s|l|fs].
  - exact Hnull.
  - apply Hbool.
  - apply Hnum.
  - apply Hstr.
  - apply Harr. induction l as [|x l IHl]; constructor;
      [apply IH | exact IHl].
  - apply Hobj. induction fs as [|[k x] fs IHfs]; constructor;
      [apply IH | exact IHfs].
Qed.

Lemma length_string_app (a b : string) :
  String.length (a ++ b) = (String.length a + String.length b)%nat.
Proof. induction a; simpl; congruence. Qed.

Lemma size_le_length (j : json) :
  (size j <= 2 * String.length (stringify j))%nat.
Proof.
  induction j as [|b|n|s|l IH|fs IH] using json_nested_ind.
  - simpl; lia.
  - destruct b; simpl; lia.
  - destruct (stringify_head (JNumber n)) as [c [r [Hs _]]].
    rewrite Hs. simpl. lia.
  - destruct (stringify_head (JString s)) as [c [r [Hs _]]].
    rewrite Hs. simpl. lia.
  - rewrite size_array, stringify_array. cbn [String.length].
    assert (H : (sizes l <= 2 * String.length (elements l))%nat).
    { induction IH as [|x l Hx _ IHl]; [simpl; lia|].
      rewrite sizes_cons, elements_cons, length_string_app.
      destruct l;
        [simpl; lia | rewrite ?length_string_app; cbn [String.length]; lia]. }
    lia.
  - rewrite size_object, stringify_object. cbn [String.length].
    assert (H : (field_sizes fs <= 2 * String.length (members fs))%nat).
    { induction IH as [|[k x] fs Hx _ IHfs]; [simpl; lia|].
      rewrite field_sizes_cons, members_cons, !length_string_app.
      simpl snd in Hx.
      destruct fs;
        [simpl; lia | rewrite ?length_string_app; cbn [String.length]; lia]. }
    lia.
Qed.

Lemma parse_stringify (j : json) : parse (stringify j) = Some j.
Proof.
  unfold parse.
  destruct (reads_all (2 * String.length (stringify j) + 2)) as [Hv _].
  rewrite <- (string_app_nil_r (stringify j)) at 2.
  rewrite Hv; [reflexivity | | exact I].
  pose proof (size_le_length j). lia.
Qed.

Lemma stringify_inj (a b : json) : stringify a = stringify b -> a = b.
Proof.
  intros H. apply (f_equal parse) in H.
  rewrite !parse_stringify in H. now injection H.
Qed.

Lemma stringify_nonempty (j : json) : stringify j <> "".
Proof.
  destruct (stringify_head j) as [c [r [-> _]]]. discriminate.
Qed.

End ReferenceFacts.

(* ================================================================== *)
(** ** The properties on the example runs *)
(* ================================================================== *)

Module Runs.
Import Example.

#[local] Existing Instance Reference.runtime.

(** Evaluates what the reference engine keeps of a given text. *)
Ltac engine_keeps :=
  let held := fresh "held" in
  let H := fresh "H" in
  intros held H; vm_compute in H; injection H as <-; reflexivity.


Lemma translated_reachable : reachable env translated.
Proof.
  exists fresh. split.
  - split; [right|]; reflexivity.
  - apply later_request, later_request, later_refl.
Defined.

Lemma es_unaltered : unaltered (Column.varchar 10) "es".
Proof. engine_keeps. Defined.

Lemma translated_by_unaltered :
  reachable_by env language_unaltered translated.
Proof.
  exists fresh. split.
  - split; [right|]; reflexivity.
  - apply (served_request env language_unaltered fresh created
                          (ReqTranslate 1 "es")).
    + apply (served_request env language_unaltered fresh fresh
                            (ReqCreate 7 "Standup" "Hello team")).
      * apply served_refl.
      * exact I.
    + exact es_unaltered.
Defined.

(** The first [translate] of the example meeting misses the cache and
    stores a row; the second returns that row and changes nothing. *)
Lemma translate_twice_is_cache_hit_witness :
  exists t w1 row,
    meetings.translate env 1 "es" created = (Ok t, w1)
    /\ lookup_translation (db w1) 1 "es" = Some row
    /\ meetings.translate env 1 "es" w1 = (Ok (result_of_row row), w1)
    /\ same_translation (result_of_row row) t.
Proof.
  assert (H : exists t w1,
             meetings.translate env 1 "es" created = (Ok t, w1)
             /\ unaltered_translation t
             /\ is_string (tr_summary t) = true).
  { eexists; eexists. split; [vm_compute; reflexivity|].
    split; [|reflexivity].
    split; [engine_keeps|]. split; [engine_keeps|].
    split.
    - intros s Hs. vm_compute in Hs. injection Hs as <-. engine_keeps.
    - intros a Ha. vm_compute in Ha. injection Ha as <-. engine_keeps. }
  destruct H as [t [w1 [H [Hu Hs]]]].
  destruct (translate_twice_is_cache_hit env 1 "es" created w1 t H Hu Hs)
    as [row [H1 [_ [H2 H3]]]].
  exists t, w1, row. auto.
Defined.

(** C1, as the claim states it, at target languages wider than the
    [targetLanguage] column, which is declared [varchar(10)] while the
    router accepts any string.  For "Portuguese (Brazil)" the insert is
    refused: the first call fails after its two remote calls, and the
    second call makes the two remote calls again.  For "Portuguese "
    (one blank too wide) the row is stored under "Portuguese": the second
    call misses it, makes the two remote calls again and returns a
    Translation with another identity. *)
Lemma translate_twice_not_cached_counterexample :
  (exists e w1 w2,
      meetings.translate env 1 wide created = (Throw e, w1)
      /\ meetings.translate env 1 wide w1 = (Throw e, w2)
      /\ db w2 = db created
      /\ length (trace w2) = (length (trace w1) + 2)%nat)
  /\ (exists t w1 t' w2,
         meetings.translate env 1 padded created = (Ok t, w1)
         /\ meetings.translate env 1 padded w1 = (Ok t', w2)
         /\ tr_id t = 1 /\ tr_id t' = 2
         /\ length (trace w2) = (length (trace w1) + 2)%nat
         /\ w2 = duplicated).
Proof.
  split.
  - eexists; eexists; eexists.
    split; [vm_compute; reflexivity|].
    split; [vm_compute; reflexivity|].
    split; reflexivity.
  - eexists; eexists; eexists; eexists.
    split; [vm_compute; reflexivity|].
    split; [vm_compute; reflexivity|].
    repeat split; vm_compute; reflexivity.
Qed.

(** Key uniqueness at the world reached by create and translate. *)
Lemma translation_keys_unique_witness :
  reachable_by env language_unaltered translated
  /\ (forall d, db translated = Some d -> unique_keys d)
  /\ exists row,
      lookup_translation (db translated) 1 "es" = Some row
      /\ translation_key row = (1, "es")
      /\ meetings.translate env 1 "es" translated
         = (Ok (result_of_row row), translated).
Proof.
  destruct (translation_keys_unique env translated translated_by_unaltered)
    as [Hu Hcases].
  split; [exact translated_by_unaltered|]. split; [exact Hu|].
  destruct (Hcases 1 "es" es_unaltered) as [Hit | [[Hnone _] | [Hnone _]]].
  - exact Hit.
  - vm_compute in Hnone. discriminate Hnone.
  - vm_compute in Hnone. discriminate Hnone.
Defined.

(** C2, as the claim states it, in a reachable state: after the example
    meeting was translated twice for "Portuguese " (one blank wider than
    the column), the table holds two rows for the pair (1, "Portuguese").
    The second [translate] neither returned the existing row nor left
    the table alone: it inserted a duplicate. *)
Lemma duplicate_keys_counterexample :
  reachable env duplicated
  /\ exists d,
      db duplicated = Some d
      /\ map translation_key (translations d)
         = [(1, "Portuguese"); (1, "Portuguese")]
      /\ ~ unique_keys d.
Proof.
  split.
  - exists fresh. split.
    + split; [right|]; reflexivity.
    + apply later_request, later_request, later_request, later_refl.
  - eexists. split; [vm_compute; reflexivity|].
    split; [vm_compute; reflexivity|].
    unfold unique_keys. intros Hnd.
    vm_compute in Hnd.
    apply NoDup_cons_iff in Hnd. destruct Hnd as [Hin _].
    apply Hin. left. reflexivity.
Qed.

(** C4, as the claim states it, at a reply that fails: detection of
    "Hello team" is refused with "quota exceeded"; [create] throws that
    error and the tables are still empty, so no Meeting with a null
    [detectedLanguage] was created. *)
Lemma create_detection_failure_counterexample :
  respond env_detect_down 0 (CallDetect (detect_prompt "Hello team"))
  = Failed "quota exceeded"
  /\ meetings.create env_detect_down 7 "Standup" "Hello team" fresh
     = (Throw (Error "quota exceeded"),
        logged fresh [CallDetect (detect_prompt "Hello team")])
  /\ db (snd (meetings.create env_detect_down 7 "Standup" "Hello team"
                              fresh))
     = Some empty_database.
Proof. repeat split; vm_compute; reflexivity. Qed.

(** The example meeting is created with the language "en"; when the
    detection answers with a sentence, which does not fit the column of
    the language, the insert is refused and nothing is persisted. *)
Lemma create_detects_then_persists_witness :
  meetings.create env 7 "Standup" "Hello team" fresh
  = (Ok {| cr_id := 1; cr_detectedLanguage := "en" |}, created)
  /\ exists e,
      meetings.create env_sentence 7 "Standup" "Hello team" fresh
      = (Throw e, logged fresh [CallDetect (detect_prompt "Hello team")]).
Proof.
  split.
  - pose proof (create_detects_then_persists
                  env 7 "Standup" "Hello team" fresh
                  ltac:(discriminate) ltac:(discriminate)) as H.
    cbv zeta in H. simpl respond in H. simpl db in H.
    destruct H as [H Hk].
    rewrite Hk in H;
      [rewrite H; vm_compute; reflexivity
      | vm_compute; reflexivity ..].
  - pose proof (create_detects_then_persists
                  env_sentence 7 "Standup" "Hello team" fresh
                  ltac:(discriminate) ltac:(discriminate)) as H.
    cbv zeta in H. simpl respond in H. simpl db in H.
    destruct H as [H _].
    assert (Hs : stored_meeting empty_database (now fresh)
                   (create_values 7 "Standup" "Hello team"
                      (String_toLowerCase
                         (String_trim "The language is English.")))
                 = Throw (Error "Data too long for column"))
      by (vm_compute; reflexivity).
    rewrite Hs in H. eexists. exact H.
Defined.




(** Validation at 16 MiB, one byte over, and for a format outside the
    allow-list. *)
Lemma image_validation_boundary_witness :
  valid (validateImageForOCR maxSize "image/png") = true
  /\ meetings.createFromImage
       env 7 "Whiteboard" "data:image/png;base64,AAAA" "image/png"
       (maxSize + 1) fresh
     = (Throw (Error "Image too large. Maximum size is 16MB, got 16.00MB"),
        fresh)
  /\ meetings.createFromImage
       env 7 "Whiteboard" "data:image/bmp;base64,AAAA" "image/bmp"
       1024 fresh
     = (Throw (Error (unsupported "image/bmp")), fresh).
Proof.
  split; [|split].
  - destruct (image_validation_boundary
                env 7 "Whiteboard" "data:image/png;base64,AAAA" "image/png"
                maxSize fresh) as [_ [H _]].
    rewrite H. reflexivity.
  - destruct (image_validation_boundary
                env 7 "Whiteboard" "data:image/png;base64,AAAA" "image/png"
                (maxSize + 1) fresh) as [_ [_ [H _]]].
    destruct (H ltac:(reflexivity)) as [_ [_ Hc]].
    rewrite (Hc ltac:(discriminate)). reflexivity.
  - destruct (image_validation_boundary
                env 7 "Whiteboard" "data:image/bmp;base64,AAAA" "image/bmp"
                1024 fresh) as [_ [_ [_ H]]].
    destruct (H ltac:(discriminate) ltac:(reflexivity)) as [_ [_ Hc]].
    rewrite (Hc ltac:(discriminate)). reflexivity.
Defined.

(** An image whose OCR reply holds an empty text. *)
Lemma empty_ocr_creates_no_meeting_witness :
  let run :=
    meetings.createFromImage
      env 7 "Whiteboard" "data:image/png;base64,AAAA" "image/png" 1024
      fresh in
  exists put url,
    run = (Throw (Error "No text could be extracted from the image"),
           logged fresh [put; CallOCR url])
    /\ db (snd run) = Some empty_database.
Proof.
  intros run. eexists; eexists.
  destruct (empty_ocr_creates_no_meeting
              env 7 "Whiteboard" "data:image/png;base64,AAAA" "image/png"
              1024 fresh
              "https://blob.example/meetings/7/V1StGXR8.png"
              empty_ocr_reply)
    as [H1 H2].
  - discriminate.
  - reflexivity.
  - reflexivity.
  - reflexivity.
  - vm_compute. reflexivity.
  - split; [exact H1 | exact H2].
Defined.

(** A prose reply is returned as the summary, and stored. *)
Lemma unparseable_summary_falls_back_witness :
  JSON_parse prose_reply = None
  /\ exists t w',
      meetings.translate env_prose 1 "es" created = (Ok t, w')
      /\ tr_summary t = JString prose_reply
      /\ option_map Translation.summary
                    (lookup_translation (db w') 1 "es")
         = Some (Some prose_reply).
Proof.
  assert (Hp : JSON_parse prose_reply = None) by (vm_compute; reflexivity).
  split; [exact Hp|].
  destruct (unparseable_summary_falls_back env_prose prose_reply Hp)
    as [_ H].
  destruct (H 1 "es" created (with_meeting empty_database
              {| Meeting.id := 1;
                 Meeting.userId := 7;
                 Meeting.title := "Standup";
                 Meeting.originalContent := "Hello team";
                 Meeting.detectedLanguage := Some "en";
                 Meeting.imageUrl := None;
                 Meeting.imageKey := None;
                 Meeting.createdAt := 1700000000;
                 Meeting.updatedAt := 1700000000 |})
              {| Meeting.id := 1;
                 Meeting.userId := 7;
                 Meeting.title := "Standup";
                 Meeting.originalContent := "Hello team";
                 Meeting.detectedLanguage := Some "en";
                 Meeting.imageUrl := None;
                 Meeting.imageKey := None;
                 Meeting.createdAt := 1700000000;
                 Meeting.updatedAt := 1700000000 |}
              "Hola equipo")
    as [_ Hk]; try reflexivity.
  destruct Hk as [t [w' [Ht [_ [Hs Hl]]]]];
    try (vm_compute; reflexivity).
  exists t, w'. split; [exact Ht|]. split; [exact Hs|].
  rewrite Hl. reflexivity.
Defined.

(** C8, as the claim states it, at a summarization reply of 66000 bytes
    of prose: [summarizeMeetingNotes] returns the reply as the summary,
    yet the enclosing [translate] does not succeed: the [summary] column
    does not hold the text, the insert is refused after both remote
    calls and no Translation is stored. *)
Lemma unparseable_summary_refused_counterexample :
  JSON_parse long_prose = None
  /\ fst (summarizeMeetingNotes env_long_prose "Hola equipo" created)
     = Ok (fallback_summary long_prose)
  /\ exists w',
      meetings.translate env_long_prose 1 "es" created
      = (Throw (Error "Data too long for column"), w')
      /\ length (trace w') = (length (trace created) + 2)%nat
      /\ db w' = db created.
Proof.
  assert (Hp : JSON_parse long_prose = None) by (vm_compute; reflexivity).
  split; [exact Hp|].
  split.
  { unfold summarizeMeetingNotes.
    rewrite (bind_ok _ _ _ _ _
               (remote_text env_long_prose
                            (CallSummarize (summarize_prompt "Hola equipo"))
                            created long_prose eq_refl)).
    unfold ret, summary_of_text. now rewrite Hp. }
  eexists.
  split; [vm_compute; reflexivity|].
  split; reflexivity.
Qed.

(** Deleting the example meeting removes its Spanish translation. *)
Lemma delete_cascades_to_translations_witness :
  lookup_translation (db translated) 1 "es" <> None
  /\ exists w',
      meetings.delete 1 translated = (Ok true, w')
      /\ getTranslation 1 "es" w' = (Ok None, w')
      /\ forall w'' L, later env w' w'' ->
                       getTranslation 1 L w'' = (Ok None, w'').
Proof.
  split; [vm_compute; discriminate|].
  assert (H : exists w', meetings.delete 1 translated = (Ok true, w')).
  { eexists. vm_compute. reflexivity. }
  destruct H as [w' H]. exists w'.
  destruct (delete_cascades_to_translations env 1 translated w' true H)
    as [_ [Hnow Hlater]].
  split; [exact H|]. split; [apply Hnow|].
  apply Hlater.
  - exact translated_reachable.
  - vm_compute. discriminate.
Defined.

(** C10.  The failing inputs.  A summarization reply whose [summary] is
    the number 42 is kept as it is: the summary [translate] returns and
    serializes is a number, not a string, and the row reads back as the
    text "42".  A reply whose action item is an object with its own
    [toString] is stored as well, and export of that row throws a
    [TypeError]. *)
Theorem summary_field_is_not_validated :
  summary_of_text number_reply
  = {| ms_summary := JNumber (Dec 42 0);
       ms_actionItems := [];
       ms_keyPoints := [];
       ms_participants := None;
       ms_decisions := None |}
  /\ (exists t w1 t',
         meetings.translate env_number 1 "es" created = (Ok t, w1)
         /\ tr_summary t = JNumber (Dec 42 0)
         /\ tr_actionItems t
            = Some ("{" ++ str "summary" ++ ":42," ++ str "actionItems"
                    ++ ":[]," ++ str "keyPoints" ++ ":[]}")
         /\ meetings.translate env_number 1 "es" w1 = (Ok t', w1)
         /\ tr_summary t' = JString "42")
  /\ (exists t w1,
         meetings.translate env_object_item 1 "es" created = (Ok t, w1)
         /\ tr_actionItems t
            = Some ("{" ++ str "summary" ++ ":" ++ str "ok" ++ ","
                    ++ str "actionItems" ++ ":[{" ++ str "toString"
                    ++ ":1}]," ++ str "keyPoints" ++ ":[]}")
         /\ meetings.export 1 "es" w1 = (Throw TypeError, w1)).
Proof.
  split; [vm_compute; reflexivity|].
  split.
  - eexists; eexists; eexists.
    repeat split; vm_compute; reflexivity.
  - eexists; eexists.
    repeat split; vm_compute; reflexivity.
Qed.

End Runs.

(* ================================================================== *)
(** ** Further properties of the persistence layer and of the router *)
(* ================================================================== *)

Lemma insert_desc_perm {A} (key : A -> Z) (x : A) (l : list A) :
  Permutation (insert_desc key x l) (x :: l).
Proof.
  induction l as [|y r IH]; simpl; [apply Permutation_refl|].
  destruct (key y <=? key x); [apply Permutation_refl|].
  eapply perm_trans; [apply perm_skip, IH | apply perm_swap].
Qed.

Lemma order_desc_perm {A} (key : A -> Z) (l : list A) :
  Permutation (order_desc key l) l.
Proof.
  induction l as [|x l IH]; simpl; [constructor|].
  eapply perm_trans; [apply insert_desc_perm | now apply perm_skip].
Qed.

Lemma insert_desc_sorted {A} (key : A -> Z) (x : A) (l : list A) :
  newest_first key l -> newest_first key (insert_desc key x l).
Proof.
  unfold newest_first.
  induction 1 as [|y r Hs IH Hy]; simpl.
  - repeat constructor.
  - destruct (Z.leb_spec (key y) (key x)) as [Hle|Hgt].
    + constructor; [now constructor|].
      constructor; [exact Hle|].
      rewrite Forall_forall in *. intros z Hz. specialize (Hy z Hz). lia.
    + constructor; [exact IH|].
      rewrite Forall_forall in *. intros z Hz.
      apply (Permutation_in _ (insert_desc_perm key x r)) in Hz.
      destruct Hz as [<-|Hz]; [lia | auto].
Qed.

Lemma order_desc_sorted {A} (key : A -> Z) (l : list A) :
  newest_first key (order_desc key l).
Proof.
  induction l as [|x l IH]; simpl; [constructor|].
  now apply insert_desc_sorted.
Qed.

Lemma getUserMeetings_eval (user : Z) (w : World) :
  getUserMeetings user w
  = (Ok (order_desc Meeting.createdAt (meetings_of (db w) user)), w).
Proof.
  unfold getUserMeetings; unfold_m. destruct (db w); reflexivity.
Qed.

Lemma getMeetingTranslations_eval (meetingId : Z) (w : World) :
  getMeetingTranslations meetingId w
  = (Ok (order_desc Translation.createdAt
           (translations_of (db w) meetingId)), w).
Proof.
  unfold getMeetingTranslations; unfold_m. destruct (db w); reflexivity.
Qed.

Lemma find_filter_kept {A} (f keep : A -> bool) (l : list A) :
  (forall x, f x = true -> keep x = true) ->
  find f (filter keep l) = find f l.
Proof.
  intros H. induction l as [|a l IH]; simpl; [reflexivity|].
  destruct (keep a) eqn:Hk; simpl.
  - now rewrite IH.
  - destruct (f a) eqn:Hf; [|exact IH].
    apply H in Hf. congruence.
Qed.

Lemma find_filter_dropped {A} (f keep : A -> bool) (l : list A) :
  (forall x, f x = true -> keep x = false) ->
  find f (filter keep l) = None.
Proof.
  intros H. apply find_none_iff. intros x Hx.
  apply filter_In in Hx. destruct Hx as [_ Hk].
  destruct (f x) eqn:Hf; [|reflexivity].
  apply H in Hf. congruence.
Qed.

Lemma filter_all_kept {A} (keep : A -> bool) (l : list A) :
  (forall x, In x l -> keep x = true) -> filter keep l = l.
Proof.
  induction l as [|a l IH]; simpl; intros H; [reflexivity|].
  rewrite (H a (or_introl eq_refl)). f_equal. apply IH. auto.
Qed.

Lemma stored_same (w : World) (d : Database) :
  db w = Some d -> stored w d = w.
Proof. destruct w as [o t n]; simpl; intros ->; reflexivity. Qed.

Section Coverage.

Context {rt : Runtime} (env : Env).

Lemma handle_get_eval (id : Z) (w : World) :
  handle env (ReqGet id) w = (Ok (ResMeeting (lookup_meeting (db w) id)), w).
Proof.
  simpl. now rewrite (bind_ok _ _ _ _ _ (getMeetingById_eval id w)).
Qed.

Lemma handle_getTranslation_eval (M : Z) (L : string) (w : World) :
  handle env (ReqGetTranslation M L) w
  = (Ok (ResStored (lookup_translation (db w) M L)), w).
Proof.
  simpl. now rewrite (bind_ok _ _ _ _ _ (getTranslation_eval M L w)).
Qed.

Lemma fresh_meeting_id (w : World) (d : Database) :
  reachable env w -> db w = Some d ->
  find (fun r => Meeting.id r =? meetings_auto d) (meetings d) = None.
Proof.
  intros Hr Hdb.
  destruct (reachable_invariant env w Hr d Hdb) as [_ [Hm _]].
  apply find_none_iff. intros x Hx. apply Hm in Hx.
  apply Z.eqb_neq. lia.
Qed.

(** X1.  [meetings.list] answers with exactly the meetings of the calling
    user, each once, the newest first, and changes nothing. *)
Theorem list_returns_own_meetings_newest_first (user : Z) (w : World) :
  exists rows,
    meetings_queries.list user w = (Ok rows, w)
    /\ Permutation rows (meetings_of (db w) user)
    /\ newest_first Meeting.createdAt rows
    /\ (forall r, In r rows -> Meeting.userId r = user).
Proof.
  unfold meetings_queries.list. rewrite getUserMeetings_eval.
  eexists. split; [reflexivity|].
  split; [apply order_desc_perm|].
  split; [apply order_desc_sorted|].
  intros r Hr.
  apply (Permutation_in _ (order_desc_perm _ _)) in Hr.
  unfold meetings_of in Hr. destruct (db w) as [d|]; [|contradiction].
  apply filter_In in Hr. now apply Z.eqb_eq.
Qed.

(** X2.  A meeting created from text can be read back: in a reachable
    state, after [create] has returned an identifier, [get] on it answers
    the row with the caller as owner and no image, whose title, content
    and language are what the columns kept of the submitted title and
    content and of the detected language that [create] returned: these
    values themselves wherever the column did not alter them.  The row
    is in the owner's listing and every other user's listing is what it
    was. *)
Theorem created_meeting_reads_back
        (user : Z) (title content : string) (w w' : World)
        (r : CreateResult) :
  reachable env w ->
  meetings.create env user title content w = (Ok r, w') ->
  exists row,
    handle env (ReqGet (cr_id r)) w' = (Ok (ResMeeting (Some row)), w')
    /\ Meeting.id row = cr_id r
    /\ Meeting.userId row = user
    /\ Column_keeps (Column.varchar 255) title = Ok (Meeting.title row)
    /\ Column_keeps Column.text content = Ok (Meeting.originalContent row)
    /\ keeps_nullable (Column.varchar 10) (Some (cr_detectedLanguage r))
       = Ok (Meeting.detectedLanguage row)
    /\ (unaltered (Column.varchar 255) title -> Meeting.title row = title)
    /\ (unaltered Column.text content ->
        Meeting.originalContent row = content)
    /\ (unaltered (Column.varchar 10) (cr_detectedLanguage r) ->
        Meeting.detectedLanguage row = Some (cr_detectedLanguage r))
    /\ Meeting.imageUrl row = None
    /\ Meeting.imageKey row = None
    /\ Meeting.createdAt row = now w
    /\ (exists rows,
           meetings_queries.list user w' = (Ok rows, w') /\ In row rows)
    /\ (forall other,
           other <> user ->
           fst (meetings_queries.list other w')
           = fst (meetings_queries.list other w)).
Proof.
  intros Hr H. rewrite create_eval in H.
  destruct ((title =? "") || (content =? ""))%string; [discriminate|].
  cbv zeta in H.
  destruct (respond env (length (trace w)) (CallDetect (detect_prompt content)))
    as [text|msg]; [|discriminate].
  destruct (db w) as [d|] eqn:Hdb; [|discriminate].
  destruct (stored_meeting d (now w) _) as [row|e] eqn:Hs; [|discriminate].
  injection H as <- <-.
  apply stored_meeting_row in Hs.
  destruct Hs
    as [Hid [Hu [Hc [_ [Ht [[c [Hct Hck]] [[l [Hlt Hlk]] [Hiu Hik]]]]]]]].
  cbn [create_values im_userId im_title im_originalContent
       im_detectedLanguage im_imageUrl im_imageKey column_text
       nullable_text] in *.
  injection Hct as <-. injection Hlt as <-.
  exists row. rewrite handle_get_eval.
  cbn [db stored lookup_meeting with_meeting meetings cr_id
       cr_detectedLanguage].
  rewrite (find_snoc_new _ _ _ (fresh_meeting_id w d Hr Hdb))
    by (rewrite Hid; apply Z.eqb_refl).
  split; [reflexivity|]. split; [exact Hid|]. split; [exact Hu|].
  split; [exact Ht|]. split; [exact Hck|]. split; [exact Hlk|].
  split; [intros Hun; exact (Hun _ Ht)|].
  split; [intros Hun; exact (Hun _ Hck)|].
  split.
  { intros Hun. apply keeps_nullable_some in Hlk.
    destruct Hlk as [h [-> Hh]]. now rewrite (Hun _ Hh). }
  split; [simpl in Hiu; congruence|].
  split; [simpl in Hik; congruence|].
  split; [exact Hc|].
  unfold meetings_queries.list. split.
  - eexists. rewrite getUserMeetings_eval. split; [reflexivity|].
    apply (Permutation_in _ (Permutation_sym (order_desc_perm _ _))).
    cbn [db stored meetings_of with_meeting meetings].
    apply filter_In. split; [|rewrite Hu; apply Z.eqb_refl].
    apply in_app_iff. right. left. reflexivity.
  - intros other Hne. rewrite !getUserMeetings_eval. cbn [fst].
    cbn [db stored logged meetings_of with_meeting meetings].
    rewrite Hdb. cbn [meetings_of].
    rewrite filter_app. cbn [filter]. rewrite Hu.
    apply Z.eqb_neq in Hne. rewrite Z.eqb_sym in Hne. rewrite Hne.
    now rewrite List.app_nil_r.
Qed.

(** X3.  A meeting created from an image can be read back: in a reachable
    state, after [createFromImage] has returned, exactly two remote calls
    were made, the upload and the OCR call on the URL the upload answered
    with; the extracted text is not empty; and [get] on the returned
    identifier answers the row that holds the caller as owner and, in
    each text column, what the column kept of the value of the request:
    the title, the extracted text and the language as the driver sends
    them, the image URL and the storage key of the upload. *)
Theorem image_meeting_reads_back
        (user : Z) (title imageData mimeType : string) (fileSize : Z)
        (w w' : World) (r : CreateFromImageResult) :
  reachable env w ->
  meetings.createFromImage env user title imageData mimeType fileSize w
  = (Ok r, w') ->
  exists row,
    handle env (ReqGet (ci_id r)) w' = (Ok (ResMeeting (Some row)), w')
    /\ Meeting.userId row = user
    /\ Column_keeps (Column.varchar 255) title = Ok (Meeting.title row)
    /\ (exists content,
           column_text (ci_extractedText r) = Some content
           /\ Column_keeps Column.text content
              = Ok (Meeting.originalContent row))
    /\ (exists lang,
           nullable_text (ci_detectedLanguage r) = Some lang
           /\ keeps_nullable (Column.varchar 10) lang
              = Ok (Meeting.detectedLanguage row))
    /\ keeps_nullable Column.text (Some (ci_imageUrl r))
       = Ok (Meeting.imageUrl row)
    /\ keeps_nullable Column.text (Some (image_key env user mimeType w))
       = Ok (Meeting.imageKey row)
    /\ truthy (Some (ci_extractedText r)) = true
    /\ trace w' = (trace w ++ [image_put env user imageData mimeType w;
                               CallOCR (ci_imageUrl r)])%list.
Proof.
  intros Hr H. rewrite createFromImage_eval in H.
  destruct (title =? "")%string; [discriminate|].
  cbv zeta in H.
  destruct (negb (valid _)); [discriminate|].
  destruct (respond env (length (trace w)) _) as [url|msg]; [|discriminate].
  destruct (respond env (S (length (trace w))) _) as [text|msg];
    [|discriminate].
  destruct (negb (truthy (Some (extractedText (ocr_of_text text)))))
    eqn:Htext; [discriminate|].
  rewrite createMeeting_eval in H.
  cbn [db logged now] in H.
  destruct (db w) as [d|] eqn:Hdb; [|discriminate].
  destruct (stored_meeting d (now w) _) as [row|e] eqn:Hs; [|discriminate].
  injection H as <- <-.
  apply stored_meeting_row in Hs.
  destruct Hs as [Hid [Hu [_ [_ [Ht [Hc [Hl [Hiu Hik]]]]]]]].
  cbn [im_userId im_title im_originalContent im_detectedLanguage
       im_imageUrl im_imageKey] in *.
  exists row. rewrite handle_get_eval.
  cbn [db stored lookup_meeting with_meeting meetings ci_id].
  rewrite (find_snoc_new _ _ _ (fresh_meeting_id w d Hr Hdb))
    by (rewrite Hid; apply Z.eqb_refl).
  split; [reflexivity|].
  split; [exact Hu|]. split; [exact Ht|].
  split; [exact Hc|]. split; [exact Hl|].
  split; [exact Hiu|]. split; [exact Hik|].
  split; [now apply negb_false_iff in Htext|].
  reflexivity.
Qed.

(** X4.  A deleted meeting is gone for the readers: after a successful
    [delete], [get] on the identifier answers nothing, and [translate] and
    [export] for it, whatever the language, fail with "Meeting not found"
    without a remote call or a write. *)
Theorem deleted_meeting_is_not_found
        (id : Z) (w w' : World) (b : bool) :
  meetings.delete id w = (Ok b, w') ->
  b = true
  /\ handle env (ReqGet id) w' = (Ok (ResMeeting None), w')
  /\ (forall L,
         meetings.translate env id L w'
         = (Throw (Error "Meeting not found"), w'))
  /\ (forall L,
         meetings.export id L w' = (Throw (Error "Meeting not found"), w')).
Proof.
  intros H. rewrite delete_eval in H.
  destruct (db w) as [d|] eqn:Hdb; [|discriminate].
  injection H as <- <-.
  assert (Hm : lookup_meeting (db (stored w (without_meeting d id))) id
               = None).
  { simpl. apply find_filter_dropped.
    intros x Hx. now rewrite Hx. }
  assert (Ht : forall L,
             lookup_translation (db (stored w (without_meeting d id))) id L
             = None).
  { intros L. simpl. apply find_filter_dropped.
    intros x Hx. unfold translation_matches in Hx.
    apply andb_true_iff in Hx. destruct Hx as [Hx _]. now rewrite Hx. }
  split; [reflexivity|].
  split; [rewrite handle_get_eval, Hm; reflexivity|].
  split; intros L.
  - unfold meetings.translate.
    rewrite (bind_ok _ _ _ _ _ (getTranslation_eval id L _)), Ht.
    rewrite (bind_ok _ _ _ _ _ (getMeetingById_eval id _)), Hm.
    reflexivity.
  - rewrite export_eval, Hm. reflexivity.
Qed.

(** X5.  Deleting one meeting leaves the others alone: for every other
    identifier, [get], [getTranslation] and [export] answer after the
    delete what they answered before, and the listing of a user loses the
    deleted meeting only. *)
Theorem delete_leaves_other_meetings
        (id : Z) (w w' : World) (b : bool) :
  meetings.delete id w = (Ok b, w') ->
  (forall other,
      other <> id ->
      fst (handle env (ReqGet other) w') = fst (handle env (ReqGet other) w)
      /\ forall L,
          fst (handle env (ReqGetTranslation other L) w')
          = fst (handle env (ReqGetTranslation other L) w)
          /\ fst (meetings.export other L w')
             = fst (meetings.export other L w))
  /\ (forall user,
         meetings_of (db w') user
         = filter (fun r => negb (Meeting.id r =? id))
                  (meetings_of (db w) user)).
Proof.
  intros H. rewrite delete_eval in H.
  destruct (db w) as [d|] eqn:Hdb; [|discriminate].
  injection H as <- <-.
  split.
  - intros other Hne.
    assert (Hm : lookup_meeting (db (stored w (without_meeting d id))) other
                 = lookup_meeting (db w) other).
    { rewrite Hdb. simpl. apply find_filter_kept.
      intros x Hx. apply Z.eqb_eq in Hx. rewrite Hx.
      apply negb_true_iff, Z.eqb_neq, Hne. }
    assert (Ht : forall L,
               lookup_translation (db (stored w (without_meeting d id)))
                                  other L
               = lookup_translation (db w) other L).
    { intros L. rewrite Hdb. simpl. apply find_filter_kept.
      intros x Hx. unfold translation_matches in Hx.
      apply andb_true_iff in Hx. destruct Hx as [Hx _].
      apply Z.eqb_eq in Hx. rewrite Hx.
      apply negb_true_iff, Z.eqb_neq, Hne. }
    split; [rewrite !handle_get_eval, Hm; reflexivity|].
    intros L. split.
    + rewrite !handle_getTranslation_eval, Ht. reflexivity.
    + rewrite !export_eval, Hm, Ht. reflexivity.
  - intros user. simpl.
    induction (meetings d) as [|m l IH]; simpl; [reflexivity|].
    destruct (Meeting.id m =? id) eqn:Ei, (Meeting.userId m =? user) eqn:Eu;
      simpl; rewrite ?Ei, ?Eu; simpl; rewrite IH; reflexivity.
Qed.

(** X6.  Deleting is idempotent, and deleting what is not there is a
    successful no-op: a delete repeated after a successful one succeeds
    again and leaves the world as the first left it; and in a reachable
    state with a database, a delete of an identifier that no meeting has
    reports success and changes nothing. *)
Theorem delete_again_changes_nothing (id : Z) (w : World) :
  (forall w' b,
      meetings.delete id w = (Ok b, w') ->
      meetings.delete id w' = (Ok true, w'))
  /\ (reachable env w -> db w <> None ->
      fst (handle env (ReqGet id) w) = Ok (ResMeeting None) ->
      meetings.delete id w = (Ok true, w)).
Proof.
  split.
  - intros w' b H. rewrite delete_eval in H.
    destruct (db w) as [d|] eqn:Hdb; [|discriminate].
    injection H as <- <-.
    rewrite delete_eval. cbn [db stored]. f_equal.
    unfold stored; cbn [trace now]. f_equal. f_equal.
    unfold without_meeting; cbn [meetings translations meetings_auto
                                  translations_auto].
    f_equal; apply filter_all_kept; intros x Hx;
      apply filter_In in Hx; apply Hx.
  - intros Hr Hdb Hget. rewrite handle_get_eval in Hget. cbn [fst] in Hget.
    rewrite delete_eval.
    destruct (db w) as [d|] eqn:Hd; [|congruence].
    destruct (reachable_invariant env w Hr d Hd) as [Hown _].
    simpl in Hget.
    assert (Hnone : find (fun r => Meeting.id r =? id) (meetings d) = None).
    { destruct (find _ (meetings d)); [discriminate | reflexivity]. }
    assert (Hmeet : forall m, In m (meetings d) ->
                              negb (Meeting.id m =? id) = true).
    { intros m Hm. now rewrite (find_none _ _ Hnone m Hm). }
    f_equal. rewrite <- (stored_same w d Hd) at 2. f_equal.
    unfold without_meeting. destruct d as [ms ts ma ta]; simpl in *.
    f_equal; apply filter_all_kept; [exact Hmeet|].
    intros x Hx. destruct (Hown x Hx) as [m [Hm He]].
    rewrite <- He. now apply Hmeet.
Qed.

Lemma db_step_from_none (fresh : bool) (o : option Database) :
  db_step fresh None o -> o = None.
Proof. intros H. inversion H; reflexivity. Qed.

(** X7.  Without a database handle nothing is read and nothing is
    written: [get] and [getTranslation] answer nothing and [list] answers
    the empty listing; [translate] and [export] fail with "Meeting not
    found" and [delete] with "Database not available", all three before
    any remote call; no request of the router ends with a database, and
    [create] and [createFromImage] never succeed. *)
Theorem without_database_nothing_is_stored (w : World) :
  db w = None ->
  (forall id, handle env (ReqGet id) w = (Ok (ResMeeting None), w))
  /\ (forall M L,
         handle env (ReqGetTranslation M L) w = (Ok (ResStored None), w))
  /\ (forall user, meetings_queries.list user w = (Ok [], w))
  /\ (forall M L,
         meetings.translate env M L w
         = (Throw (Error "Meeting not found"), w))
  /\ (forall M L,
         meetings.export M L w = (Throw (Error "Meeting not found"), w))
  /\ (forall id,
         meetings.delete id w
         = (Throw (Error "Database not available"), w))
  /\ (forall req, db (snd (handle env req w)) = None)
  /\ (forall user title content r w',
         meetings.create env user title content w <> (Ok r, w'))
  /\ (forall user title imageData mimeType fileSize r w',
         meetings.createFromImage env user title imageData mimeType
                                  fileSize w <> (Ok r, w')).
Proof.
  intros Hdb.
  split; [intros id; now rewrite handle_get_eval, Hdb|].
  split; [intros M L; now rewrite handle_getTranslation_eval, Hdb|].
  split.
  { intros user. unfold meetings_queries.list.
    now rewrite getUserMeetings_eval, Hdb. }
  split.
  { intros M L. unfold meetings.translate.
    rewrite (bind_ok _ _ _ _ _ (getTranslation_eval M L w)), Hdb.
    cbn [lookup_translation].
    rewrite (bind_ok _ _ _ _ _ (getMeetingById_eval M w)), Hdb.
    reflexivity. }
  split; [intros M L; now rewrite export_eval, Hdb|].
  split; [intros id; now rewrite delete_eval, Hdb|].
  split.
  { intros req. apply (db_step_from_none false). rewrite <- Hdb.
    apply handle_db_step. }
  split.
  - intros user title content r w' H. rewrite create_eval, Hdb in H.
    destruct ((title =? "") || (content =? ""))%string; [discriminate|].
    cbv zeta in H. destruct (respond _ _ _); discriminate.
  - intros user title imageData mimeType fileSize r w' H.
    rewrite createFromImage_eval in H.
    destruct (title =? "")%string; [discriminate|].
    cbv zeta in H.
    destruct (negb (valid _)); [discriminate|].
    destruct (respond env (length (trace w)) _); [|discriminate].
    destruct (respond env (S (length (trace w))) _); [|discriminate].
    destruct (negb (truthy _)); [discriminate|].
    rewrite createMeeting_eval in H. cbn [db logged] in H.
    rewrite Hdb in H. discriminate.
Qed.

(** X8.  [createFromImage] does not take an upload back: once the title
    and the image have passed validation, every failure of the request
    (refused upload, failed OCR, empty text, refused insert) comes after
    the image was sent to the blob store; the failure leaves the tables as
    they were and the upload in the trace, followed by at most the OCR
    call. *)
Theorem failed_image_request_keeps_upload
        (user : Z) (title imageData mimeType : string) (fileSize : Z)
        (w w' : World) (e : exn) :
  title <> "" ->
  valid (validateImageForOCR fileSize mimeType) = true ->
  meetings.createFromImage env user title imageData mimeType fileSize w
  = (Throw e, w') ->
  db w' = db w
  /\ now w' = now w
  /\ exists calls,
      trace w' = (trace w ++ image_put env user imageData mimeType w
                             :: calls)%list
      /\ (length calls <= 1)%nat.
Proof.
  intros Ht Hv H. rewrite createFromImage_eval in H.
  apply String.eqb_neq in Ht. rewrite Ht in H. cbv zeta in H.
  rewrite Hv in H. cbn [negb] in H.
  destruct (respond env (length (trace w)) _) as [url|msg].
  2:{ injection H as <- <-. split; [reflexivity|]. split; [reflexivity|].
      exists []. split; [reflexivity | simpl; lia]. }
  assert (Hdone : db w' = db w /\ now w' = now w
                  /\ trace w' = (trace w ++
                                 [image_put env user imageData mimeType w;
                                  CallOCR url])%list).
  { destruct (respond env (S (length (trace w))) _) as [text|msg].
    2:{ injection H as <- <-. repeat split. }
    destruct (negb (truthy _)).
    { injection H as <- <-. repeat split. }
    rewrite createMeeting_eval in H. cbn [db logged] in H.
    destruct (db w) as [d|] eqn:Hdb.
    2:{ injection H as <- <-. simpl. rewrite Hdb. repeat split. }
    destruct (stored_meeting _ _ _); [discriminate|].
    injection H as <- <-. simpl. rewrite Hdb. repeat split. }
  destruct Hdone as [H1 [H2 H3]].
  split; [exact H1|]. split; [exact H2|].
  exists [CallOCR url]. split; [exact H3 | simpl; lia].
Qed.

Lemma find_by_distinct_key {Row} (key : Row -> Z) (rows : list Row)
      (row : Row) :
  NoDup (map key rows) -> In row rows ->
  find (fun r => key r =? key row) rows = Some row.
Proof.
  induction rows as [|a rows IH]; simpl; intros Hnd Hin; [contradiction|].
  apply NoDup_cons_iff in Hnd. destruct Hnd as [Hfresh Hnd].
  destruct Hin as [->|Hin]; [now rewrite Z.eqb_refl|].
  destruct (Z.eqb_spec (key a) (key row)) as [He|_]; [|now apply IH].
  exfalso. apply Hfresh. rewrite He. now apply in_map.
Qed.

Lemma db_step_distinct_ids (fresh : bool) (o o' : option Database) :
  db_step fresh o o' ->
  (forall d, o = Some d -> ids_below_auto d /\ distinct_ids d) ->
  forall d', o' = Some d' -> ids_below_auto d' /\ distinct_ids d'.
Proof.
  intros Hs Hinv d' Hd'.
  destruct Hs as [o | d r Hid | d r m Hm Hmid Hrid Hnew | d id];
    auto;
    injection Hd' as <-;
    destruct (Hinv d eq_refl) as [[Hmi Hti] [Hmd Htd]];
    unfold ids_below_auto, distinct_ids in *; simpl.
  - repeat split; auto.
    + intros x Hx. apply in_app_iff in Hx.
      destruct Hx as [Hx|[<-|[]]]; [apply Hmi in Hx|]; lia.
    + rewrite map_app. apply NoDup_snoc; [exact Hmd|].
      intros Hin. apply in_map_iff in Hin. destruct Hin as [x [Hk Hx]].
      apply Hmi in Hx. lia.
  - repeat split; auto.
    + intros x Hx. apply in_app_iff in Hx.
      destruct Hx as [Hx|[<-|[]]]; [apply Hti in Hx|]; lia.
    + rewrite map_app. apply NoDup_snoc; [exact Htd|].
      intros Hin. apply in_map_iff in Hin. destruct Hin as [x [Hk Hx]].
      apply Hti in Hx. lia.
  - repeat split.
    + intros x Hx. apply filter_In in Hx. now apply Hmi.
    + intros x Hx. apply filter_In in Hx. now apply Hti.
    + now apply filter_keeps_keys_distinct.
    + now apply filter_keeps_keys_distinct.
Qed.

Lemma later_distinct_ids (w0 w : World) :
  later env w0 w ->
  (forall d, db w0 = Some d -> ids_below_auto d /\ distinct_ids d) ->
  forall d, db w = Some d -> ids_below_auto d /\ distinct_ids d.
Proof.
  induction 1 as [|w1 req Hl IH|w1 t Hl IH Ht]; intros H0; auto.
  eapply db_step_distinct_ids; [apply handle_db_step|]. now apply IH.
Qed.

(** X9.  Identifiers are never shared: in every reachable state the
    meetings have pairwise distinct identifiers and so have the
    translations (deleted rows included, since the counters only grow), so
    [get] on the identifier of a stored meeting answers that very row. *)
Theorem stored_meeting_is_found_by_its_id (w : World) (d : Database) :
  reachable env w -> db w = Some d ->
  distinct_ids d
  /\ forall row,
      In row (meetings d) ->
      handle env (ReqGet (Meeting.id row)) w
      = (Ok (ResMeeting (Some row)), w).
Proof.
  intros [w0 [[Hdb0 _] Hl]] Hdb.
  assert (H : ids_below_auto d /\ distinct_ids d).
  { apply (later_distinct_ids w0 w Hl); [|exact Hdb].
    intros d0 Hd0.
    destruct Hdb0 as [E|E]; rewrite E in Hd0; [discriminate|].
    injection Hd0 as <-.
    repeat split; simpl; try constructor; intros ? []. }
  destruct H as [_ Hd]. split; [exact Hd|].
  intros row Hin. rewrite handle_get_eval, Hdb. cbn [lookup_meeting].
  destruct Hd as [Hm _].
  now rewrite (find_by_distinct_key Meeting.id (meetings d) row Hm Hin).
Qed.

Lemma or_else_truthy (a : option json) (b : json) :
  truthy (Some b) = true -> truthy (Some (or_else a b)) = true.
Proof.
  intros Hb. unfold or_else. destruct a as [v|]; [|exact Hb].
  destruct (truthy (Some v)) eqn:Hv; [exact Hv | exact Hb].
Qed.

Lemma summary_of_parsed_value (parsed : json) :
  parsed <> JNull ->
  exists s a k p d,
    summary_of_parsed parsed
    = Ok {| ms_summary := or_else s (JString "No summary available");
            ms_actionItems := array_or_empty a;
            ms_keyPoints := array_or_empty k;
            ms_participants := array_or_undefined p;
            ms_decisions := array_or_undefined d |}
    /\ get parsed "summary" = Ok s
    /\ get parsed "actionItems" = Ok a
    /\ get parsed "keyPoints" = Ok k
    /\ get parsed "participants" = Ok p
    /\ get parsed "decisions" = Ok d.
Proof.
  intros Hn. unfold summary_of_parsed.
  destruct parsed; try congruence; simpl;
    do 5 eexists; repeat split; reflexivity.
Qed.

(** X10.  The summary is empty only when the provider said nothing:
    [summarizeMeetingNotes] returns for every reply, and the [summary] it
    returns is falsy only when the reply text was empty; a reply that
    parsed as JSON other than [null] always gets a truthy summary, the
    placeholder standing in for a missing or falsy one. *)
Theorem summary_is_empty_only_for_empty_reply
        (content text : string) (w : World) :
  respond env (length (trace w)) (summarize_call content) = Text text ->
  exists s,
    summarizeMeetingNotes env content w
    = (Ok s, logged w [summarize_call content])
    /\ (text <> "" -> truthy (Some (ms_summary s)) = true)
    /\ (forall parsed,
           JSON_parse text = Some parsed -> parsed <> JNull ->
           truthy (Some (ms_summary s)) = true).
Proof.
  intros Hr. exists (summary_of_text text).
  split.
  { unfold summarizeMeetingNotes.
    now rewrite (bind_ok _ _ _ _ _ (remote_text env _ _ _ Hr)). }
  assert (Hraw : text <> "" ->
                 truthy (Some (ms_summary (fallback_summary text))) = true).
  { intros Hne. simpl. now apply negb_true_iff, String.eqb_neq. }
  assert (Hparsed : forall parsed,
             JSON_parse text = Some parsed -> parsed <> JNull ->
             truthy (Some (ms_summary (summary_of_text text))) = true).
  { intros parsed Hp Hn. unfold summary_of_text. rewrite Hp.
    destruct (summary_of_parsed_value parsed Hn)
      as [sv [a [k [p [d [-> _]]]]]].
    cbn [ms_summary]. now apply or_else_truthy. }
  split; [|exact Hparsed].
  intros Hne.
  destruct (JSON_parse text) as [parsed|] eqn:Hp.
  - destruct parsed; try (apply (Hparsed _ eq_refl); discriminate).
    unfold summary_of_text. rewrite Hp. simpl.
    now apply negb_true_iff, String.eqb_neq.
  - unfold summary_of_text. rewrite Hp. now apply Hraw.
Qed.

(** X11.  A reply that is JSON but not an object loses its text.  When
    the reply parses to a string, a number, a boolean or an array,
    [summarizeMeetingNotes] returns the placeholder "No summary available"
    with empty lists, and nothing of the reply is kept; only a [null]
    reply (whose property access throws) is treated like unparseable
    text and returned raw. *)
Theorem non_object_reply_loses_its_text
        (content text : string) (parsed : json) (w : World) :
  respond env (length (trace w)) (summarize_call content) = Text text ->
  JSON_parse text = Some parsed ->
  (forall fields, parsed <> JObject fields) ->
  summarizeMeetingNotes env content w
  = (Ok (match parsed with
         | JNull => fallback_summary text
         | _ => {| ms_summary := JString "No summary available";
                   ms_actionItems := [];
                   ms_keyPoints := [];
                   ms_participants := None;
                   ms_decisions := None |}
         end),
     logged w [summarize_call content]).
Proof.
  intros Hr Hp Hobj. unfold summarizeMeetingNotes.
  rewrite (bind_ok _ _ _ _ _ (remote_text env _ _ _ Hr)).
  unfold ret, summary_of_text. rewrite Hp.
  destruct parsed; try reflexivity.
  now destruct (Hobj fields).
Qed.

Lemma list_section_missing (heading : string)
      (line : nat -> string -> string) :
  list_section heading None line = Throw TypeError.
Proof. reflexivity. Qed.

Lemma export_fails_without_lists
      (o t : string) (fields : list (string * json)) (src tgt : string)
      (g : Z) :
  own_property fields "actionItems" = None
  \/ own_property fields "keyPoints" = None ->
  exists e, formatSummaryForExport o t (JObject fields) src tgt g = Throw e.
Proof.
  intros H. unfold formatSummaryForExport. cbn [get obind].
  match goal with
  | |- context [obind ?c _] => destruct c as [ps|e]
  end; cbn [obind]; [|eauto].
  destruct H as [H|H].
  - rewrite H. rewrite list_section_missing. cbn [obind]. eauto.
  - match goal with
    | |- context [obind ?c _] => destruct c as [as'|e]
    end; cbn [obind]; [|eauto].
    rewrite H. rewrite list_section_missing. cbn [obind]. eauto.
Qed.

(** X12.  The ["{}"] fallback of [export] does not make it safe.  When the
    stored [actionItems] text parses to an object without an [actionItems]
    or without a [keyPoints] property, [export] throws (reading [.length]
    of [undefined]) instead of returning a document; in particular, for a
    row whose [actionItems] column is [NULL] or empty, the fallback ["{}"]
    is parsed and [export] ends with a [TypeError]. *)
Theorem export_throws_without_stored_lists
        (M : Z) (L : string) (w : World)
        (m : Meeting.row) (row : Translation.row) :
  lookup_meeting (db w) M = Some m ->
  lookup_translation (db w) M L = Some row ->
  (forall fields,
      JSON_parse (text_or (Translation.actionItems row) "{}")
      = Some (JObject fields) ->
      own_property fields "actionItems" = None
      \/ own_property fields "keyPoints" = None ->
      exists e, meetings.export M L w = (Throw e, w))
  /\ (JSON_parse "{}" = Some (JObject []) ->
      Translation.actionItems row = None
      \/ Translation.actionItems row = Some "" ->
      meetings.export M L w = (Throw TypeError, w)).
Proof.
  intros Hm Hr. split.
  - intros fields Hp Hmiss. rewrite export_eval, Hm, Hr, Hp.
    destruct (export_fails_without_lists
                (Meeting.originalContent m)
                (Translation.translatedContent row) fields
                (text_or (Meeting.detectedLanguage m) "unknown") L (now w)
                Hmiss) as [e ->].
    now exists e.
  - intros Hp Hnull. rewrite export_eval, Hm, Hr.
    assert (Ht : text_or (Translation.actionItems row) "{}" = "{}").
    { destruct Hnull as [-> | ->]; reflexivity. }
    rewrite Ht, Hp. reflexivity.
Qed.

Lemma handle_written (req : Request) (w : World) :
  (forall d, db w = Some d ->
             forall row, In row (translations d) ->
                         written_by_translate row) ->
  forall d, db (snd (handle env req w)) = Some d ->
            forall row, In row (translations d) -> written_by_translate row.
Proof.
  intros H.
  destruct req; simpl; unfold bind at 1.
  - rewrite getMeetingById_eval. exact H.
  - rewrite create_eval.
    destruct ((_ =? "") || _)%string; [exact H|].
    cbv zeta. destruct (respond _ _ _); [|exact H].
    destruct (db w) as [d|] eqn:Hdb; simpl; rewrite ?Hdb; [|discriminate].
    destruct (stored_meeting _ _ _) as [r|e]; simpl; rewrite ?Hdb.
    + intros d' [= <-]. exact (H d eq_refl).
    + intros d' [= <-]. exact (H d eq_refl).
  - rewrite createFromImage_eval.
    destruct (_ =? "")%string; [exact H|].
    cbv zeta.
    destruct (negb (valid _)); [exact H|].
    destruct (respond _ _ _); [|exact H].
    destruct (respond _ _ _); [|exact H].
    destruct (negb (truthy _)); [exact H|].
    rewrite createMeeting_eval. cbn [db logged now].
    destruct (db w) as [d|] eqn:Hdb; [|simpl; rewrite Hdb; discriminate].
    destruct (stored_meeting _ _ _) as [r|e]; simpl; rewrite ?Hdb;
      intros d' [= <-]; exact (H d eq_refl).
  - destruct (translate_meeting_cases env meetingId targetLanguage w)
      as [d row Hdb Hf | Hdb | d Hdb Hf Hm | d m msg Hdb Hf Hm Hr1
          | d m c msg Hdb Hf Hm Hr1 Hr2 | d m c text e Hdb Hf Hm Hr1 Hr2 Hs
          | d m c text row Hdb Hf Hm Hr1 Hr2 Hs];
      simpl; try exact H.
    intros d' [= <-] r Hin. cbn [translations with_translation] in Hin.
    apply in_app_iff in Hin. destruct Hin as [Hin|[<-|[]]].
    + exact (H d Hdb r Hin).
    + apply stored_translation_row in Hs.
      destruct Hs as [_ [_ [_ [_ [_ [_ [a [Ha Hk]]]]]]]].
      exists text, a. split; [exact Ha | exact Hk].
  - rewrite getTranslation_eval. exact H.
  - rewrite export_eval.
    match goal with
    | |- context [match ?o with Ok _ => _ | Throw _ => _ end] => destruct o
    end; exact H.
  - rewrite delete_eval.
    destruct (db w) as [d|] eqn:Hdb; simpl; rewrite ?Hdb; [|discriminate].
    intros d' [= <-] r Hin. cbn [translations without_meeting] in Hin.
    apply filter_In in Hin. exact (H d eq_refl r (proj1 Hin)).
Qed.

Lemma later_written (w0 w : World) :
  later env w0 w ->
  (forall d, db w0 = Some d ->
             forall row, In row (translations d) ->
                         written_by_translate row) ->
  forall d, db w = Some d ->
            forall row, In row (translations d) -> written_by_translate row.
Proof.
  induction 1 as [|w1 req Hl IH|w1 t Hl IH Ht]; intros H0.
  - exact H0.
  - apply handle_written. now apply IH.
  - simpl. now apply IH.
Qed.

(** X13.  What the [actionItems] column of a stored translation holds.
    In every reachable state every translation was written by
    [translate]: its [actionItems] column is not NULL and holds what the
    [text] column kept of [JSON.stringify] of the summary that
    [summarizeMeetingNotes] computed from a reply of the provider, which
    is the serialized summary itself when the column did not alter it;
    and in that summary [actionItems] and [keyPoints] are arrays and
    [participants] and [decisions] are arrays or absent. *)
Theorem stored_action_items_are_serialized_summaries
        (w : World) (d : Database) (row : Translation.row) :
  reachable env w ->
  db w = Some d -> In row (translations d) ->
  exists a text,
    let s := summary_of_text text in
    Translation.actionItems row = Some a
    /\ Column_keeps Column.text (JSON_stringify (json_of_summary s)) = Ok a
    /\ (unaltered Column.text (JSON_stringify (json_of_summary s)) ->
        a = JSON_stringify (json_of_summary s))
    /\ get (json_of_summary s) "actionItems"
       = Ok (Some (JArray (ms_actionItems s)))
    /\ get (json_of_summary s) "keyPoints"
       = Ok (Some (JArray (ms_keyPoints s)))
    /\ (forall v, get (json_of_summary s) "participants" = Ok (Some v) ->
                  exists l, v = JArray l)
    /\ (forall v, get (json_of_summary s) "decisions" = Ok (Some v) ->
                  exists l, v = JArray l).
Proof.
  intros [w0 [[Hinit _] Hl]] Hdb Hin.
  assert (Hw : written_by_translate row).
  { apply (later_written w0 w Hl) with (d := d); [|exact Hdb|exact Hin].
    intros d0 Hd0.
    destruct Hinit as [Hi|Hi]; rewrite Hi in Hd0; [discriminate|].
    injection Hd0 as <-. intros r []. }
  destruct Hw as [text [a [Ha Hk]]].
  exists a, text. cbv zeta.
  split; [exact Ha|]. split; [exact Hk|].
  split; [intros Hu; exact (Hu a Hk)|].
  destruct (get_summary_fields (summary_of_text text))
    as [_ [Hai [Hkp [Hp Hd]]]].
  split; [exact Hai|]. split; [exact Hkp|].
  split; intros v Hv.
  - rewrite Hp in Hv.
    destruct (ms_participants (summary_of_text text)) as [l|];
      [|discriminate].
    apply Ok_inj, Some_inj in Hv. now exists l.
  - rewrite Hd in Hv.
    destruct (ms_decisions (summary_of_text text)) as [l|];
      [|discriminate].
    apply Ok_inj, Some_inj in Hv. now exists l.
Qed.

Lemma find_by_unique_key (M : Z) (L : string) (rows : list Translation.row)
      (row : Translation.row) :
  NoDup (map translation_key rows) -> In row rows ->
  translation_key row = (M, L) ->
  find (translation_matches M L) rows = Some row.
Proof.
  induction rows as [|a rows IH]; simpl; intros Hnd Hin Hk; [contradiction|].
  apply NoDup_cons_iff in Hnd. destruct Hnd as [Hfresh Hnd].
  destruct Hin as [->|Hin].
  { apply translation_matches_key in Hk. now rewrite Hk. }
  destruct (translation_matches M L a) eqn:Ha; [|now apply IH].
  exfalso. apply Hfresh. apply translation_matches_key in Ha.
  rewrite Ha, <- Hk. now apply in_map.
Qed.

Lemma languages_distinct (M : Z) (rows : list Translation.row) :
  (forall r, In r rows ->
             translation_key r = (M, Translation.targetLanguage r)) ->
  NoDup (map translation_key rows) ->
  NoDup (map Translation.targetLanguage rows).
Proof.
  induction rows as [|a l IH]; simpl; intros Hkey Hnd; [constructor|].
  apply NoDup_cons_iff in Hnd. destruct Hnd as [Hfresh Hnd].
  constructor; [|apply IH; auto].
  intros Hin. apply Hfresh.
  apply in_map_iff in Hin. destruct Hin as [x [Hx Hin]].
  apply in_map_iff. exists x. split; [|exact Hin].
  rewrite (Hkey x (or_intror Hin)), (Hkey a (or_introl eq_refl)).
  now rewrite Hx.
Qed.

(** X14.  [getMeetingTranslations] lists the cache of one meeting: it
    answers exactly the stored translations of the meeting, the newest
    first, and, in a state reached through requests whose target
    language the [targetLanguage] column did not alter, with no target
    language twice; each of them is then the row [getTranslation]
    answers for its language. *)
Theorem meeting_translations_one_per_language (M : Z) (w : World) :
  reachable_by env language_unaltered w ->
  exists rows,
    getMeetingTranslations M w = (Ok rows, w)
    /\ Permutation rows (translations_of (db w) M)
    /\ newest_first Translation.createdAt rows
    /\ NoDup (map Translation.targetLanguage rows)
    /\ (forall r,
           In r rows ->
           handle env (ReqGetTranslation M (Translation.targetLanguage r)) w
           = (Ok (ResStored (Some r)), w)).
Proof.
  intros Hr. rewrite getMeetingTranslations_eval.
  eexists. split; [reflexivity|].
  pose proof (order_desc_perm Translation.createdAt
                              (translations_of (db w) M)) as Hperm.
  split; [exact Hperm|].
  split; [apply order_desc_sorted|].
  destruct (db w) as [d|] eqn:Hdb.
  2:{ simpl. split; [constructor | intros r []]. }
  pose proof (reachable_unique_keys env w Hr d Hdb) as Hu.
  cbn [translations_of] in *.
  assert (Hkey : forall r,
             In r (filter (fun r => Translation.meetingId r =? M)
                          (translations d)) ->
             translation_key r = (M, Translation.targetLanguage r)).
  { intros r Hin. apply filter_In in Hin. destruct Hin as [_ He].
    apply Z.eqb_eq in He. unfold translation_key. now rewrite He. }
  split.
  - apply (Permutation_NoDup
             (Permutation_sym
                (Permutation_map Translation.targetLanguage Hperm))).
    pose proof (filter_keeps_keys_distinct
                  translation_key
                  (fun r => Translation.meetingId r =? M)
                  (translations d) Hu) as Hnd.
    now apply (languages_distinct M).
  - intros r Hin.
    apply (Permutation_in _ Hperm) in Hin.
    rewrite handle_getTranslation_eval, Hdb. cbn [lookup_translation].
    rewrite (find_by_unique_key M (Translation.targetLanguage r)
               (translations d) r Hu); [reflexivity| |now apply Hkey].
    apply filter_In in Hin. apply Hin.
Qed.

(** X19.  [extractTextFromImage] never hands out the sentinel.  When the
    model call answers, the function returns: an empty text with
    confidence 0 when the trimmed reply is empty or is "NO_TEXT_FOUND",
    and otherwise the trimmed reply, which is then neither empty nor the
    sentinel, with confidence 1; no language is reported.  When the model
    call fails, the error is rethrown as "Failed to extract text from
    image: " followed by its message. *)
Theorem text_extraction_hides_the_sentinel
        (generateText : string -> M string) (imageUrl : string) (w : World) :
  match generateText imageUrl w with
  | (Ok text, w') =>
      exists r,
        extractTextFromImage generateText imageUrl w = (Ok r, w')
        /\ ocr_detectedLanguage r = None
        /\ ((extractedText r = JString "" /\ confidence r = Dec 0 0
             /\ (String_trim text = "" \/ String_trim text = "NO_TEXT_FOUND"))
            \/ (extractedText r = JString (String_trim text)
                /\ confidence r = Dec 1 0
                /\ String_trim text <> ""
                /\ String_trim text <> "NO_TEXT_FOUND"))
  | (Throw e, w') =>
      extractTextFromImage generateText imageUrl w
      = (Throw (Error ("Failed to extract text from image: "
                       ++ exn_message e)), w')
  end.
Proof.
  unfold extractTextFromImage, try_catch, bind, ret, throw.
  destruct (generateText imageUrl w) as [[text|e] w']; [|reflexivity].
  exists (text_result text). split; [reflexivity|].
  unfold text_result.
  destruct (String.eqb_spec (String_trim text) "NO_TEXT_FOUND") as [Hs|Hs];
    destruct (String.eqb_spec (String_trim text) "") as [He|He];
    cbn [orb ocr_detectedLanguage extractedText confidence];
    (split; [reflexivity|]);
    [left | left | left | right]; auto.
Qed.

Lemma includes_spec (l : list string) (s : string) :
  includes l s = true <-> In s l.
Proof.
  unfold includes. rewrite existsb_exists. split.
  - intros [x [Hin He]]. apply String.eqb_eq in He. now subst.
  - intros Hin. exists s. split; [exact Hin | apply String.eqb_refl].
Qed.

(** X20.  What the form lets through, the server's input checks accept.
    On a runtime whose [trim] keeps the empty string empty and whose
    [toLowerCase] keeps the five lower-case MIME types, a text submission
    the form sends is not refused by the schema of [create]; and an image
    the form kept, submitted with its title, passes the schema and
    [validateImageForOCR], so that the request gets as far as the upload,
    its first remote call. *)
Theorem form_submissions_pass_validation
        (user : Z) (title content base64Data : string)
        (file : NewMeeting.File) (request : Request) (w : World) :
  String_trim "" = "" ->
  (forall s, In s supportedFormats -> String_toLowerCase s = s) ->
  (NewMeeting.handleTextSubmit user title content
   = NewMeeting.Mutate request ->
   request = ReqCreate user title content
   /\ fst (handle env request w) <> Throw ZodError)
  /\ (NewMeeting.handleImageChange file = None ->
      NewMeeting.handleImageSubmit user title (Some file) base64Data
      = NewMeeting.Mutate request ->
      valid (validateImageForOCR (NewMeeting.size file)
                                 (NewMeeting.type file)) = true
      /\ exists calls,
          trace (snd (handle env request w))
          = (trace w
             ++ image_put env user base64Data (NewMeeting.type file) w
             :: calls)%list).
Proof.
  intros Htrim Hlower.
  assert (Hfilled : forall s, (String_trim s =? "")%string = false ->
                              (s =? "")%string = false).
  { intros s H. apply String.eqb_neq. intros ->.
    rewrite Htrim in H. discriminate. }
  split.
  - unfold NewMeeting.handleTextSubmit.
    destruct (String_trim title =? "")%string eqn:Ht; [discriminate|].
    destruct (String_trim content =? "")%string eqn:Hc; [discriminate|].
    cbn [orb]. intros H. injection H as <-.
    split; [reflexivity|].
    cbn [handle]. unfold bind at 1. rewrite create_eval.
    rewrite (Hfilled _ Ht), (Hfilled _ Hc). cbn [orb]. cbv zeta.
    destruct (respond _ _ _);
      [destruct (db w);
       [destruct (stored_meeting _ _ _) as [r|e] eqn:Hs|]|];
      try discriminate.
    cbn [fst]. intros [= ->].
    destruct (stored_meeting_error _ _ _ _ Hs) as [message Hm].
    discriminate.
  - unfold NewMeeting.handleImageChange, NewMeeting.handleImageSubmit.
    cbv zeta.
    destruct (16 * 1024 * 1024 <? NewMeeting.size file) eqn:Hsize;
      [discriminate|].
    destruct (includes NewMeeting.validTypes (NewMeeting.type file))
      eqn:Htype; [|discriminate].
    intros _.
    destruct (String_trim title =? "")%string eqn:Ht; [discriminate|].
    intros H. injection H as <-.
    assert (Hv : validateImageForOCR (NewMeeting.size file)
                                     (NewMeeting.type file)
                 = {| valid := true; error := None |}).
    { unfold validateImageForOCR.
      change maxSize with (16 * 1024 * 1024). rewrite Hsize.
      apply includes_spec in Htype.
      rewrite (Hlower _ Htype).
      apply includes_spec in Htype.
      change NewMeeting.validTypes with supportedFormats in Htype.
      now rewrite Htype. }
    split; [now rewrite Hv|].
    cbn [handle]. unfold bind at 1. rewrite createFromImage_eval.
    rewrite (Hfilled _ Ht), Hv. cbv zeta. cbn [valid negb].
    destruct (respond env (length (trace w)) _) as [url|msg].
    2:{ exists []. reflexivity. }
    exists [CallOCR url].
    destruct (respond env (S (length (trace w))) _);
      [|reflexivity].
    destruct (negb (truthy _)); [reflexivity|].
    rewrite createMeeting_eval. cbn [db logged].
    destruct (db w); [|reflexivity].
    destruct (stored_meeting _ _ _); reflexivity.
Qed.

Lemma until_sep_free (sep : ascii) (s : string) :
  free_of sep s = true -> until_sep sep s = s.
Proof.
  induction s as [|c r IH]; simpl; [reflexivity|].
  intros H. apply andb_true_iff in H. destruct H as [Hc Hr].
  apply negb_true_iff in Hc. rewrite Hc. now rewrite IH.
Qed.

Lemma split_second_free (sep : ascii) (s : string) :
  free_of sep s = true -> split_second sep s = None.
Proof.
  induction s as [|c r IH]; simpl; [reflexivity|].
  intros H. apply andb_true_iff in H. destruct H as [Hc Hr].
  apply negb_true_iff in Hc. rewrite Hc. now apply IH.
Qed.

Lemma split_second_at (sep : ascii) (head rest : string) :
  free_of sep head = true ->
  split_second sep (head ++ String sep rest) = Some (until_sep sep rest).
Proof.
  induction head as [|c r IH]; simpl.
  - intros _. now rewrite Ascii.eqb_refl.
  - intros H. apply andb_true_iff in H. destruct H as [Hc Hr].
    apply negb_true_iff in Hc. rewrite Hc. now apply IH.
Qed.

(** X21.  What [createFromImage] uploads, and under which key.  For a
    data URL, a header and a payload separated by the first comma, the
    payload alone is decoded and stored; image data without a comma is
    decoded as a whole, and so is a data URL whose payload is empty (the
    header then goes through the base64 decoder).  The storage key ends
    with the part of the MIME type after its slash, or with "jpg" when
    there is no such part. *)
Theorem upload_takes_payload_and_extension
        (user : Z) (imageData mimeType header payload kind subtype : string)
        (w : World) :
  free_of ","%char header = true ->
  free_of ","%char payload = true ->
  free_of "/"%char kind = true ->
  free_of "/"%char subtype = true ->
  (payload <> "" ->
   image_put env user (header ++ "," ++ payload) mimeType w
   = CallStoragePut (image_key env user mimeType w)
                    (Buffer_from_base64 payload) mimeType)
  /\ image_put env user (header ++ ",") mimeType w
     = CallStoragePut (image_key env user mimeType w)
                      (Buffer_from_base64 (header ++ ",")) mimeType
  /\ image_put env user payload mimeType w
     = CallStoragePut (image_key env user mimeType w)
                      (Buffer_from_base64 payload) mimeType
  /\ (subtype <> "" ->
      image_key env user (kind ++ "/" ++ subtype) w
      = "meetings/" ++ Number_toString (Dec user 0) ++ "/"
        ++ nanoid env (length (trace w)) ++ "." ++ subtype)
  /\ image_key env user kind w
     = "meetings/" ++ Number_toString (Dec user 0) ++ "/"
       ++ nanoid env (length (trace w)) ++ ".jpg"
  /\ forall title fileSize,
      title <> "" ->
      valid (validateImageForOCR fileSize mimeType) = true ->
      exists calls,
        trace (snd (meetings.createFromImage env user title imageData
                                             mimeType fileSize w))
        = (trace w ++ image_put env user imageData mimeType w :: calls)%list.
Proof.
  intros Hh Hp Hk Hs.
  assert (Hsecond : forall sep head rest fallback,
             free_of sep head = true -> free_of sep rest = true ->
             rest <> "" ->
             second_or sep (head ++ String sep rest) fallback = rest).
  { intros sep head rest fallback H1 H2 Hne. unfold second_or.
    rewrite (split_second_at sep head rest H1), (until_sep_free sep rest H2).
    apply String.eqb_neq in Hne. now rewrite Hne. }
  assert (Hnone : forall sep s fallback,
             free_of sep s = true -> second_or sep s fallback = fallback).
  { intros sep s fallback H. unfold second_or.
    now rewrite (split_second_free sep s H). }
  split.
  { intros Hne. unfold image_put.
    change (header ++ "," ++ payload) with (header ++ String ","%char payload).
    now rewrite (Hsecond _ _ _ _ Hh Hp Hne). }
  split.
  { unfold image_put.
    change (header ++ ",") with (header ++ String ","%char "").
    unfold second_or. now rewrite (split_second_at _ header "" Hh). }
  split.
  { unfold image_put. now rewrite (Hnone _ _ _ Hp). }
  split.
  { intros Hne. unfold image_key.
    change (kind ++ "/" ++ subtype) with (kind ++ String "/"%char subtype).
    now rewrite (Hsecond _ _ _ _ Hk Hs Hne). }
  split.
  { unfold image_key. now rewrite (Hnone _ _ _ Hk). }
  intros title fileSize Ht Hv.
  rewrite createFromImage_eval.
  apply String.eqb_neq in Ht. rewrite Ht. cbv zeta. rewrite Hv. cbn [negb].
  destruct (respond env (length (trace w)) _) as [url|msg].
  2:{ exists []. reflexivity. }
  exists [CallOCR url].
  destruct (respond env (S (length (trace w))) _); [|reflexivity].
  destruct (negb (truthy _)); [reflexivity|].
  rewrite createMeeting_eval. cbn [db logged].
  destruct (db w); [|reflexivity].
  destruct (stored_meeting _ _ _); reflexivity.
Qed.

Lemma lines_from_texts (line : nat -> string -> string) (items : list string)
      (idx : nat) :
  lines_from line idx (map JString items)
  = Ok (map (fun p => line (fst p) (snd p))
            (combine (seq idx (length items)) items)).
Proof.
  revert idx. induction items as [|x items IH]; intros idx; simpl;
    [reflexivity|].
  now rewrite IH.
Qed.

Lemma list_section_texts (heading : string) (items : list string)
      (line : nat -> string -> string) :
  list_section heading (Some (JArray (map JString items))) line
  = Ok (section_lines heading (indexed line items)).
Proof.
  unfold list_section, indexed. destruct items as [|x items];
    [reflexivity|].
  cbn [has_items map obind for_each].
  change (JString x :: map JString items) with (map JString (x :: items)).
  rewrite (lines_from_texts line (x :: items) 0). reflexivity.
Qed.

Lemma optional_section_texts (heading : string) (o : option (list string))
      (line : nat -> string -> string) :
  (if truthy (option_map JArray (option_map (map JString) o))
   then list_section heading (option_map JArray (option_map (map JString) o))
                     line
   else Ok [])
  = Ok (section_lines heading (indexed line (texts_or_none o))).
Proof.
  destruct o as [l|]; simpl; [apply list_section_texts | reflexivity].
Qed.

(** X22.  The exported document of a well-typed summary.  When the
    summary is as its interface declares it (texts only),
    [formatSummaryForExport] does not throw and returns exactly these
    lines, joined by line feeds: the title, the two upper-cased language
    codes, the generation time, the overview, then the sections
    Participants, Action Items, Key Points and Decisions Made, each left
    out when its list is empty or absent and otherwise holding one line
    per item in order (action items numbered from 1, the others
    bulleted), then the rule and the two fenced contents. *)
Theorem export_of_typed_summary
        (originalContent translatedContent summary source target : string)
        (actionItems keyPoints : list string)
        (participants decisions : option (list string)) (generated : Z) :
  formatSummaryForExport
    originalContent translatedContent
    (json_of_summary
       (typed_summary summary actionItems keyPoints participants decisions))
    source target generated
  = Ok (join LF
          (["# Meeting Summary";
            "";
            "**Languages:** " ++ String_toUpperCase source ++ " " ++ arrow
              ++ " " ++ String_toUpperCase target;
            "**Generated:** " ++ Date_toLocaleString generated;
            "";
            "## Overview";
            summary;
            ""]
           ++ section_lines "## Participants"
                (indexed bullet (texts_or_none participants))
           ++ section_lines "## Action Items" (indexed numbered actionItems)
           ++ section_lines "## Key Points" (indexed bullet keyPoints)
           ++ section_lines "## Decisions Made"
                (indexed bullet (texts_or_none decisions))
           ++ ["---"; "";
               "## Original Content"; fence; originalContent; fence; "";
               "## Translated Content"; fence; translatedContent; fence])).
Proof.
  unfold formatSummaryForExport.
  destruct (get_summary_fields
              (typed_summary summary actionItems keyPoints
                             participants decisions))
    as [-> [-> [-> [-> ->]]]].
  cbn [obind typed_summary ms_summary ms_actionItems ms_keyPoints
       ms_participants ms_decisions].
  rewrite (optional_section_texts "## Participants" participants bullet).
  cbn [obind].
  rewrite (list_section_texts "## Action Items" actionItems numbered).
  cbn [obind].
  rewrite (list_section_texts "## Key Points" keyPoints bullet).
  cbn [obind].
  rewrite (optional_section_texts "## Decisions Made" decisions bullet).
  cbn [obind join_element ToString].
  reflexivity.
Qed.

Lemma stored_translation_again (d d' : Database) (t t' : Z)
      (v : InsertTranslation) (r : Translation.row) :
  stored_translation d t v = Ok r ->
  stored_translation d' t' v
  = Ok {| Translation.id := translations_auto d';
          Translation.meetingId := Translation.meetingId r;
          Translation.targetLanguage := Translation.targetLanguage r;
          Translation.translatedContent := Translation.translatedContent r;
          Translation.summary := Translation.summary r;
          Translation.actionItems := Translation.actionItems r;
          Translation.createdAt := t' |}.
Proof.
  unfold stored_translation.
  destruct (nullable_text _) as [sent|]; [|discriminate].
  destruct (Column_keeps (Column.varchar 10) _) as [a|]; [|discriminate].
  cbn [obind].
  destruct (Column_keeps Column.text (it_translatedContent v)) as [b|];
    [|discriminate].
  cbn [obind].
  destruct (keeps_nullable Column.text sent) as [c|]; [|discriminate].
  cbn [obind].
  destruct (Column_keeps Column.text (it_actionItems v)) as [x|];
    [|discriminate].
  cbn [obind]. intros [= <-]. reflexivity.
Qed.

(** X23.  The persistence layer does not enforce the cache key.  The
    [translations] table has no unique index on (meetingId,
    targetLanguage): whenever [createTranslation] succeeds, the same
    call made again succeeds as well, hands out the next identifier and
    leaves two rows with the same key, so the uniqueness of keys rests
    on the lookup [translate] makes before it inserts. *)
Theorem createTranslation_accepts_duplicate_keys
        (t : InsertTranslation) (w w1 : World) (id1 : Z) :
  createTranslation t w = (Ok id1, w1) ->
  exists w2 d2 a b,
    createTranslation t w1 = (Ok (id1 + 1), w2)
    /\ db w2 = Some d2
    /\ In a (translations d2) /\ In b (translations d2)
    /\ Translation.id a = id1 /\ Translation.id b = id1 + 1
    /\ translation_key a = translation_key b
    /\ ~ unique_keys d2.
Proof.
  intros H1.
  rewrite createTranslation_eval in H1.
  destruct (db w) as [d|] eqn:Hdb; [|discriminate].
  destruct (stored_translation d (now w) t) as [r|e] eqn:Hs;
    [|discriminate].
  injection H1 as <- <-.
  rewrite createTranslation_eval. cbn [db stored now].
  rewrite (stored_translation_again d (with_translation d r) (now w)
                                    (now w) t r Hs).
  destruct (stored_translation_row d (now w) t r Hs) as [Hid _].
  eexists; eexists; exists r; eexists.
  split; [reflexivity|].
  split; [reflexivity|].
  cbn [translations with_translation].
  split; [apply in_app_iff; left; apply in_app_iff; right; left;
          reflexivity|].
  split; [apply in_app_iff; right; left; reflexivity|].
  split; [exact Hid|]. split; [reflexivity|]. split; [reflexivity|].
  unfold unique_keys. cbn [translations with_translation].
  rewrite !map_app. cbn [map]. intros Hnd.
  apply NoDup_remove_2 in Hnd. apply Hnd.
  apply in_app_iff. left. apply in_app_iff. right. left. reflexivity.
Qed.

Lemma fresh_meeting_has_no_translation (w : World) (d : Database)
      (L : string) :
  reachable env w -> db w = Some d ->
  find (translation_matches (meetings_auto d) L) (translations d) = None.
Proof.
  intros Hr Hdb.
  destruct (reachable_invariant env w Hr d Hdb) as [Hown [Hm _]].
  apply find_none_iff. intros x Hx.
  destruct (Hown x Hx) as [m [Hin He]]. apply Hm in Hin.
  unfold translation_matches.
  assert (Hne : (Translation.meetingId x =? meetings_auto d) = false)
    by (apply Z.eqb_neq; lia).
  now rewrite Hne.
Qed.

Lemma translate_first_call (M : Z) (L : string) (w : World) (d : Database)
      (m : Meeting.row) :
  db w = Some d ->
  find (translation_matches M L) (translations d) = None ->
  find (fun r => Meeting.id r =? M) (meetings d) = Some m ->
  exists calls,
    trace (snd (meetings.translate env M L w))
    = (trace w ++ translate_call m L :: calls)%list.
Proof.
  intros Hdb Hf Hm.
  pose proof (translate_meeting_cases env M L w) as C.
  inversion C as [d0 row Hdb0 Hf0 Heq | Hdb0 Heq | d0 Hdb0 Hf0 Hm0 Heq
                  | d0 m0 msg Hdb0 Hf0 Hm0 Hr1 Heq
                  | d0 m0 c msg Hdb0 Hf0 Hm0 Hr1 Hr2 Heq
                  | d0 m0 c text0 e Hdb0 Hf0 Hm0 Hr1 Hr2 Hs0 Heq
                  | d0 m0 c text0 s Hdb0 Hf0 Hm0 Hr1 Hr2 Hs0 Heq];
    try congruence;
    assert (d0 = d) by congruence; subst d0;
    try congruence;
    assert (m0 = m) by congruence; subst m0;
    cbn [snd trace logged stored];
    eexists; reflexivity.
Qed.

(** X29.  The language of a meeting made from an image, and what
    [translate] later tells the model about it.  In a reachable state
    with a database, for a valid image whose upload and OCR call answer,
    and whose title, URL and storage key the columns hold as given: when
    the OCR reply is not JSON and not blank, and the content column
    holds the trimmed reply as given, the meeting is stored with the
    trimmed reply as content and no language, and the translation prompt
    of that meeting names no source language; when the reply is a JSON
    object with a non-empty text that the content column holds as given
    and no (or a falsy) language, and the language column holds
    "unknown" as given, the language is stored as "unknown", and the
    translation prompt asks to translate "from unknown". *)
Theorem image_meeting_language
        (user : Z) (title imageData mimeType : string) (fileSize : Z)
        (w : World) (d : Database) (url text : string) :
  reachable env w -> db w = Some d ->
  title <> "" ->
  valid (validateImageForOCR fileSize mimeType) = true ->
  respond env (length (trace w))
          (image_put env user imageData mimeType w) = Text url ->
  respond env (S (length (trace w))) (CallOCR url) = Text text ->
  kept (Column.varchar 255) title ->
  kept Column.text url ->
  kept Column.text (image_key env user mimeType w) ->
  let run :=
    meetings.createFromImage env user title imageData mimeType fileSize w in
  (JSON_parse text = None -> String_trim text <> "" ->
   kept Column.text (String_trim text) ->
   exists r,
     fst run = Ok r
     /\ ci_extractedText r = JString (String_trim text)
     /\ ci_detectedLanguage r = None
     /\ (exists row,
            lookup_meeting (db (snd run)) (ci_id r) = Some row
            /\ Meeting.originalContent row = String_trim text
            /\ Meeting.detectedLanguage row = None)
     /\ forall L,
         exists calls,
           trace (snd (meetings.translate env (ci_id r) L (snd run)))
           = (trace (snd run)
              ++ CallTranslate ("Translate the following text into " ++ L
                                ++ ":" ++ LF ++ LF ++ String_trim text)
              :: calls)%list)
  /\ (forall fields content,
         JSON_parse text = Some (JObject fields) ->
         own_property fields "text" = Some (JString content) ->
         content <> "" ->
         truthy (own_property fields "language") = false ->
         kept Column.text content ->
         kept (Column.varchar 10) "unknown" ->
         exists r,
           fst run = Ok r
           /\ ci_extractedText r = JString content
           /\ ci_detectedLanguage r = Some (JString "unknown")
           /\ (exists row,
                  lookup_meeting (db (snd run)) (ci_id r) = Some row
                  /\ Meeting.originalContent row = content
                  /\ Meeting.detectedLanguage row = Some "unknown")
           /\ forall L,
               exists calls,
                 trace (snd (meetings.translate env (ci_id r) L (snd run)))
                 = (trace (snd run)
                    ++ CallTranslate
                         ("Translate the following text from unknown into "
                          ++ L ++ ":" ++ LF ++ LF ++ content)
                    :: calls)%list).
Proof.
  intros Hr Hdb Ht Hv Hput Hocr Hkt Hku Hkk run.
  assert (Hrun : forall content lang,
             extractedText (ocr_of_text text) = JString content ->
             content <> "" ->
             nullable_text (ocr_detectedLanguage (ocr_of_text text))
             = Some lang ->
             kept Column.text content ->
             kept_nullable (Column.varchar 10) lang ->
             run = (Ok {| ci_id := meetings_auto d;
                          ci_detectedLanguage :=
                            ocr_detectedLanguage (ocr_of_text text);
                          ci_extractedText := JString content;
                          ci_imageUrl := url |},
                    stored
                      (logged w [image_put env user imageData mimeType w;
                                 CallOCR url])
                      (with_meeting d
                         (meeting_row d (now w) user title content lang
                                      (Some url)
                                      (Some (image_key env user mimeType
                                                       w)))))).
  { intros content lang Hc Hne Hl Hkc Hkl. unfold run.
    rewrite createFromImage_eval.
    apply String.eqb_neq in Ht. rewrite Ht. cbv zeta.
    rewrite Hv, Hput, Hocr, Hc. cbn [negb truthy].
    apply String.eqb_neq in Hne. rewrite Hne. cbn [negb].
    rewrite createMeeting_eval. cbn [db logged now].
    rewrite Hdb.
    erewrite (stored_meeting_kept d (now w) _ content lang);
      [reflexivity | reflexivity | exact Hl | exact Hkt | exact Hkc
       | exact Hkl | | ];
      intros s [= <-]; assumption. }
  assert (Hafter : forall content lang r w',
             run = (Ok r, w') ->
             ci_id r = meetings_auto d ->
             w' = stored
                    (logged w [image_put env user imageData mimeType w;
                               CallOCR url])
                    (with_meeting d
                       (meeting_row d (now w) user title content lang
                                    (Some url)
                                    (Some (image_key env user mimeType w)))) ->
             (exists row,
                 lookup_meeting (db w') (ci_id r) = Some row
                 /\ Meeting.originalContent row = content
                 /\ Meeting.detectedLanguage row = lang)
             /\ forall L,
                 exists calls,
                   trace (snd (meetings.translate env (ci_id r) L w'))
                   = (trace w'
                      ++ CallTranslate
                           (translate_prompt content L
                                             (text_or_undefined lang))
                      :: calls)%list).
  { intros content lang r w' _ Hid ->. rewrite Hid.
    set (row := meeting_row d (now w) user title content lang (Some url)
                            (Some (image_key env user mimeType w))).
    assert (Hfind : find (fun r0 => Meeting.id r0 =? meetings_auto d)
                         (meetings (with_meeting d row)) = Some row).
    { cbn [meetings with_meeting].
      apply find_snoc_new; [exact (fresh_meeting_id w d Hr Hdb)|].
      simpl. apply Z.eqb_refl. }
    split.
    - exists row. cbn [db stored lookup_meeting]. now rewrite Hfind.
    - intros L.
      apply (translate_first_call (meetings_auto d) L _
                                  (with_meeting d row) row);
        [reflexivity | | exact Hfind].
      cbn [translations with_meeting].
      exact (fresh_meeting_has_no_translation w d L Hr Hdb). }
  split.
  - intros Hp Hne Hkc.
    assert (Ho : ocr_of_text text
                 = {| extractedText := JString (String_trim text);
                      ocr_detectedLanguage := None;
                      confidence := Dec 8 (-1) |}).
    { unfold ocr_of_text. now rewrite Hp. }
    pose proof (Hrun (String_trim text) None
                     ltac:(now rewrite Ho) Hne ltac:(now rewrite Ho) Hkc
                     ltac:(intros s; discriminate)) as E.
    rewrite Ho in E. cbn [ocr_detectedLanguage] in E.
    eexists. rewrite E. cbn [fst snd ci_extractedText ci_detectedLanguage].
    split; [reflexivity|]. split; [reflexivity|]. split; [reflexivity|].
    exact (Hafter (String_trim text) None _ _ E eq_refl eq_refl).
  - intros fields content Hp Htext Hne Hlang Hkc Hkl.
    assert (Ho : ocr_of_text text
                 = {| extractedText := JString content;
                      ocr_detectedLanguage := Some (JString "unknown");
                      confidence := Dec 1 0 |}).
    { unfold ocr_of_text. rewrite Hp. cbn [get]. rewrite Htext.
      unfold or_else at 1. cbn [truthy].
      apply String.eqb_neq in Hne. rewrite Hne. cbn [negb].
      f_equal. f_equal. unfold or_else.
      destruct (own_property fields "language") as [v|]; [|reflexivity].
      now rewrite Hlang. }
    pose proof (Hrun content (Some "unknown")
                     ltac:(now rewrite Ho) Hne ltac:(now rewrite Ho) Hkc
                     ltac:(intros s [= <-]; exact Hkl)) as E.
    rewrite Ho in E. cbn [ocr_detectedLanguage] in E.
    eexists. rewrite E. cbn [fst snd ci_extractedText ci_detectedLanguage].
    split; [reflexivity|]. split; [reflexivity|]. split; [reflexivity|].
    exact (Hafter content (Some "unknown") _ _ E eq_refl eq_refl).
Qed.

End Coverage.

(* ================================================================== *)
(** ** Properties of the [users] table *)
(* ================================================================== *)

Lemma find_map_keeping {A} (f : A -> bool) (g : A -> A) (l : list A) :
  (forall x, f (g x) = f x) ->
  find f (map g l) = option_map g (find f l).
Proof.
  intros H. induction l as [|a l IH]; simpl; [reflexivity|].
  rewrite H. destruct (f a); [reflexivity | exact IH].
Qed.




Section UsersProperties.

Context {rt : Runtime}.
Variable ownerOpenId : string.
Variable update_advances_counter : bool.















End UsersProperties.

(* ================================================================== *)
(** ** Properties of server/translation-ollama.reference.ts *)
(* ================================================================== *)

Module OllamaFacts.
Import OllamaReference.

Lemma Promise_all_texts (batch : list (outcome string)) (texts : list string) :
  Promise_all batch = (texts, []) <-> batch = map Ok texts.
Proof.
  revert texts. induction batch as [|[t|e] batch IH]; intros texts; simpl.
  - split.
    + intros [= <-]. reflexivity.
    + destruct texts; [reflexivity | discriminate].
  - destruct (Promise_all batch) as [ts es] eqn:Hp. split.
    + intros [= <- ->]. simpl. f_equal. now apply IH.
    + destruct texts as [|x texts]; [discriminate|].
      simpl. intros [= -> Hb]. apply IH in Hb. now injection Hb as -> ->.
  - destruct (Promise_all batch) as [ts es]. split.
    + discriminate.
    + destruct texts; discriminate.
Qed.

Lemma Promise_all_cases (batch : list (outcome string)) :
  (exists texts, Promise_all batch = (texts, []) /\ batch = map Ok texts)
  \/ (exists texts e errors e',
         Promise_all batch = (texts, e :: errors) /\ In (Throw e') batch).
Proof.
  destruct (Promise_all batch) as [texts [|e errors]] eqn:Hp.
  - left. exists texts. split; [reflexivity|]. now apply Promise_all_texts.
  - right. exists texts, e, errors.
    assert (H : exists e', In (Throw e') batch).
    { revert texts e errors Hp.
      induction batch as [|[t|e0] batch IH]; simpl; intros texts e errors Hp.
      - discriminate.
      - destruct (Promise_all batch) as [ts es] eqn:Hb.
        injection Hp as _ ->.
        destruct (IH ts e errors eq_refl) as [e' He']. eauto.
      - eauto. }
    destruct H as [e' He']. exists e'. split; [reflexivity | exact He'].
Qed.

Section ReferenceProperties.

Context {rt : Runtime}.
Variable String_substring : string -> nat -> nat -> string.
Variable TRANSLATION_MODE : string.
Variable ENABLE_CLOUD_FALLBACK : bool.
Variable OLLAMA_MODEL : string.
Variable providers : Providers.
Variable ollamaClient : bool.
Variable new_Ollama : outcome unit.

Lemma translateWithOllama_eval
      (content targetLanguage : string) (sourceLanguage : option string)
      (calls : list Call) :
  let call :=
    OllamaTranslate
      OLLAMA_MODEL
      (ollama_translate_prompt content targetLanguage sourceLanguage) in
  translateWithOllama OLLAMA_MODEL providers ollamaClient new_Ollama
                      content targetLanguage sourceLanguage calls
  = match fst (getOllamaClient ollamaClient new_Ollama calls) with
    | Throw e => (Throw e, calls)
    | Ok _ =>
        (match answer providers (length calls) call with
         | Text response =>
             if (String_trim response =? "")%string then
               Throw (Error ("Ollama translation failed: "
                             ++ "TranslateGemma returned empty translation"))
             else Ok (String_trim response)
         | Failed msg => Throw (Error ("Ollama translation failed: " ++ msg))
         end, (calls ++ [call])%list)
    end.
Proof.
  intros call. unfold translateWithOllama, getOllamaClient.
  unfold and_then at 1. cbn [fst].
  destruct (if ollamaClient then Ok tt else new_Ollama) as [made|e];
    [|reflexivity].
  unfold catch, and_then, await. fold call.
  destruct (answer providers (length calls) call) as [response|msg];
    [|reflexivity].
  destruct (String_trim response =? "")%string; reflexivity.
Qed.

Lemma translateWithGemini_eval
      (content targetLanguage : string) (sourceLanguage : option string)
      (calls : list Call) :
  let call :=
    GeminiTranslate (gemini_translate_system targetLanguage sourceLanguage)
                    content in
  translateWithGemini providers content targetLanguage sourceLanguage calls
  = (match answer providers (length calls) call with
     | Text text => Ok text
     | Failed msg => Throw (Error ("Cloud translation failed: " ++ msg))
     end, (calls ++ [call])%list).
Proof.
  intros call. unfold translateWithGemini, catch, await. fold call.
  destruct (answer providers (length calls) call); reflexivity.
Qed.

Lemma detectLanguageWithOllama_eval (sample : string) (calls : list Call) :
  let call := OllamaDetect OLLAMA_MODEL (ollama_detect_prompt sample) in
  detectLanguageWithOllama String_substring OLLAMA_MODEL providers
                           ollamaClient new_Ollama sample calls
  = match fst (getOllamaClient ollamaClient new_Ollama calls) with
    | Throw e => (Throw e, calls)
    | Ok _ =>
        (match answer providers (length calls) call with
         | Text response =>
             let code := code_of_reply String_substring response in
             if is_language_code code then Ok code
             else Throw (Error ("Language detection failed: "
                                ++ "Invalid language code detected: "
                                ++ code))
         | Failed msg =>
             Throw (Error ("Language detection failed: " ++ msg))
         end, (calls ++ [call])%list)
    end.
Proof.
  intros call. unfold detectLanguageWithOllama, getOllamaClient.
  unfold and_then at 1. cbn [fst].
  destruct (if ollamaClient then Ok tt else new_Ollama) as [made|e];
    [|reflexivity].
  unfold catch, and_then, await. fold call.
  destruct (answer providers (length calls) call) as [response|msg];
    [|reflexivity].
  cbv zeta. destruct (is_language_code _); reflexivity.
Qed.

Lemma detectLanguageWithGemini_eval (sample : string) (calls : list Call) :
  let call := GeminiDetect gemini_detect_system sample in
  detectLanguageWithGemini String_substring providers sample calls
  = (match answer providers (length calls) call with
     | Text text =>
         let code := code_of_reply String_substring text in
         if is_language_code code then Ok code
         else Throw (Error ("Language detection failed: "
                            ++ "Invalid language code from Gemini: " ++ code))
     | Failed msg => Throw (Error ("Language detection failed: " ++ msg))
     end, (calls ++ [call])%list).
Proof.
  intros call. unfold detectLanguageWithGemini, catch, and_then, await.
  fold call.
  destruct (answer providers (length calls) call) as [text|msg];
    [|reflexivity].
  cbv zeta. destruct (is_language_code _); reflexivity.
Qed.

Lemma translateMeetingNotes_eval
      (content targetLanguage : string) (sourceLanguage : option string)
      (calls : list Call) :
  translateMeetingNotes TRANSLATION_MODE ENABLE_CLOUD_FALLBACK OLLAMA_MODEL
                        providers ollamaClient new_Ollama
                        content targetLanguage sourceLanguage calls
  = if blank content then
      (Throw (Error "Translation content cannot be empty"), calls)
    else if blank targetLanguage then
      (Throw (Error "Target language must be specified"), calls)
    else if (TRANSLATION_MODE =? "local")%string then
      match translateWithOllama OLLAMA_MODEL providers ollamaClient
                                new_Ollama content targetLanguage
                                sourceLanguage calls with
      | (Ok text, calls') => (Ok text, calls')
      | (Throw e, calls') =>
          if ENABLE_CLOUD_FALLBACK then
            translateWithGemini providers content targetLanguage
                                sourceLanguage calls'
          else
            (Throw (Error ("Local translation failed: " ++ exn_message e)),
             calls')
      end
    else translateWithGemini providers content targetLanguage
                             sourceLanguage calls.
Proof.
  unfold translateMeetingNotes.
  destruct (blank content); [reflexivity|].
  destruct (blank targetLanguage); [reflexivity|].
  destruct (TRANSLATION_MODE =? "local")%string; [|reflexivity].
  unfold catch.
  destruct (translateWithOllama _ _ _ _ _ _ _ _) as [[text|e] calls'];
    [reflexivity|].
  destruct ENABLE_CLOUD_FALLBACK; reflexivity.
Qed.

Lemma detectMeetingLanguage_eval (content : string) (calls : list Call) :
  detectMeetingLanguage String_substring TRANSLATION_MODE
                        ENABLE_CLOUD_FALLBACK OLLAMA_MODEL providers
                        ollamaClient new_Ollama content calls
  = if blank content then
      (Throw (Error "Cannot detect language of empty content"), calls)
    else
      let sample := String_substring content 0 500 in
      if (TRANSLATION_MODE =? "local")%string then
        match detectLanguageWithOllama String_substring OLLAMA_MODEL
                                       providers ollamaClient new_Ollama
                                       sample calls with
        | (Ok code, calls') => (Ok code, calls')
        | (Throw e, calls') =>
            if ENABLE_CLOUD_FALLBACK then
              detectLanguageWithGemini String_substring providers sample
                                       calls'
            else (Throw e, calls')
        end
      else detectLanguageWithGemini String_substring providers sample calls.
Proof.
  unfold detectMeetingLanguage.
  destruct (blank content); [reflexivity|].
  cbv zeta.
  destruct (TRANSLATION_MODE =? "local")%string; [|reflexivity].
  unfold catch.
  destruct (detectLanguageWithOllama _ _ _ _ _ _ _) as [[code|e] calls'];
    [reflexivity|].
  destruct ENABLE_CLOUD_FALLBACK; reflexivity.
Qed.

(** X24.  Local mode without fallback keeps the content local.  With
    [TRANSLATION_MODE] "local" and the cloud fallback disabled,
    [translateMeetingNotes] and [detectMeetingLanguage] of the reference
    implementation make at most one call, to the Ollama model, and none
    to Gemini, whatever the providers answer; a translation that is
    returned is the trimmed answer of the local model and is not empty,
    and a failure after the call reads "Local translation failed: Ollama
    translation failed: ...".  When [getOllamaClient] throws (there is
    no client yet and [new Ollama] throws), no call is made at all: a
    translation of non-blank content into a non-blank target fails with
    "Local translation failed: " and the message of the constructor's
    error, and a detection on non-blank content throws the constructor's
    error as it is. *)
Theorem local_mode_never_calls_the_cloud
        (content targetLanguage : string) (sourceLanguage : option string)
        (calls : list Call) :
  TRANSLATION_MODE = "local" -> ENABLE_CLOUD_FALLBACK = false ->
  let translated :=
    translateMeetingNotes TRANSLATION_MODE ENABLE_CLOUD_FALLBACK
                          OLLAMA_MODEL providers ollamaClient new_Ollama
                          content targetLanguage sourceLanguage calls in
  let detected :=
    detectMeetingLanguage String_substring TRANSLATION_MODE
                          ENABLE_CLOUD_FALLBACK OLLAMA_MODEL providers
                          ollamaClient new_Ollama content calls in
  (snd translated = calls
   \/ exists prompt,
       snd translated = (calls ++ [OllamaTranslate OLLAMA_MODEL prompt])%list)
  /\ (forall text,
         fst translated = Ok text ->
         text <> ""
         /\ exists response,
             answer providers (length calls)
                    (OllamaTranslate
                       OLLAMA_MODEL
                       (ollama_translate_prompt content targetLanguage
                                                sourceLanguage))
             = Text response
             /\ text = String_trim response)
  /\ (forall e,
         fst translated = Throw e -> snd translated <> calls ->
         exists msg,
           e = Error ("Local translation failed: "
                      ++ "Ollama translation failed: " ++ msg))
  /\ (snd detected = calls
      \/ exists prompt,
          snd detected = (calls ++ [OllamaDetect OLLAMA_MODEL prompt])%list)
  /\ (forall e,
         fst (getOllamaClient ollamaClient new_Ollama calls) = Throw e ->
         (blank content = false -> blank targetLanguage = false ->
          translated
          = (Throw (Error ("Local translation failed: " ++ exn_message e)),
             calls))
         /\ (blank content = false -> detected = (Throw e, calls))).
Proof.
  intros Hmode Hfb translated detected.
  assert (Hgrow : forall (c : Call), (calls ++ [c])%list <> calls).
  { intros c H. apply (f_equal (@length Call)) in H.
    rewrite List.length_app in H. simpl in H. lia. }
  unfold translated, detected.
  rewrite translateMeetingNotes_eval, detectMeetingLanguage_eval.
  rewrite Hmode, Hfb. cbn [String.eqb Ascii.eqb Bool.eqb].
  rewrite translateWithOllama_eval, detectLanguageWithOllama_eval.
  cbv zeta.
  destruct (fst (getOllamaClient ollamaClient new_Ollama calls))
    as [made|x].
  - split; [|split; [|split; [|split]]].
    + destruct (blank content); [left; reflexivity|].
      destruct (blank targetLanguage); [left; reflexivity|].
      right. eexists.
      destruct (answer providers _ _) as [response|msg];
        [destruct (String_trim response =? "")%string|]; reflexivity.
    + intros text.
      destruct (blank content); [discriminate|].
      destruct (blank targetLanguage); [discriminate|].
      destruct (answer providers _ _) as [response|msg]; [|discriminate].
      destruct (String_trim response =? "")%string eqn:He; [discriminate|].
      cbn [fst]. intros H. apply Ok_inj in H. subst text.
      split; [now apply String.eqb_neq|].
      now exists response.
    + intros e.
      destruct (blank content); [cbn [snd]; congruence|].
      destruct (blank targetLanguage); [cbn [snd]; congruence|].
      destruct (answer providers _ _) as [response|msg].
      * destruct (String_trim response =? "")%string; [|discriminate].
        cbn [fst exn_message]. intros [= <-] _. eexists; reflexivity.
      * cbn [fst exn_message]. intros [= <-] _. eexists; reflexivity.
    + destruct (blank content); [left; reflexivity|].
      right. eexists.
      destruct (answer providers _ _) as [response|msg];
        [destruct (is_language_code _)|]; reflexivity.
    + intros e H. discriminate.
  - split; [|split; [|split; [|split]]].
    + left. destruct (blank content); [reflexivity|].
      destruct (blank targetLanguage); reflexivity.
    + intros text.
      destruct (blank content); [discriminate|].
      destruct (blank targetLanguage); discriminate.
    + intros e _ H. exfalso. apply H.
      destruct (blank content); [reflexivity|].
      destruct (blank targetLanguage); reflexivity.
    + left. destruct (blank content); reflexivity.
    + intros e [= <-]. split.
      * intros -> ->. reflexivity.
      * intros ->. reflexivity.
Qed.

(** X25.  Cloud mode never contacts Ollama.  With any [TRANSLATION_MODE]
    other than "local", a translation request with non-blank content and
    target makes exactly one call, to Gemini, with the content as prompt;
    what Gemini answers is returned as it is (an empty answer included),
    and a failure is rethrown as "Cloud translation failed: ...".  Blank
    content or a blank target is refused before any call. *)
Theorem cloud_mode_never_calls_ollama
        (content targetLanguage : string) (sourceLanguage : option string)
        (calls : list Call) :
  TRANSLATION_MODE <> "local" ->
  let run :=
    translateMeetingNotes TRANSLATION_MODE ENABLE_CLOUD_FALLBACK
                          OLLAMA_MODEL providers ollamaClient new_Ollama
                          content targetLanguage sourceLanguage calls in
  let call :=
    GeminiTranslate (gemini_translate_system targetLanguage sourceLanguage)
                    content in
  (blank content = true ->
   run = (Throw (Error "Translation content cannot be empty"), calls))
  /\ (blank content = false -> blank targetLanguage = true ->
      run = (Throw (Error "Target language must be specified"), calls))
  /\ (blank content = false -> blank targetLanguage = false ->
      run = (match answer providers (length calls) call with
             | Text text => Ok text
             | Failed msg =>
                 Throw (Error ("Cloud translation failed: " ++ msg))
             end, (calls ++ [call])%list)).
Proof.
  intros Hmode run call. unfold run. rewrite translateMeetingNotes_eval.
  apply String.eqb_neq in Hmode. rewrite Hmode.
  split; [intros ->; reflexivity|].
  split; [intros -> ->; reflexivity|].
  intros -> ->. apply translateWithGemini_eval.
Qed.

(** X26.  The cloud fallback.  In local mode with the fallback enabled,
    a request with non-blank content and target first gets the Ollama
    client.  When [getOllamaClient] throws, the local model is not
    asked: Gemini is called at once and its outcome is the outcome of
    the request.  Otherwise the local model is asked; a non-blank answer
    is returned trimmed and Gemini is not called; when the local model
    fails or answers blank, Gemini is called next and its outcome is the
    outcome of the request. *)
Theorem local_failure_falls_back_to_cloud
        (content targetLanguage : string) (sourceLanguage : option string)
        (calls : list Call) :
  TRANSLATION_MODE = "local" -> ENABLE_CLOUD_FALLBACK = true ->
  blank content = false -> blank targetLanguage = false ->
  let run :=
    translateMeetingNotes TRANSLATION_MODE ENABLE_CLOUD_FALLBACK
                          OLLAMA_MODEL providers ollamaClient new_Ollama
                          content targetLanguage sourceLanguage calls in
  let local :=
    OllamaTranslate
      OLLAMA_MODEL
      (ollama_translate_prompt content targetLanguage sourceLanguage) in
  let cloud :=
    GeminiTranslate (gemini_translate_system targetLanguage sourceLanguage)
                    content in
  let fallback (asked : list Call) :=
    (match answer providers (length (calls ++ asked)) cloud with
     | Text text => Ok text
     | Failed msg => Throw (Error ("Cloud translation failed: " ++ msg))
     end, (calls ++ asked ++ [cloud])%list) in
  run = match fst (getOllamaClient ollamaClient new_Ollama calls) with
        | Throw _ => fallback []
        | Ok _ =>
            match answer providers (length calls) local with
            | Text response =>
                if (String_trim response =? "")%string then fallback [local]
                else (Ok (String_trim response), (calls ++ [local])%list)
            | Failed _ => fallback [local]
            end
        end.
Proof.
  intros Hmode Hfb Hc Ht run local cloud fallback.
  unfold run. rewrite translateMeetingNotes_eval.
  rewrite Hmode, Hfb, Hc, Ht. cbn [String.eqb Ascii.eqb Bool.eqb].
  rewrite translateWithOllama_eval. cbv zeta. fold local.
  assert (Hfall : forall asked,
             translateWithGemini providers content targetLanguage
                                 sourceLanguage (calls ++ asked)%list
             = fallback asked).
  { intros asked. rewrite translateWithGemini_eval. cbv zeta. fold cloud.
    unfold fallback. now rewrite <- List.app_assoc. }
  destruct (fst (getOllamaClient ollamaClient new_Ollama calls))
    as [made|x].
  - destruct (answer providers (length calls) local) as [response|msg].
    + destruct (String_trim response =? "")%string;
        [exact (Hfall [local]) | reflexivity].
    + exact (Hfall [local]).
  - rewrite <- (Hfall []). now rewrite List.app_nil_r.
Qed.

Lemma language_code_shape (code : string) :
  is_language_code code = true ->
  exists a b,
    code = String a (String b "")
    /\ (97 <= N_of_ascii a <= 122)%N /\ (97 <= N_of_ascii b <= 122)%N.
Proof.
  unfold is_language_code, lower_letter.
  destruct code as [|a [|b [|c r]]]; try discriminate.
  intros H. apply andb_true_iff in H. destruct H as [Ha Hb].
  apply andb_true_iff in Ha, Hb.
  destruct Ha as [Ha1 Ha2], Hb as [Hb1 Hb2].
  apply N.leb_le in Ha1, Ha2, Hb1, Hb2.
  exists a, b. split; [reflexivity|]. split; split; assumption.
Qed.

(** X27.  A detected language is always a two-letter code.  In every
    mode and with any providers, a language that [detectMeetingLanguage]
    of the reference implementation returns consists of exactly two
    characters, each a lower-case letter from a to z; blank content is
    refused with "Cannot detect language of empty content" before any
    call. *)
Theorem detected_language_is_two_letters
        (content : string) (calls : list Call) :
  let run :=
    detectMeetingLanguage String_substring TRANSLATION_MODE
                          ENABLE_CLOUD_FALLBACK OLLAMA_MODEL providers
                          ollamaClient new_Ollama content calls in
  (blank content = true ->
   run = (Throw (Error "Cannot detect language of empty content"), calls))
  /\ forall code,
      fst run = Ok code ->
      exists a b,
        code = String a (String b "")
        /\ (97 <= N_of_ascii a <= 122)%N /\ (97 <= N_of_ascii b <= 122)%N.
Proof.
  intros run. unfold run. rewrite detectMeetingLanguage_eval.
  split; [intros ->; reflexivity|].
  intros code.
  destruct (blank content); [discriminate|].
  cbv zeta.
  assert (Hcloud : forall l,
             fst (detectLanguageWithGemini
                    String_substring providers
                    (String_substring content 0 500) l) = Ok code ->
             is_language_code code = true).
  { intros l. rewrite detectLanguageWithGemini_eval. cbv zeta. cbn [fst].
    destruct (answer providers _ _) as [text|msg]; [|discriminate].
    destruct (is_language_code _) eqn:Hc; [|discriminate].
    intros H. apply Ok_inj in H. now subst code. }
  intros H. apply language_code_shape.
  destruct (TRANSLATION_MODE =? "local")%string; [|now apply (Hcloud calls)].
  rewrite detectLanguageWithOllama_eval in H. cbv zeta in H.
  destruct (fst (getOllamaClient ollamaClient new_Ollama calls))
    as [made|x].
  - destruct (answer providers _ _) as [response|msg].
    + destruct (is_language_code (code_of_reply String_substring response))
        eqn:Hc.
      * cbn [fst] in H. apply Ok_inj in H. now subst code.
      * destruct ENABLE_CLOUD_FALLBACK; [now apply Hcloud in H|discriminate].
    + destruct ENABLE_CLOUD_FALLBACK; [now apply Hcloud in H|discriminate].
  - destruct ENABLE_CLOUD_FALLBACK; [now apply Hcloud in H|discriminate].
Qed.

End ReferenceProperties.

Section BatchProperties.

Variable settled : Item -> outcome string.
Variable first_rejection : exn -> list exn -> exn.

Lemma spliced_positive (concurrency : Z) (queue : list Item) :
  0 < concurrency -> queue <> [] ->
  (1 <= spliced concurrency queue <= length queue)%nat.
Proof.
  intros Hc Hq. unfold spliced.
  destruct queue as [|i queue]; [congruence|].
  cbn [length]. lia.
Qed.

Lemma batch_loop_all_settle (concurrency : Z) (fuel : nat) :
  0 < concurrency ->
  forall (queue : list Item) (results : list string),
    (length queue <= fuel)%nat ->
    (forall i, In i queue -> exists text, settled i = Ok text) ->
    exists texts,
      batch_loop settled first_rejection fuel concurrency results queue
      = Some (Ok (results ++ texts)%list)
      /\ map Ok texts = map settled queue.
Proof.
  intros Hc. induction fuel as [|fuel IH]; intros queue results Hlen Hall.
  - destruct queue; [|simpl in Hlen; lia].
    exists []. simpl. now rewrite List.app_nil_r.
  - destruct queue as [|i queue].
    { exists []. simpl. now rewrite List.app_nil_r. }
    cbn [batch_loop].
    set (q := i :: queue) in *.
    pose proof (spliced_positive concurrency q Hc ltac:(discriminate))
      as Hn.
    set (n := spliced concurrency q) in *.
    destruct (Promise_all_cases (map settled (firstn n q)))
      as [[texts [Hp Hm]] | [texts [e [errors [e' [Hp Hin]]]]]].
    + rewrite Hp.
      destruct (IH (skipn n q) (results ++ texts)%list) as [rest [Hr Hmr]].
      { rewrite length_skipn. lia. }
      { intros x Hx. apply Hall.
        rewrite <- (firstn_skipn n q). apply in_app_iff. now right. }
      exists (texts ++ rest)%list. split.
      * rewrite Hr. now rewrite List.app_assoc.
      * rewrite map_app, <- Hm, Hmr, <- map_app.
        now rewrite firstn_skipn.
    + exfalso. apply in_map_iff in Hin. destruct Hin as [x [Hx Hin]].
      destruct (Hall x) as [text Ht].
      { rewrite <- (firstn_skipn n q). apply in_app_iff. now left. }
      congruence.
Qed.

Lemma batch_loop_one_rejects (concurrency : Z) (fuel : nat) :
  0 < concurrency ->
  forall (queue : list Item) (results : list string),
    (length queue <= fuel)%nat ->
    (exists i e, In i queue /\ settled i = Throw e) ->
    exists e,
      batch_loop settled first_rejection fuel concurrency results queue
      = Some (Throw e).
Proof.
  intros Hc. induction fuel as [|fuel IH]; intros queue results Hlen Hbad.
  - destruct queue; [|simpl in Hlen; lia].
    destruct Hbad as [i [e [[] _]]].
  - destruct queue as [|i queue].
    { destruct Hbad as [x [e [[] _]]]. }
    cbn [batch_loop].
    set (q := i :: queue) in *.
    pose proof (spliced_positive concurrency q Hc ltac:(discriminate))
      as Hn.
    set (n := spliced concurrency q) in *.
    destruct (Promise_all_cases (map settled (firstn n q)))
      as [[texts [Hp Hm]] | [texts [e [errors [e' [Hp Hin]]]]]].
    + rewrite Hp. apply IH.
      { rewrite length_skipn. lia. }
      destruct Hbad as [x [e [Hx He]]]. exists x, e. split; [|exact He].
      rewrite <- (firstn_skipn n q) in Hx. apply in_app_iff in Hx.
      destruct Hx as [Hx|Hx]; [|exact Hx].
      exfalso. apply (in_map settled) in Hx. rewrite Hm, He in Hx.
      apply in_map_iff in Hx. destruct Hx as [y [Hy _]]. discriminate.
    + rewrite Hp. eexists; reflexivity.
Qed.

(** X28.  [batchTranslate] keeps the order of its input and needs a
    positive concurrency.  With a concurrency of at least 1 the loop ends
    after at most as many rounds as there are items: when every
    translation settles with a text, the result is these texts in the
    order of the items; when one is rejected, the whole batch is rejected.
    With a concurrency of 0 or less and at least one item, [splice]
    removes nothing and the loop never ends. *)
Theorem batch_keeps_order_and_needs_positive_concurrency
        (items : list Item) (concurrency : Z) :
  (0 < concurrency ->
   (forall i, In i items -> exists text, settled i = Ok text) ->
   exists texts,
     batchTranslate settled first_rejection (length items) items concurrency
     = Some (Ok texts)
     /\ map Ok texts = map settled items)
  /\ (0 < concurrency ->
      (exists i e, In i items /\ settled i = Throw e) ->
      exists e,
        batchTranslate settled first_rejection (length items) items
                       concurrency
        = Some (Throw e))
  /\ (concurrency <= 0 -> items <> [] ->
      forall fuel,
        batchTranslate settled first_rejection fuel items concurrency
        = None).
Proof.
  unfold batchTranslate. split; [|split].
  - intros Hc Hall.
    destruct (batch_loop_all_settle concurrency (length items) Hc items []
                                    (le_n _) Hall) as [texts [H Hm]].
    exists texts. split; [exact H | exact Hm].
  - intros Hc Hbad.
    apply (batch_loop_one_rejects concurrency (length items) Hc items []
                                  (le_n _) Hbad).
  - intros Hc Hne fuel. generalize (@nil string) as results.
    induction fuel as [|fuel IH]; intros results.
    + destruct items; [congruence | reflexivity].
    + destruct items as [|i items]; [congruence|].
      cbn [batch_loop].
      assert (Hn : spliced concurrency (i :: items) = 0%nat).
      { unfold spliced. cbn [length]. lia. }
      rewrite Hn. cbn [firstn map Promise_all skipn]. apply IH.
Qed.

End BatchProperties.

End OllamaFacts.

(* ================================================================== *)
(** ** The further properties on example runs *)
(* ================================================================== *)

Module MoreRuns.
Import Example Cases.

#[local] Existing Instance Reference.runtime.

Lemma fresh_reachable : reachable env fresh.
Proof.
  exists fresh. split.
  - split; [right|]; reflexivity.
  - apply later_refl.
Defined.

Lemma two_meetings_reachable : reachable env two_meetings.
Proof.
  exists fresh. split.
  - split; [right|]; reflexivity.
  - apply later_request, later_request, later_request, later_refl.
Defined.

Lemma lower_case_formats_are_kept :
  forall s, In s supportedFormats -> String_toLowerCase s = s.
Proof.
  intros s H. simpl in H.
  destruct H as [<-|[<-|[<-|[<-|[<-|[]]]]]]; reflexivity.
Defined.

Lemma trim_keeps_empty : String_trim "" = "".
Proof. vm_compute. reflexivity. Defined.

Ltac holds := vm_compute; reflexivity.

Ltac engine_keeps :=
  let held := fresh "held" in
  let H := fresh "H" in
  intros held H; vm_compute in H; injection H as <-; reflexivity.



(** The example meeting is read back after its creation. *)
Lemma created_meeting_reads_back_witness :
  exists row,
    handle env (ReqGet 1) created = (Ok (ResMeeting (Some row)), created)
    /\ Meeting.userId row = 7
    /\ Meeting.title row = "Standup"
    /\ Meeting.originalContent row = "Hello team"
    /\ Meeting.detectedLanguage row = Some "en".
Proof.
  assert (H : meetings.create env 7 "Standup" "Hello team" fresh
              = (Ok {| cr_id := 1; cr_detectedLanguage := "en" |}, created))
    by (vm_compute; reflexivity).
  destruct (created_meeting_reads_back
              env 7 "Standup" "Hello team" fresh created _
              fresh_reachable H)
    as [row [Hg [_ [Hu [_ [_ [_ [Ht [Hc [Hl _]]]]]]]]]].
  exists row.
  split; [exact Hg|]. split; [exact Hu|].
  split; [apply Ht; engine_keeps|].
  split; [apply Hc; engine_keeps | apply Hl; engine_keeps].
Defined.

(** A photographed agenda becomes a meeting that is read back with its
    image. *)
Lemma image_meeting_reads_back_witness :
  exists r w' row,
    meetings.createFromImage
      env_whiteboard 7 "Whiteboard" "data:image/png;base64,AAAA"
      "image/png" 1024 fresh = (Ok r, w')
    /\ handle env_whiteboard (ReqGet (ci_id r)) w'
       = (Ok (ResMeeting (Some row)), w')
    /\ Meeting.originalContent row = "Agenda: budget"
    /\ Meeting.detectedLanguage row = Some "en"
    /\ Meeting.imageKey row = Some "meetings/7/V1StGXR8.png".
Proof.
  assert (H : exists r w',
             meetings.createFromImage
               env_whiteboard 7 "Whiteboard" "data:image/png;base64,AAAA"
               "image/png" 1024 fresh = (Ok r, w')
             /\ ci_extractedText r = JString "Agenda: budget"
             /\ ci_detectedLanguage r = Some (JString "en")).
  { eexists; eexists. repeat split; vm_compute; reflexivity. }
  destruct H as [r [w' [H [Htext Hlang]]]].
  assert (Hr : reachable env_whiteboard fresh).
  { exists fresh. split; [split; [right|]; reflexivity | apply later_refl]. }
  destruct (image_meeting_reads_back
              env_whiteboard 7 "Whiteboard" "data:image/png;base64,AAAA"
              "image/png" 1024 fresh w' r Hr H)
    as [row [Hg [_ [_ [[c [Hc Hck]] [[l [Hl Hlk]] [_ [Hk _]]]]]]]].
  exists r, w', row.
  split; [exact H|]. split; [exact Hg|].
  rewrite Htext in Hc. rewrite Hlang in Hl.
  simpl in Hc, Hl. apply Some_inj in Hc. apply Some_inj in Hl.
  subst c l.
  vm_compute in Hck. apply Ok_inj in Hck.
  vm_compute in Hlk. apply Ok_inj in Hlk.
  vm_compute in Hk. apply Ok_inj in Hk.
  split; [now symmetry|]. split; [now symmetry|]. now symmetry.
Defined.

(** The deleted example meeting is not found any more. *)
Lemma deleted_meeting_is_not_found_witness :
  exists w',
    meetings.delete 1 translated = (Ok true, w')
    /\ handle env (ReqGet 1) w' = (Ok (ResMeeting None), w')
    /\ meetings.translate env 1 "es" w'
       = (Throw (Error "Meeting not found"), w').
Proof.
  assert (H : exists w', meetings.delete 1 translated = (Ok true, w')).
  { eexists. vm_compute. reflexivity. }
  destruct H as [w' H]. exists w'.
  destruct (deleted_meeting_is_not_found env 1 translated w' true H)
    as [_ [Hg [Ht _]]].
  split; [exact H|]. split; [exact Hg | apply Ht].
Defined.

(** Deleting the first of two meetings leaves the second. *)
Lemma delete_leaves_other_meetings_witness :
  exists w',
    meetings.delete 1 two_meetings = (Ok true, w')
    /\ fst (handle env (ReqGet 2) w') = fst (handle env (ReqGet 2) two_meetings)
    /\ fst (handle env (ReqGet 2) two_meetings) <> Ok (ResMeeting None).
Proof.
  assert (H : exists w', meetings.delete 1 two_meetings = (Ok true, w')).
  { eexists. vm_compute. reflexivity. }
  destruct H as [w' H]. exists w'.
  destruct (delete_leaves_other_meetings env 1 two_meetings w' true H)
    as [Hother _].
  destruct (Hother 2 ltac:(discriminate)) as [Hg _].
  split; [exact H|]. split; [exact Hg|].
  vm_compute. discriminate.
Defined.

(** No meeting has the identifier 5: deleting it changes nothing. *)
Lemma delete_again_changes_nothing_witness :
  meetings.delete 5 translated = (Ok true, translated).
Proof.
  destruct (delete_again_changes_nothing env 5 translated) as [_ H].
  apply H.
  - exact Runs.translated_reachable.
  - discriminate.
  - vm_compute. reflexivity.
Defined.

(** A server without a database. *)
Lemma without_database_nothing_is_stored_witness :
  meetings.translate env 1 "es" offline
  = (Throw (Error "Meeting not found"), offline)
  /\ meetings.delete 1 offline
     = (Throw (Error "Database not available"), offline)
  /\ meetings_queries.list 7 offline = (Ok [], offline).
Proof.
  destruct (without_database_nothing_is_stored env offline eq_refl)
    as [_ [_ [Hl [Ht [_ [Hd _]]]]]].
  split; [apply Ht|]. split; [apply Hd | apply Hl].
Defined.

(** The image was uploaded, the OCR failed: no meeting, and the upload
    stays. *)
Lemma failed_image_request_keeps_upload_witness :
  exists w' put,
    meetings.createFromImage
      env_ocr_down 7 "Whiteboard" "data:image/png;base64,AAAA" "image/png"
      1024 fresh
    = (Throw (Error "Failed to process image: vision quota exceeded"), w')
    /\ db w' = Some empty_database
    /\ exists calls, trace w' = put :: calls.
Proof.
  assert (H : exists w',
             meetings.createFromImage
               env_ocr_down 7 "Whiteboard" "data:image/png;base64,AAAA"
               "image/png" 1024 fresh
             = (Throw (Error "Failed to process image: vision quota exceeded"),
                w')).
  { eexists. vm_compute. reflexivity. }
  destruct H as [w' H].
  destruct (failed_image_request_keeps_upload
              env_ocr_down 7 "Whiteboard" "data:image/png;base64,AAAA"
              "image/png" 1024 fresh w' _
              ltac:(discriminate) ltac:(reflexivity) H)
    as [Hdb [_ [calls [Htr _]]]].
  exists w'. eexists. split; [exact H|]. split; [exact Hdb|].
  exists calls. exact Htr.
Defined.

(** The example meeting is found by its identifier. *)
Lemma stored_meeting_is_found_by_its_id_witness :
  exists d row,
    db translated = Some d
    /\ In row (meetings d)
    /\ handle env (ReqGet (Meeting.id row)) translated
       = (Ok (ResMeeting (Some row)), translated).
Proof.
  assert (H : exists d row,
             db translated = Some d /\ meetings d = [row]).
  { eexists; eexists. split; vm_compute; reflexivity. }
  destruct H as [d [row [Hdb Hm]]].
  destruct (stored_meeting_is_found_by_its_id
              env translated d Runs.translated_reachable Hdb) as [_ Hget].
  exists d, row. split; [exact Hdb|].
  assert (Hin : In row (meetings d)) by (rewrite Hm; left; reflexivity).
  split; [exact Hin | now apply Hget].
Defined.

(** The example reply gives a truthy summary. *)
Lemma summary_is_empty_only_for_empty_reply_witness :
  exists s w',
    summarizeMeetingNotes env "Hola equipo" created = (Ok s, w')
    /\ truthy (Some (ms_summary s)) = true.
Proof.
  destruct (summary_is_empty_only_for_empty_reply
              env "Hola equipo" summary_reply created eq_refl)
    as [s [H [Hne _]]].
  exists s. eexists. split; [exact H|].
  apply Hne. vm_compute. discriminate.
Defined.

(** The reply 42 is JSON: the summary is the placeholder. *)
Lemma non_object_reply_loses_its_text_witness :
  exists w',
    summarizeMeetingNotes env_bare_number "Hola equipo" created
    = (Ok {| ms_summary := JString "No summary available";
             ms_actionItems := [];
             ms_keyPoints := [];
             ms_participants := None;
             ms_decisions := None |}, w').
Proof.
  eexists.
  assert (Hp : JSON_parse "42" = Some (JNumber (Dec 42 0)))
    by (vm_compute; reflexivity).
  exact (non_object_reply_loses_its_text
           env_bare_number "Hola equipo" "42" (JNumber (Dec 42 0)) created
           eq_refl Hp ltac:(discriminate)).
Defined.

(** Export of the row without a summary ends with a [TypeError]. *)
Lemma export_throws_without_stored_lists_witness :
  meetings.export 1 "es" imported = (Throw TypeError, imported).
Proof.
  assert (H : exists m row,
             lookup_meeting (db imported) 1 = Some m
             /\ lookup_translation (db imported) 1 "es" = Some row
             /\ Translation.actionItems row = None).
  { eexists; eexists. repeat split; vm_compute; reflexivity. }
  destruct H as [m [row [Hm [Hr Ha]]]].
  destruct (export_throws_without_stored_lists 1 "es" imported m row Hm Hr)
    as [_ H].
  apply H; [vm_compute; reflexivity | now left].
Defined.

(** The stored example translation holds the serialized summary of the
    example reply. *)
Lemma stored_action_items_are_serialized_summaries_witness :
  exists d row a,
    db translated = Some d
    /\ In row (translations d)
    /\ Translation.actionItems row = Some a
    /\ a <> "".
Proof.
  assert (H : exists d row,
             db translated = Some d /\ translations d = [row]
             /\ Translation.actionItems row <> Some "").
  { eexists; eexists. split; [|split]; vm_compute;
      [reflexivity | reflexivity | discriminate]. }
  destruct H as [d [row [Hdb [Ht Hne]]]].
  assert (Hin : In row (translations d)) by (rewrite Ht; left; reflexivity).
  destruct (stored_action_items_are_serialized_summaries
              env translated d row Runs.translated_reachable Hdb Hin)
    as [a [text [Ha _]]].
  exists d, row, a. split; [exact Hdb|]. split; [exact Hin|].
  split; [exact Ha|]. intros ->. apply Hne. exact Ha.
Defined.

(** The example meeting has one translation, the Spanish one. *)
Lemma meeting_translations_one_per_language_witness :
  exists rows,
    getMeetingTranslations 1 translated = (Ok rows, translated)
    /\ map Translation.targetLanguage rows = ["es"]
    /\ NoDup (map Translation.targetLanguage rows).
Proof.
  destruct (meeting_translations_one_per_language
              env 1 translated Runs.translated_by_unaltered)
    as [rows [H [_ [_ [Hnd _]]]]].
  exists rows. split; [exact H|]. split; [|exact Hnd].
  assert (E : fst (getMeetingTranslations 1 translated)
              = Ok rows) by (now rewrite H).
  vm_compute in E. apply Ok_inj in E. rewrite <- E. reflexivity.
Defined.





(** A PNG of one kilobyte with a title passes the form and the server's
    validation. *)
Lemma form_submissions_pass_validation_witness :
  valid (validateImageForOCR 1024 "image/png") = true
  /\ fst (handle env (ReqCreate 7 "Standup" "Hello team") fresh)
     <> Throw ZodError.
Proof.
  destruct (form_submissions_pass_validation
              env 7 "Standup" "Hello team" "data:image/png;base64,AAAA"
              {| NewMeeting.size := 1024; NewMeeting.type := "image/png" |}
              (ReqCreate 7 "Standup" "Hello team") fresh
              trim_keeps_empty lower_case_formats_are_kept)
    as [Htext _].
  destruct (form_submissions_pass_validation
              env 7 "Whiteboard" "" "data:image/png;base64,AAAA"
              {| NewMeeting.size := 1024; NewMeeting.type := "image/png" |}
              (ReqCreateFromImage 7 "Whiteboard" "data:image/png;base64,AAAA"
                                  "image/png" 1024) fresh
              trim_keeps_empty lower_case_formats_are_kept)
    as [_ Himage].
  destruct (Himage eq_refl eq_refl) as [Hv _].
  destruct (Htext eq_refl) as [_ Hz].
  split; [exact Hv | exact Hz].
Defined.

(** The payload of the example data URL and the extension of its type. *)
Lemma upload_takes_payload_and_extension_witness :
  image_put env 7 "data:image/png;base64,AAAA" "image/png" fresh
  = CallStoragePut "meetings/7/V1StGXR8.png" "AAAA" "image/png".
Proof.
  destruct (upload_takes_payload_and_extension
              env 7 "" "image/png" "data:image/png;base64" "AAAA"
              "image" "png" fresh
              eq_refl eq_refl eq_refl eq_refl)
    as [Hput _].
  change ("data:image/png;base64,AAAA")
    with ("data:image/png;base64" ++ "," ++ "AAAA").
  rewrite (Hput ltac:(discriminate)). vm_compute. reflexivity.
Defined.

(** Two inserts of the Spanish translation leave two rows. *)
Lemma createTranslation_accepts_duplicate_keys_witness :
  exists w1 w2 d2,
    createTranslation spanish created = (Ok 1, w1)
    /\ createTranslation spanish w1 = (Ok 2, w2)
    /\ db w2 = Some d2
    /\ ~ unique_keys d2.
Proof.
  assert (H : exists w1, createTranslation spanish created = (Ok 1, w1)).
  { eexists. vm_compute. reflexivity. }
  destruct H as [w1 H1].
  destruct (createTranslation_accepts_duplicate_keys spanish created w1 1 H1)
    as [w2 [d2 [a [b [H2 [Hdb [_ [_ [_ [_ [_ Hnu]]]]]]]]]]].
  exists w1, w2, d2. auto.
Defined.

(** In local mode without fallback an unreachable local model is an
    error, and Gemini is not asked; nor is it when the Ollama client
    cannot be made. *)
Lemma local_mode_never_calls_the_cloud_witness :
  (exists prompt,
      OllamaReference.translateMeetingNotes
        "local" false "translategemma:4b" local_down false (Ok tt)
        "Hello" "fr" None []
      = (Throw (Error ("Local translation failed: "
                       ++ "Ollama translation failed: connection refused")),
         [OllamaReference.OllamaTranslate "translategemma:4b" prompt]))
  /\ OllamaReference.translateMeetingNotes
       "local" false "translategemma:4b" local_up false
       (Throw not_a_constructor) "Hello" "fr" None []
     = (Throw (Error ("Local translation failed: "
                      ++ "Ollama is not a constructor")), []).
Proof.
  split.
  - destruct (OllamaFacts.local_mode_never_calls_the_cloud
                substring "local" false "translategemma:4b" local_down
                false (Ok tt) "Hello" "fr" None [] eq_refl eq_refl)
      as [Hcalls _].
    cbv zeta in Hcalls.
    destruct Hcalls as [Hnone | [prompt Hone]].
    + vm_compute in Hnone. discriminate Hnone.
    + exists prompt. simpl app in Hone. rewrite <- Hone.
      vm_compute. reflexivity.
  - destruct (OllamaFacts.local_mode_never_calls_the_cloud
                substring "local" false "translategemma:4b" local_up
                false (Throw not_a_constructor) "Hello" "fr" None []
                eq_refl eq_refl)
      as [_ [_ [_ [_ Hclient]]]].
    destruct (Hclient not_a_constructor eq_refl) as [H _].
    apply H; holds.
Defined.

(** In cloud mode the answer of Gemini is the translation. *)
Lemma cloud_mode_never_calls_ollama_witness :
  exists system,
    OllamaReference.translateMeetingNotes
      "cloud" false "translategemma:4b" local_down false
      (Throw not_a_constructor) "Hello" "fr" None []
    = (Ok "Bonjour", [OllamaReference.GeminiTranslate system "Hello"]).
Proof.
  destruct (OllamaFacts.cloud_mode_never_calls_ollama
              "cloud" false "translategemma:4b" local_down false
              (Throw not_a_constructor)
              "Hello" "fr" None [] ltac:(discriminate))
    as [_ [_ H]].
  assert (Hc : OllamaReference.blank "Hello" = false)
    by (vm_compute; reflexivity).
  assert (Ht : OllamaReference.blank "fr" = false)
    by (vm_compute; reflexivity).
  eexists. rewrite (H Hc Ht). reflexivity.
Defined.

(** With the fallback enabled the unreachable local model is followed by
    Gemini, whose answer is returned; when the Ollama client cannot be
    made, Gemini is asked alone. *)
Lemma local_failure_falls_back_to_cloud_witness :
  (exists prompt system,
      OllamaReference.translateMeetingNotes
        "local" true "translategemma:4b" local_down false (Ok tt)
        "Hello" "fr" None []
      = (Ok "Bonjour",
         [OllamaReference.OllamaTranslate "translategemma:4b" prompt;
          OllamaReference.GeminiTranslate system "Hello"]))
  /\ exists system,
      OllamaReference.translateMeetingNotes
        "local" true "translategemma:4b" local_up false
        (Throw not_a_constructor) "Hello" "fr" None []
      = (Ok "Salut", [OllamaReference.GeminiTranslate system "Hello"]).
Proof.
  assert (Hc : OllamaReference.blank "Hello" = false)
    by (vm_compute; reflexivity).
  assert (Ht : OllamaReference.blank "fr" = false)
    by (vm_compute; reflexivity).
  split.
  - eexists; eexists.
    rewrite (OllamaFacts.local_failure_falls_back_to_cloud
               "local" true "translategemma:4b" local_down false (Ok tt)
               "Hello" "fr" None [] eq_refl eq_refl Hc Ht).
    reflexivity.
  - eexists.
    rewrite (OllamaFacts.local_failure_falls_back_to_cloud
               "local" true "translategemma:4b" local_up false
               (Throw not_a_constructor)
               "Hello" "fr" None [] eq_refl eq_refl Hc Ht).
    reflexivity.
Defined.

(** A reply " EN " is detected as "en". *)
Lemma detected_language_is_two_letters_witness :
  OllamaReference.detectMeetingLanguage
    substring "cloud" false "translategemma:4b" local_down false (Ok tt)
    "Hello" []
  = (Ok "en",
     [OllamaReference.GeminiDetect OllamaReference.gemini_detect_system
                                   "Hello"])
  /\ exists a b, "en" = String a (String b "").
Proof.
  assert (H : OllamaReference.detectMeetingLanguage
                substring "cloud" false "translategemma:4b" local_down
                false (Ok tt) "Hello" []
              = (Ok "en",
                 [OllamaReference.GeminiDetect
                    OllamaReference.gemini_detect_system "Hello"]))
    by (vm_compute; reflexivity).
  split; [exact H|].
  destruct (OllamaFacts.detected_language_is_two_letters
              substring "cloud" false "translategemma:4b" local_down
              false (Ok tt) "Hello" []) as [_ Hcode].
  destruct (Hcode "en" ltac:(rewrite H; reflexivity)) as [a [b [E _]]].
  now exists a, b.
Defined.

(** Two items, two at a time: both texts, in order; one of them
    rejected: the batch is rejected; no item at a time: no end. *)
Lemma batch_keeps_order_and_needs_positive_concurrency_witness :
  OllamaReference.batchTranslate bracketed earliest 2 greetings 2
  = Some (Ok ["[Hello]"; "[World]"])
  /\ (exists e,
         OllamaReference.batchTranslate second_fails earliest 2 greetings 1
         = Some (Throw e))
  /\ forall fuel,
      OllamaReference.batchTranslate bracketed earliest fuel greetings 0
      = None.
Proof.
  destruct (OllamaFacts.batch_keeps_order_and_needs_positive_concurrency
              bracketed earliest greetings 2) as [Hall _].
  destruct (OllamaFacts.batch_keeps_order_and_needs_positive_concurrency
              second_fails earliest greetings 1) as [_ [Hbad _]].
  destruct (OllamaFacts.batch_keeps_order_and_needs_positive_concurrency
              bracketed earliest greetings 0) as [_ [_ Hloop]].
  split; [|split].
  - destruct (Hall ltac:(lia)) as [texts [H Hm]].
    { intros i _. eexists. reflexivity. }
    change (length greetings) with 2%nat in H. rewrite H.
    f_equal. f_equal.
    simpl in Hm. destruct texts as [|a [|b [|c texts]]]; try discriminate.
    injection Hm as -> ->. reflexivity.
  - apply (Hbad ltac:(lia)).
    eexists; eexists. split; [right; left; reflexivity|]. reflexivity.
  - apply Hloop; [lia | discriminate].
Defined.

(** A whiteboard whose OCR reply is prose: the meeting has no language. *)
Lemma image_meeting_language_witness :
  exists r,
    fst (meetings.createFromImage
           env_prose_ocr 7 "Whiteboard" "data:image/png;base64,AAAA"
           "image/png" 1024 fresh) = Ok r
    /\ ci_extractedText r = JString "Agenda: budget"
    /\ ci_detectedLanguage r = None.
Proof.
  assert (Hr : reachable env_prose_ocr fresh).
  { exists fresh. split; [split; [right|]; reflexivity | apply later_refl]. }
  assert (Hp : JSON_parse " Agenda: budget " = None)
    by (vm_compute; reflexivity).
  assert (Ht : String_trim " Agenda: budget " = "Agenda: budget")
    by (vm_compute; reflexivity).
  destruct (image_meeting_language
              env_prose_ocr 7 "Whiteboard" "data:image/png;base64,AAAA"
              "image/png" 1024 fresh empty_database
              "https://blob.example/meetings/7/V1StGXR8.png"
              " Agenda: budget "
              Hr eq_refl ltac:(discriminate) eq_refl eq_refl eq_refl
              ltac:(holds) ltac:(holds) ltac:(holds))
    as [H _].
  destruct (H Hp ltac:(rewrite Ht; discriminate) ltac:(holds))
    as [r [Hrun [Hc [Hl _]]]].
  exists r. rewrite <- Ht. repeat split; assumption.
Defined.

End MoreRuns.
